(** * The child bridge fork of homebridge ([src/childBridgeFork.ts])

    The script runs as a forked child process.  It owns one
    [ChildBridgeFork] controller, an IPC message handler, a handler
    for SIGINT and SIGTERM and a five second interval that terminates
    the process once the parent is gone.

    The development embeds the script as state-passing functions over
    a [World]: the controller's fields, the module-level
    [shuttingDown] flag, the parts of Node's [process] object the
    script reads and writes, the pending timers and the chronological
    list of calls made to the collaborators the script imports. *)

From Stdlib Require Import String ZArith QArith List Bool Lia.
Import ListNotations.

Local Open Scope string_scope.
Local Open Scope Z_scope.
Local Open Scope list_scope.

Set Implicit Arguments.
Set Warnings "-register-all".

(** ** JavaScript values

    What crosses the IPC channel is JSON data; a missing property
    reads as [undefined]. *)

Inductive JsValue : Type :=
| JUndefined
| JNull
| JBool (b : bool)
| JNumber (q : Q)
| JString (s : string)
| JArray (items : list JsValue)
| JObject (props : list (string * JsValue)).

Inductive JsType : Type :=
| TUndefined | TObject | TBoolean | TNumber | TString.

(** [typeof v]; note that [typeof null] is ["object"]. *)
Definition typeof (v : JsValue) : JsType :=
  match v with
  | JUndefined => TUndefined
  | JNull => TObject
  | JBool _ => TBoolean
  | JNumber _ => TNumber
  | JString _ => TString
  | JArray _ => TObject
  | JObject _ => TObject
  end.

Definition JsType_eqb (a b : JsType) : bool :=
  match a, b with
  | TUndefined, TUndefined | TObject, TObject | TBoolean, TBoolean
  | TNumber, TNumber | TString, TString => true
  | _, _ => false
  end.

(** ToBoolean, as used by [!v], [if (v)] and [a || b]. *)
Definition truthy (v : JsValue) : bool :=
  match v with
  | JUndefined | JNull => false
  | JBool b => b
  | JNumber q => negb (Qeq_bool q 0%Q)
  | JString s => negb (String.eqb s "")
  | JArray _ | JObject _ => true
  end.

Fixpoint lookup (name : string) (props : list (string * JsValue)) : JsValue :=
  match props with
  | [] => JUndefined
  | (k, v) :: rest => if String.eqb k name then v else lookup name rest
  end.

Definition remove (name : string) (props : list (string * JsValue))
  : list (string * JsValue) :=
  filter (fun kv => negb (String.eqb (fst kv) name)) props.

(** [a === b] where [b] is a compile-time constant (an enum member).
    A value deserialised from the channel that is an object or an array
    is never identical to a constant. *)
Definition strict_equal (a b : JsValue) : bool :=
  match a, b with
  | JUndefined, JUndefined => true
  | JNull, JNull => true
  | JBool x, JBool y => Bool.eqb x y
  | JNumber x, JNumber y => Qeq_bool x y
  | JString x, JString y => String.eqb x y
  | _, _ => false
  end.

(** ** Enumerations imported by the script *)

(** [ChildProcessMessageEventType] of [childBridgeService.ts]. *)
Inductive ChildProcessMessageEventType : Type :=
| READY | LOAD | LOADED | START.

(** [PluginType] of [api.ts]. *)
Inductive PluginType : Type :=
| ACCESSORY | PLATFORM.

(** ** Collaborators

    Objects created by the imported modules are opaque to the script;
    they are represented by handles. *)

Definition Handle := nat.

(** The directory returned by [User.persistPath()]: the persist directory
    under the custom storage path when one was set, under the default
    one otherwise. *)
Inductive Path : Type :=
| PersistUnder (root : option JsValue).

(** The [setTimeout] and [setInterval] callbacks of the script. *)
Inductive Callback : Type :=
| ForcedExit (signalNum : Z)   (* () => process.exit(128 + signalNum) *)
| LivenessCheck.               (* the orphan check of the interval *)

(** Every call the script makes to something outside of it, with the
    arguments the script supplies. *)
Inductive Effect : Type :=
(* logger.ts and user.ts *)
| Logger_setTimestampEnabled (b : bool)
| Logger_setDebugEnabled (b : bool)
| Logger_forceColor
| User_setStoragePath (p : JsValue)
| Logger_withPrefix (prefix : JsValue)
| Logger_internal_warn (fmt : string) (arg : JsValue)
| Logger_internal_info (fmt : string) (arg : option string)
| Logger_log (logger : Handle) (fmt : string) (arg : JsValue)
(* hap-nodejs *)
| HAPStorage_setCustomStoragePath (p : Path)
(* api.ts, pluginManager.ts, plugin.ts *)
| New_HomebridgeAPI
| New_PluginManager (api : Handle)
| PluginManager_loadPlugin (pm : Handle) (pluginPath : JsValue)
| Plugin_load (plugin : Handle)
| PluginManager_initializePlugin (pm plugin : Handle) (identifier : JsValue)
| Plugin_getPluginIdentifier (plugin : Handle)
| PluginManager_getPluginForPlatform (pm : Handle) (identifier : JsValue)
| Plugin_getPlatformConstructor (plugin : Handle) (identifier : JsValue)
| New_Platform (ctor logger : Handle) (config : JsValue) (api : option Handle)
| HomebridgeAPI_isDynamicPlatformPlugin (platform : Handle)
| Plugin_assignDynamicPlatform (plugin : Handle) (identifier : JsValue)
    (platform : Handle)
| HomebridgeAPI_isStaticPlatformPlugin (platform : Handle)
| PluginManager_getPluginForAccessory (pm : Handle) (identifier : JsValue)
| Plugin_getAccessoryConstructor (plugin : Handle) (identifier : JsValue)
| New_Accessory (ctor logger : Handle) (config : JsValue) (api : option Handle)
| HomebridgeAPI_signalFinished (api : Handle)
(* bridgeService.ts *)
| New_BridgeService (api pm : option Handle) (options config host : JsValue)
| BridgeService_loadCachedPlatformAccessoriesFromDisk (bs : Handle)
| BridgeService_loadPlatformAccessories (bs plugin platform : Handle)
    (identifier : JsValue) (logger : Handle)
| BridgeService_createHAPAccessory (bs plugin instance : Handle)
    (displayName identifier uuid_base : JsValue)
| Bridge_addBridgedAccessory (bs accessory : Handle)
| BridgeService_restoreCachedPlatformAccessories (bs : Handle)
| BridgeService_publishBridge (bs : Handle)
| BridgeService_teardown (bs : Handle)
(* the process object *)
| Process_send (envelope : JsValue)
| Process_exit (code : Z)
(* entry into ChildBridgeFork.shutdown, recorded so that its
   invocations can be counted *)
| ChildBridgeFork_shutdown.

Inductive Exn : Type :=
| TypeError (what : string)   (* a property of undefined or null is used *)
| Raised (call : Effect).     (* a collaborator threw, or its promise rejected *)

(** What the script cannot know about its collaborators and about the
    two enumerations it imports. *)
Record Env : Type := {
  (* the value of an enum member on the wire *)
  messageId : ChildProcessMessageEventType -> JsValue;
  pluginType : PluginType -> JsValue;
  (* whether a call throws (or returns a promise that rejects), given
     the calls made so far *)
  raises : list Effect -> Effect -> bool;
  (* the truth value of what a call returns, given the calls made so far *)
  answers : list Effect -> Effect -> bool;
  (* Plugin.getPluginIdentifier() *)
  pluginIdentifier : Handle -> string
}.

(** ** The state of the process *)

(** The fields of [class ChildBridgeFork].  All of them are declared
    with [!]: they are [undefined] until [loadPlugin] or [startBridge]
    assigns them. *)
Record ChildBridgeFork : Type := {
  bridgeService : option Handle;
  api : option Handle;
  pluginManager : option Handle;
  type : JsValue;
  plugin : option Handle;
  identifier : JsValue;
  pluginConfig : JsValue;
  bridgeConfig : JsValue;
  bridgeOptions : JsValue;
  homebridgeConfig : JsValue
}.

(** Modelled from the spec: the process-wide configuration state that
    [Logger] and [User] keep ([logger.ts] and [user.ts] are not among
    the sources): timestamp logging, debug mode, forced colour and the
    custom storage path. *)
Record Settings : Type := {
  timestampEnabled : bool;
  debugEnabled : bool;
  forcedColor : bool;
  storagePath : option JsValue
}.

Record Timer : Type := {
  due : Z;                 (* milliseconds *)
  callback : Callback;
  period : option Z        (* set for setInterval *)
}.

Inductive Status : Type :=
| Running
| Exited (code : Z)        (* process.exit(code) *)
| Crashed (e : Exn).       (* an exception escaped an event handler *)

(** The points at which [startBridge] awaits. *)
Inductive Continuation : Type :=
| AfterCachedAccessories     (* await loadCachedPlatformAccessoriesFromDisk() *)
| AfterPlatformAccessories.  (* await loadPlatformAccessories(...) *)

Record World : Type := {
  childPluginFork : ChildBridgeFork;
  shuttingDown : bool;
  title : string;                   (* process.title *)
  send_defined : bool;              (* process.send is a function *)
  connected : bool;                 (* process.connected *)
  status : Status;
  now : Z;                          (* milliseconds since the script started *)
  timers : list Timer;              (* in order of insertion *)
  suspended : list Continuation;    (* startBridge calls waiting at an await *)
  rejections : list Exn;            (* rejected startBridge promises *)
  settings : Settings;
  next_handle : Handle;
  trace : list Effect               (* oldest first *)
}.

Definition set_fork (f : ChildBridgeFork -> ChildBridgeFork) (w : World) : World :=
  {| childPluginFork := f (childPluginFork w); shuttingDown := shuttingDown w;
     title := title w; send_defined := send_defined w; connected := connected w;
     status := status w; now := now w; timers := timers w;
     suspended := suspended w; rejections := rejections w;
     settings := settings w; next_handle := next_handle w; trace := trace w |}.

Definition set_shuttingDown (b : bool) (w : World) : World :=
  {| childPluginFork := childPluginFork w; shuttingDown := b;
     title := title w; send_defined := send_defined w; connected := connected w;
     status := status w; now := now w; timers := timers w;
     suspended := suspended w; rejections := rejections w;
     settings := settings w; next_handle := next_handle w; trace := trace w |}.

Definition set_title (s : string) (w : World) : World :=
  {| childPluginFork := childPluginFork w; shuttingDown := shuttingDown w;
     title := s; send_defined := send_defined w; connected := connected w;
     status := status w; now := now w; timers := timers w;
     suspended := suspended w; rejections := rejections w;
     settings := settings w; next_handle := next_handle w; trace := trace w |}.

Definition set_connected (b : bool) (w : World) : World :=
  {| childPluginFork := childPluginFork w; shuttingDown := shuttingDown w;
     title := title w; send_defined := send_defined w; connected := b;
     status := status w; now := now w; timers := timers w;
     suspended := suspended w; rejections := rejections w;
     settings := settings w; next_handle := next_handle w; trace := trace w |}.

Definition set_status (s : Status) (w : World) : World :=
  {| childPluginFork := childPluginFork w; shuttingDown := shuttingDown w;
     title := title w; send_defined := send_defined w; connected := connected w;
     status := s; now := now w; timers := timers w;
     suspended := suspended w; rejections := rejections w;
     settings := settings w; next_handle := next_handle w; trace := trace w |}.

Definition set_now (t : Z) (w : World) : World :=
  {| childPluginFork := childPluginFork w; shuttingDown := shuttingDown w;
     title := title w; send_defined := send_defined w; connected := connected w;
     status := status w; now := t; timers := timers w;
     suspended := suspended w; rejections := rejections w;
     settings := settings w; next_handle := next_handle w; trace := trace w |}.

Definition set_timers (l : list Timer) (w : World) : World :=
  {| childPluginFork := childPluginFork w; shuttingDown := shuttingDown w;
     title := title w; send_defined := send_defined w; connected := connected w;
     status := status w; now := now w; timers := l;
     suspended := suspended w; rejections := rejections w;
     settings := settings w; next_handle := next_handle w; trace := trace w |}.

Definition set_suspended (l : list Continuation) (w : World) : World :=
  {| childPluginFork := childPluginFork w; shuttingDown := shuttingDown w;
     title := title w; send_defined := send_defined w; connected := connected w;
     status := status w; now := now w; timers := timers w;
     suspended := l; rejections := rejections w;
     settings := settings w; next_handle := next_handle w; trace := trace w |}.

Definition set_rejections (l : list Exn) (w : World) : World :=
  {| childPluginFork := childPluginFork w; shuttingDown := shuttingDown w;
     title := title w; send_defined := send_defined w; connected := connected w;
     status := status w; now := now w; timers := timers w;
     suspended := suspended w; rejections := l;
     settings := settings w; next_handle := next_handle w; trace := trace w |}.

Definition set_settings (f : Settings -> Settings) (w : World) : World :=
  {| childPluginFork := childPluginFork w; shuttingDown := shuttingDown w;
     title := title w; send_defined := send_defined w; connected := connected w;
     status := status w; now := now w; timers := timers w;
     suspended := suspended w; rejections := rejections w;
     settings := f (settings w); next_handle := next_handle w; trace := trace w |}.

Definition set_next_handle (h : Handle) (w : World) : World :=
  {| childPluginFork := childPluginFork w; shuttingDown := shuttingDown w;
     title := title w; send_defined := send_defined w; connected := connected w;
     status := status w; now := now w; timers := timers w;
     suspended := suspended w; rejections := rejections w;
     settings := settings w; next_handle := h; trace := trace w |}.

Definition set_trace (l : list Effect) (w : World) : World :=
  {| childPluginFork := childPluginFork w; shuttingDown := shuttingDown w;
     title := title w; send_defined := send_defined w; connected := connected w;
     status := status w; now := now w; timers := timers w;
     suspended := suspended w; rejections := rejections w;
     settings := settings w; next_handle := next_handle w; trace := l |}.

(** ** Computations that may throw or end the process *)

Inductive Outcome (A : Type) : Type :=
| Ok (a : A) (w : World)      (* returned normally *)
| Throw (e : Exn) (w : World) (* threw *)
| Halt (w : World).           (* process.exit was called *)

Arguments Throw {A} e w.
Arguments Halt {A} w.

Definition M (A : Type) : Type := World -> Outcome A.

Definition ret {A} (a : A) : M A := fun w => Ok a w.

Definition bind {A B} (m : M A) (k : A -> M B) : M B :=
  fun w =>
    match m w with
    | Ok a w' => k a w'
    | Throw e w' => Throw e w'
    | Halt w' => Halt w'
    end.

Declare Scope js_scope.
Delimit Scope js_scope with js.
Notation "x <- m ;; k" := (bind m (fun x => k))
  (at level 61, m at next level, right associativity) : js_scope.
Notation "m ;; k" := (bind m (fun _ => k))
  (at level 61, right associativity) : js_scope.
Local Open Scope js_scope.

Definition throw {A} (e : Exn) : M A := fun w => Throw e w.

Definition gets {A} (f : World -> A) : M A := fun w => Ok (f w) w.

Definition modify (f : World -> World) : M unit := fun w => Ok tt (f w).

(** [try { m } catch (e) { h e }] *)
Definition try_catch {A} (m : M A) (h : Exn -> M A) : M A :=
  fun w =>
    match m w with
    | Throw e w' => h e w'
    | o => o
    end.

Definition when (b : bool) (m : M unit) : M unit :=
  if b then m else ret tt.

Definition final {A} (o : Outcome A) : World :=
  match o with
  | Ok _ w => w
  | Throw _ w => w
  | Halt w => w
  end.

(** *** Property access *)

(** [v.name]; reading a property of [undefined] or [null] throws.  The
    script reads no property that a string, a number, a boolean or an
    array has of its own. *)
Definition get_prop (v : JsValue) (name : string) : M JsValue :=
  match v with
  | JUndefined | JNull => throw (TypeError name)
  | JObject props => ret (lookup name props)
  | _ => ret JUndefined
  end.

(** [v?.name] *)
Definition get_prop_opt (v : JsValue) (name : string) : M JsValue :=
  match v with
  | JUndefined | JNull => ret JUndefined
  | _ => get_prop v name
  end.

(** [delete v.name], yielding the object without the property. *)
Definition delete_prop (v : JsValue) (name : string) : M JsValue :=
  match v with
  | JUndefined | JNull => throw (TypeError name)
  | JObject props => ret (JObject (remove name props))
  | _ => ret v
  end.

(** [o.method(...)] on a field that may still be undefined. *)
Definition deref (o : option Handle) (what : string) : M Handle :=
  match o with
  | Some h => ret h
  | None => throw (TypeError what)
  end.

(** *** The process object and the timers *)

Definition emit (e : Effect) : M unit :=
  modify (fun w => set_trace (trace w ++ [e]) w).

Definition process_exit (code : Z) : M unit :=
  fun w => Halt (set_status (Exited code) (set_trace (trace w ++ [Process_exit code]) w)).

Definition setTimeout (cb : Callback) (ms : Z) : M unit :=
  modify (fun w =>
    set_timers (timers w ++ [{| due := now w + ms; callback := cb; period := None |}]) w).

Definition setInterval (cb : Callback) (ms : Z) : M unit :=
  modify (fun w =>
    set_timers (timers w ++ [{| due := now w + ms; callback := cb; period := Some ms |}]) w).

Definition fresh : M Handle :=
  fun w => Ok (next_handle w) (set_next_handle (S (next_handle w)) w).

(** *** Logger and User

    Modelled from the spec: plain setters and printers of [logger.ts]
    and [user.ts]; they update the process-wide settings and do not
    throw. *)

Definition setTimestampEnabled (b : bool) : M unit :=
  emit (Logger_setTimestampEnabled b) ;;
  modify (set_settings (fun s =>
    {| timestampEnabled := b; debugEnabled := debugEnabled s;
       forcedColor := forcedColor s; storagePath := storagePath s |})).

Definition setDebugEnabled (b : bool) : M unit :=
  emit (Logger_setDebugEnabled b) ;;
  modify (set_settings (fun s =>
    {| timestampEnabled := timestampEnabled s; debugEnabled := b;
       forcedColor := forcedColor s; storagePath := storagePath s |})).

Definition forceColor : M unit :=
  emit Logger_forceColor ;;
  modify (set_settings (fun s =>
    {| timestampEnabled := timestampEnabled s; debugEnabled := debugEnabled s;
       forcedColor := true; storagePath := storagePath s |})).

Definition setStoragePath (p : JsValue) : M unit :=
  emit (User_setStoragePath p) ;;
  modify (set_settings (fun s =>
    {| timestampEnabled := timestampEnabled s; debugEnabled := debugEnabled s;
       forcedColor := forcedColor s; storagePath := Some p |})).

Definition persistPath : M Path :=
  gets (fun w => PersistUnder (storagePath (settings w))).

Definition withPrefix (prefix : JsValue) : M Handle :=
  emit (Logger_withPrefix prefix) ;; fresh.

(** ** The controller's fields *)

Definition undefined_fork : ChildBridgeFork :=
  {| bridgeService := None; api := None; pluginManager := None;
     type := JUndefined; plugin := None; identifier := JUndefined;
     pluginConfig := JUndefined; bridgeConfig := JUndefined;
     bridgeOptions := JUndefined; homebridgeConfig := JUndefined |}.

Definition set_bridgeService (v : option Handle) (f : ChildBridgeFork) :=
  {| bridgeService := v; api := api f; pluginManager := pluginManager f;
     type := type f; plugin := plugin f; identifier := identifier f;
     pluginConfig := pluginConfig f; bridgeConfig := bridgeConfig f;
     bridgeOptions := bridgeOptions f; homebridgeConfig := homebridgeConfig f |}.

Definition set_api (v : option Handle) (f : ChildBridgeFork) :=
  {| bridgeService := bridgeService f; api := v; pluginManager := pluginManager f;
     type := type f; plugin := plugin f; identifier := identifier f;
     pluginConfig := pluginConfig f; bridgeConfig := bridgeConfig f;
     bridgeOptions := bridgeOptions f; homebridgeConfig := homebridgeConfig f |}.

Definition set_pluginManager (v : option Handle) (f : ChildBridgeFork) :=
  {| bridgeService := bridgeService f; api := api f; pluginManager := v;
     type := type f; plugin := plugin f; identifier := identifier f;
     pluginConfig := pluginConfig f; bridgeConfig := bridgeConfig f;
     bridgeOptions := bridgeOptions f; homebridgeConfig := homebridgeConfig f |}.

Definition set_type (v : JsValue) (f : ChildBridgeFork) :=
  {| bridgeService := bridgeService f; api := api f; pluginManager := pluginManager f;
     type := v; plugin := plugin f; identifier := identifier f;
     pluginConfig := pluginConfig f; bridgeConfig := bridgeConfig f;
     bridgeOptions := bridgeOptions f; homebridgeConfig := homebridgeConfig f |}.

Definition set_plugin (v : option Handle) (f : ChildBridgeFork) :=
  {| bridgeService := bridgeService f; api := api f; pluginManager := pluginManager f;
     type := type f; plugin := v; identifier := identifier f;
     pluginConfig := pluginConfig f; bridgeConfig := bridgeConfig f;
     bridgeOptions := bridgeOptions f; homebridgeConfig := homebridgeConfig f |}.

Definition set_identifier (v : JsValue) (f : ChildBridgeFork) :=
  {| bridgeService := bridgeService f; api := api f; pluginManager := pluginManager f;
     type := type f; plugin := plugin f; identifier := v;
     pluginConfig := pluginConfig f; bridgeConfig := bridgeConfig f;
     bridgeOptions := bridgeOptions f; homebridgeConfig := homebridgeConfig f |}.

Definition set_pluginConfig (v : JsValue) (f : ChildBridgeFork) :=
  {| bridgeService := bridgeService f; api := api f; pluginManager := pluginManager f;
     type := type f; plugin := plugin f; identifier := identifier f;
     pluginConfig := v; bridgeConfig := bridgeConfig f;
     bridgeOptions := bridgeOptions f; homebridgeConfig := homebridgeConfig f |}.

Definition set_bridgeConfig (v : JsValue) (f : ChildBridgeFork) :=
  {| bridgeService := bridgeService f; api := api f; pluginManager := pluginManager f;
     type := type f; plugin := plugin f; identifier := identifier f;
     pluginConfig := pluginConfig f; bridgeConfig := v;
     bridgeOptions := bridgeOptions f; homebridgeConfig := homebridgeConfig f |}.

Definition set_bridgeOptions (v : JsValue) (f : ChildBridgeFork) :=
  {| bridgeService := bridgeService f; api := api f; pluginManager := pluginManager f;
     type := type f; plugin := plugin f; identifier := identifier f;
     pluginConfig := pluginConfig f; bridgeConfig := bridgeConfig f;
     bridgeOptions := v; homebridgeConfig := homebridgeConfig f |}.

Definition set_homebridgeConfig (v : JsValue) (f : ChildBridgeFork) :=
  {| bridgeService := bridgeService f; api := api f; pluginManager := pluginManager f;
     type := type f; plugin := plugin f; identifier := identifier f;
     pluginConfig := pluginConfig f; bridgeConfig := bridgeConfig f;
     bridgeOptions := bridgeOptions f; homebridgeConfig := v |}.

(** [this.field] and [this.field = v] *)
Definition this {A} (field : ChildBridgeFork -> A) : M A :=
  gets (fun w => field (childPluginFork w)).

Definition assign (set : ChildBridgeFork -> ChildBridgeFork) : M unit :=
  modify (set_fork set).

(** How a segment of the asynchronous [startBridge] ends. *)
Inductive Flow : Type :=
| Completed                       (* the function returned *)
| Awaiting (k : Continuation).    (* it waits for a promise *)

(** How the if/else-if of [startBridge] (lines 115-152) ends. *)
Inductive Branch : Type :=
| FallThrough                     (* control reaches line 154 *)
| Returned                        (* the return of line 137 *)
| AwaitPlatformAccessories.       (* the await of line 125 *)

Inductive Signals : Type :=
| SIGINT | SIGTERM.

Definition signalName (s : Signals) : string :=
  match s with
  | SIGINT => "SIGINT"
  | SIGTERM => "SIGTERM"
  end.

Definition signalNumber (s : Signals) : Z :=
  match s with
  | SIGINT => 2
  | SIGTERM => 15
  end.

(** What the environment can do to the process. *)
Inductive Event : Type :=
| Message (message : JsValue)   (* the parent sent a message *)
| Signal (s : Signals)          (* a termination signal arrived *)
| Millisecond                   (* one millisecond went by *)
| Settled (i : nat)             (* the promise the i-th suspended call waits for resolved *)
| Disconnected.                 (* the channel to the parent closed *)

(** ** The script *)

Section Script.

Variable env : Env.

(** A call to a collaborator: it is recorded, and it throws when the
    environment says so.  A promise that rejects is taken to reject
    when the call is made. *)
Definition call (e : Effect) : M unit :=
  fun w =>
    let w' := set_trace (trace w ++ [e]) w in
    if raises env (trace w) e then Throw (Raised e) w' else Ok tt w'.

(** A call that returns an object. *)
Definition call_new (e : Effect) : M Handle :=
  call e ;; fresh.

(** A call whose result is only tested for truth. *)
Definition call_ask (e : Effect) : M bool :=
  a <- gets (fun w => answers env (trace w) e) ;;
  call e ;;
  ret a.

(** A call that returns an object or [undefined]. *)
Definition call_opt (e : Effect) : M (option Handle) :=
  a <- call_ask e ;;
  if a then (h <- fresh ;; ret (Some h)) else ret None.

Definition getPluginIdentifier (plugin : Handle) : M string :=
  call (Plugin_getPluginIdentifier plugin) ;;
  ret (pluginIdentifier env plugin).

(** Lines 47-54. *)
Definition sendMessage (t : ChildProcessMessageEventType) (data : JsValue) : M unit :=
  send <- gets send_defined ;;
  when send
    (emit (Process_send (JObject [("id", messageId env t); ("data", data)]))).

(** Lines 68-83: the four conditionals that apply the bridge options. *)
Definition applyBridgeOptions : M unit :=
  options <- this bridgeOptions ;;
  flag <- get_prop options "noLogTimestamps" ;;
  when (truthy flag) (setTimestampEnabled false) ;;
  options <- this bridgeOptions ;;
  flag <- get_prop options "debugModeEnabled" ;;
  when (truthy flag) (setDebugEnabled true) ;;
  options <- this bridgeOptions ;;
  flag <- get_prop options "forceColourLogging" ;;
  when (truthy flag) forceColor ;;
  options <- this bridgeOptions ;;
  path <- get_prop options "customStoragePath" ;;
  when (truthy path) (setStoragePath path).

(** Lines 56-101. *)
Definition loadPlugin (data : JsValue) : M unit :=
  (* set data *)
  v <- get_prop data "type" ;; assign (set_type v) ;;
  v <- get_prop data "identifier" ;; assign (set_identifier v) ;;
  v <- get_prop data "pluginConfig" ;; assign (set_pluginConfig v) ;;
  v <- get_prop data "bridgeConfig" ;; assign (set_bridgeConfig v) ;;
  v <- get_prop data "bridgeOptions" ;; assign (set_bridgeOptions v) ;;
  v <- get_prop data "homebridgeConfig" ;; assign (set_homebridgeConfig v) ;;
  (* remove the _bridge key *)
  config <- this pluginConfig ;;
  config <- delete_prop config "_bridge" ;;
  assign (set_pluginConfig config) ;;
  (* set bridge settings (inherited from main bridge) *)
  applyBridgeOptions ;;
  (* initialize HAP-NodeJS with a custom persist directory *)
  dir <- persistPath ;;
  call (HAPStorage_setCustomStoragePath dir) ;;
  (* load api *)
  a <- call_new New_HomebridgeAPI ;;
  assign (set_api (Some a)) ;;
  a <- this api ;;
  a <- deref a "api" ;;
  pm <- call_new (New_PluginManager a) ;;
  assign (set_pluginManager (Some pm)) ;;
  (* load plugin *)
  pm <- this pluginManager ;;
  pm <- deref pm "loadPlugin" ;;
  path <- get_prop data "pluginPath" ;;
  p <- call_new (PluginManager_loadPlugin pm path) ;;
  assign (set_plugin (Some p)) ;;
  p <- this plugin ;;
  p <- deref p "load" ;;
  call (Plugin_load p) ;;
  pm <- this pluginManager ;;
  pm <- deref pm "initializePlugin" ;;
  p <- this plugin ;;
  p <- deref p "plugin" ;;
  id <- get_prop data "identifier" ;;
  call (PluginManager_initializePlugin pm p id) ;;
  (* change process title to include plugin name *)
  p <- this plugin ;;
  p <- deref p "getPluginIdentifier" ;;
  name <- getPluginIdentifier p ;;
  modify (set_title (String.append "homebridge: " name)) ;;
  sendMessage LOADED JUndefined.

(** Lines 104-113: up to the first await. *)
Definition startBridge_begin : M Flow :=
  a <- this api ;;
  pm <- this pluginManager ;;
  options <- this bridgeOptions ;;
  config <- this bridgeConfig ;;
  host <- this homebridgeConfig ;;
  bs <- call_new (New_BridgeService a pm options config host) ;;
  assign (set_bridgeService (Some bs)) ;;
  (* load the cached accessories *)
  bs <- this bridgeService ;;
  bs <- deref bs "loadCachedPlatformAccessoriesFromDisk" ;;
  call (BridgeService_loadCachedPlatformAccessoriesFromDisk bs) ;;
  ret (Awaiting AfterCachedAccessories).

(** Lines 116-129. *)
Definition startBridge_platform : M Branch :=
  pm <- this pluginManager ;;
  pm <- deref pm "getPluginForPlatform" ;;
  id <- this identifier ;;
  plugin <- call_new (PluginManager_getPluginForPlatform pm id) ;;
  config <- this pluginConfig ;;
  name <- get_prop_opt config "name" ;;
  displayName <-
    (if truthy name then ret name
     else (s <- getPluginIdentifier plugin ;; ret (JString s))) ;;
  logger <- withPrefix displayName ;;
  id <- this identifier ;;
  ctor <- call_new (Plugin_getPlatformConstructor plugin id) ;;
  config <- this pluginConfig ;;
  a <- this api ;;
  platform <- call_new (New_Platform ctor logger config a) ;;
  dynamic <- call_ask (HomebridgeAPI_isDynamicPlatformPlugin platform) ;;
  if dynamic then
    id <- this identifier ;;
    call (Plugin_assignDynamicPlatform plugin id platform) ;;
    ret FallThrough
  else
    static <- call_ask (HomebridgeAPI_isStaticPlatformPlugin platform) ;;
    if static then
      bs <- this bridgeService ;;
      bs <- deref bs "loadPlatformAccessories" ;;
      id <- this identifier ;;
      call (BridgeService_loadPlatformAccessories bs plugin platform id logger) ;;
      ret AwaitPlatformAccessories
    else
      ret FallThrough.

(** Lines 132-151. *)
Definition startBridge_accessory : M Branch :=
  pm <- this pluginManager ;;
  pm <- deref pm "getPluginForAccessory" ;;
  id <- this identifier ;;
  plugin <- call_new (PluginManager_getPluginForAccessory pm id) ;;
  config <- this pluginConfig ;;
  displayName <- get_prop config "name" ;;
  if negb (truthy displayName) then
    id <- this identifier ;;
    emit (Logger_internal_warn
      "Could not load accessory %s as it is missing the required 'name' property!" id) ;;
    ret Returned
  else
    logger <- withPrefix displayName ;;
    id <- this identifier ;;
    ctor <- call_new (Plugin_getAccessoryConstructor plugin id) ;;
    config <- this pluginConfig ;;
    a <- this api ;;
    instance <- call_new (New_Accessory ctor logger config a) ;;
    bs <- this bridgeService ;;
    bs <- deref bs "createHAPAccessory" ;;
    id <- this identifier ;;
    config <- this pluginConfig ;;
    uuid_base <- get_prop config "uuid_base" ;;
    accessory <- call_opt
      (BridgeService_createHAPAccessory bs plugin instance displayName id uuid_base) ;;
    match accessory with
    | Some acc =>
        bs <- this bridgeService ;;
        bs <- deref bs "bridge" ;;
        call (Bridge_addBridgedAccessory bs acc) ;;
        ret FallThrough
    | None =>
        id <- this identifier ;;
        emit (Logger_log logger
          "Accessory %s returned empty set of services. Won't adding it to the bridge!" id) ;;
        ret FallThrough
    end.

(** Lines 115-152. *)
Definition startBridge_branch : M Branch :=
  t <- this type ;;
  if strict_equal t (pluginType env PLATFORM) then startBridge_platform
  else if strict_equal t (pluginType env ACCESSORY) then startBridge_accessory
  else ret FallThrough.

(** Lines 154-158. *)
Definition startBridge_finish : M Flow :=
  (* restore the cached accessories *)
  bs <- this bridgeService ;;
  bs <- deref bs "restoreCachedPlatformAccessories" ;;
  call (BridgeService_restoreCachedPlatformAccessories bs) ;;
  bs <- this bridgeService ;;
  bs <- deref bs "publishBridge" ;;
  call (BridgeService_publishBridge bs) ;;
  a <- this api ;;
  a <- deref a "signalFinished" ;;
  call (HomebridgeAPI_signalFinished a) ;;
  ret Completed.

(** What [startBridge] does when the promise it awaits resolves. *)
Definition resume (k : Continuation) : M Flow :=
  match k with
  | AfterCachedAccessories =>
      b <- startBridge_branch ;;
      match b with
      | FallThrough => startBridge_finish
      | Returned => ret Completed
      | AwaitPlatformAccessories => ret (Awaiting AfterPlatformAccessories)
      end
  | AfterPlatformAccessories => startBridge_finish
  end.

(** A segment of an async function never throws into its caller: the
    function's promise is fulfilled, is rejected, or the function is
    parked until the awaited promise settles. *)
Definition async (segment : M Flow) : M unit :=
  fun w =>
    match segment w with
    | Ok Completed w' => Ok tt w'
    | Ok (Awaiting k) w' => Ok tt (set_suspended (suspended w' ++ [k]) w')
    | Throw e w' => Ok tt (set_rejections (rejections w' ++ [e]) w')
    | Halt w' => Halt w'
    end.

(** Line 103: the call [childPluginFork.startBridge()]. *)
Definition startBridge : M unit :=
  async startBridge_begin.

(** [startBridge] run from its call to its return, the awaited promises
    resolving at once. *)
Definition startBridge_run : M unit :=
  startBridge_begin ;;
  b <- startBridge_branch ;;
  match b with
  | Returned => ret tt
  | FallThrough | AwaitPlatformAccessories => startBridge_finish ;; ret tt
  end.

(** Lines 161-163. *)
Definition shutdown : M unit :=
  emit ChildBridgeFork_shutdown ;;
  bs <- this bridgeService ;;
  bs <- deref bs "teardown" ;;
  call (BridgeService_teardown bs).

(** Lines 174-189. *)
Definition onMessage (message : JsValue) : M unit :=
  if negb (JsType_eqb (typeof message) TObject) then ret tt
  else
    id <- get_prop message "id" ;;
    if negb (truthy id) then ret tt
    else if strict_equal id (messageId env LOAD) then
      data <- get_prop message "data" ;;
      loadPlugin data
    else if strict_equal id (messageId env START) then
      startBridge
    else ret tt.

(** Lines 195-210. *)
Definition signalHandler (signal : string) (signalNum : Z) : M unit :=
  busy <- gets shuttingDown ;;
  if busy then ret tt
  else
    modify (set_shuttingDown true) ;;
    emit (Logger_internal_info "Got %s, shutting down child bridge process..."
            (Some signal)) ;;
    try_catch shutdown (fun _ => ret tt) ;;
    setTimeout (ForcedExit signalNum) 5000.

(** Lines 212-213: the handler is registered for each signal with the
    signal's name and number bound. *)
Definition onSignal (s : Signals) : M unit :=
  signalHandler (signalName s) (signalNumber s).

(** Line 209 and lines 219-222. *)
Definition run_callback (cb : Callback) : M unit :=
  match cb with
  | ForcedExit signalNum => process_exit (128 + signalNum)
  | LivenessCheck =>
      c <- gets connected ;;
      if negb c then
        emit (Logger_internal_info
                "Parent process not connected, terminating process..." None) ;;
        process_exit 1
      else ret tt
  end.

(** ** The event loop *)

(** An event handler that throws brings the process down. *)
Definition handle (m : M unit) (w : World) : World :=
  match m w with
  | Ok _ w' => w'
  | Throw e w' => set_status (Crashed e) w'
  | Halt w' => w'
  end.

Definition alive (w : World) : bool :=
  match status w with
  | Running => true
  | _ => false
  end.

(** A timer expires: its callback runs, and an interval is armed again. *)
Definition fire (t : Timer) (w : World) : World :=
  if alive w then
    let w' := handle (run_callback (callback t)) w in
    match period t with
    | Some ms =>
        if alive w' then
          set_timers (timers w' ++
            [{| due := now w' + ms; callback := callback t; period := Some ms |}]) w'
        else w'
    | None => w'
    end
  else w.

Definition expired (t : Z) (x : Timer) : bool := due x <=? t.

(** The timers that are due run in the order in which they were armed. *)
Definition run_timers (w : World) : World :=
  fold_left (fun w t => fire t w)
    (filter (expired (now w)) (timers w))
    (set_timers (filter (fun x => negb (expired (now w) x)) (timers w)) w).

Fixpoint remove_nth {A} (i : nat) (l : list A) : list A :=
  match l, i with
  | [], _ => []
  | _ :: rest, O => rest
  | x :: rest, S j => x :: remove_nth j rest
  end.

(** One turn of the event loop.  A process that has ended handles
    nothing. *)
Definition step (ev : Event) (w : World) : World :=
  if alive w then
    match ev with
    | Message message => handle (onMessage message) w
    | Signal s => handle (onSignal s) w
    | Millisecond => run_timers (set_now (now w + 1) w)
    | Settled i =>
        match nth_error (suspended w) i with
        | Some k =>
            handle (async (resume k)) (set_suspended (remove_nth i (suspended w)) w)
        | None => w
        end
    | Disconnected => set_connected false w
    end
  else w.

Definition run (evs : list Event) (w : World) : World :=
  fold_left (fun w ev => step ev w) evs w.

(** [ms] milliseconds go by with no other event. *)
Definition elapse (ms : Z) (w : World) : World :=
  Nat.iter (Z.to_nat ms) (step Millisecond) w.

(** The process before the script runs.  [send] tells whether it was
    forked with a channel to a parent, which is when Node defines
    [process.send]; [conn] tells whether that channel is still open. *)
Definition pristine (send conn : bool) : World :=
  {| childPluginFork := undefined_fork; shuttingDown := false;
     title := "node"; send_defined := send; connected := conn;
     status := Running; now := 0; timers := []; suspended := [];
     rejections := [];
     settings := {| timestampEnabled := true; debugEnabled := false;
                    forcedColor := false; storagePath := None |};
     next_handle := O; trace := [] |}.

(** The top level of the script: lines 4, 169, 194 and 218. *)
Definition main : M unit :=
  modify (set_title "homebridge: child bridge") ;;
  sendMessage READY JUndefined ;;
  modify (set_shuttingDown false) ;;
  setInterval LivenessCheck 5000.

Definition boot (send conn : bool) : World :=
  handle main (pristine send conn).

End Script.

(** ** Vocabulary of the statements *)

(** [v.name] where it cannot throw. *)
Definition property (v : JsValue) (name : string) : JsValue :=
  match v with
  | JObject props => lookup name props
  | _ => JUndefined
  end.

Definition is_null (v : JsValue) : bool :=
  match v with
  | JNull => true
  | _ => false
  end.

Definition is_teardown (e : Effect) : bool :=
  match e with
  | BridgeService_teardown _ => true
  | _ => false
  end.

Definition is_shutdown_call (e : Effect) : bool :=
  match e with
  | ChildBridgeFork_shutdown => true
  | _ => false
  end.

(** The calls that apply a bridge option to the process-wide settings. *)
Definition is_setting (e : Effect) : bool :=
  match e with
  | Logger_setTimestampEnabled _ | Logger_setDebugEnabled _
  | Logger_forceColor | User_setStoragePath _ => true
  | _ => false
  end.

(** The three calls that end [startBridge] (lines 155, 157 and 158). *)
Definition is_publication (e : Effect) : bool :=
  match e with
  | BridgeService_restoreCachedPlatformAccessories _
  | BridgeService_publishBridge _
  | HomebridgeAPI_signalFinished _ => true
  | _ => false
  end.

Definition count (p : Effect -> bool) (l : list Effect) : nat :=
  length (filter p l).

(** An envelope the dispatcher has nothing to do with: it is not of type
    object, or its id is missing or falsy, or its id is neither LOAD nor
    START. *)
Definition ignorable (env : Env) (message : JsValue) : bool :=
  negb (JsType_eqb (typeof message) TObject)
  || negb (truthy (property message "id"))
  || (negb (strict_equal (property message "id") (messageId env LOAD))
      && negb (strict_equal (property message "id") (messageId env START))).

(** Where the switch of the message handler sends an envelope that is
    not ignored. *)
Definition dispatch (env : Env) (message : JsValue) : M unit :=
  if strict_equal (property message "id") (messageId env LOAD)
  then loadPlugin env (property message "data")
  else startBridge env.

(** The case in which [startBridge] takes the return of line 137: the
    type is ACCESSORY (and was not taken for PLATFORM) and the
    configuration has no truthy name. *)
Definition returns_early (env : Env) (w : World) : bool :=
  negb (strict_equal (type (childPluginFork w)) (pluginType env PLATFORM))
  && strict_equal (type (childPluginFork w)) (pluginType env ACCESSORY)
  && negb (truthy (property (pluginConfig (childPluginFork w)) "name")).

(** The timer armed by [signalHandler]. *)
Definition forced_exit_timer (at_ : Z) (signalNum : Z) : Timer :=
  {| due := at_ + 5000; callback := ForcedExit signalNum; period := None |}.

Definition is_liveness (t : Timer) : bool :=
  match callback t with
  | LivenessCheck => true
  | ForcedExit _ => false
  end.

(** The world once [shutdown] was attempted: the call is recorded, and
    the teardown of the bridge service when there is one. *)
Definition after_shutdown (w : World) : World :=
  set_trace
    (trace w ++
     ChildBridgeFork_shutdown ::
     match bridgeService (childPluginFork w) with
     | Some bs => [BridgeService_teardown bs]
     | None => []
     end) w.

(** The world once [signalHandler] ran with no shutdown in progress. *)
Definition after_signal (signal : string) (signalNum : Z) (w : World) : World :=
  let w1 :=
    set_trace
      (trace w ++
       [Logger_internal_info "Got %s, shutting down child bridge process..."
          (Some signal)])
      (set_shuttingDown true w) in
  let w2 := after_shutdown w1 in
  set_timers (timers w2 ++ [forced_exit_timer (now w2) signalNum]) w2.

(** How many teardowns the signal handler can still cause. *)
Definition budget (w : World) : nat :=
  if shuttingDown w then O else 1%nat.

(** The settings that the bridge options [options] ask for. *)
Definition configured (options : JsValue) (s : Settings) : Settings :=
  {| timestampEnabled :=
       if truthy (property options "noLogTimestamps") then false
       else timestampEnabled s;
     debugEnabled :=
       if truthy (property options "debugModeEnabled") then true
       else debugEnabled s;
     forcedColor :=
       if truthy (property options "forceColourLogging") then true
       else forcedColor s;
     storagePath :=
       if truthy (property options "customStoragePath")
       then Some (property options "customStoragePath")
       else storagePath s |}.

(** The calls that apply them, in the order of the source. *)
Definition option_calls (options : JsValue) : list Effect :=
  (if truthy (property options "noLogTimestamps")
   then [Logger_setTimestampEnabled false] else []) ++
  (if truthy (property options "debugModeEnabled")
   then [Logger_setDebugEnabled true] else []) ++
  (if truthy (property options "forceColourLogging")
   then [Logger_forceColor] else []) ++
  (if truthy (property options "customStoragePath")
   then [User_setStoragePath (property options "customStoragePath")] else []).

(** ** Relations between the world before and after *)

(** [m] takes every world to one related to it by [R], however it ends. *)
Definition keeps (R : World -> World -> Prop) {A} (m : M A) : Prop :=
  forall w, R w (final (m w)).

(** [m] runs in two phases, the first related by [R1] and the second by
    [R2]. *)
Definition keeps_then (R1 R2 : World -> World -> Prop) {A} (m : M A) : Prop :=
  forall w, exists w1, R1 w w1 /\ R2 w1 (final (m w)).

(** Whatever [m] returns satisfies [P]. *)
Definition yields {A} (P : A -> Prop) (m : M A) : Prop :=
  forall w a w', m w = Ok a w' -> P a.

(** [w'] is [w] after further calls, all of which satisfy [P]. *)
Definition extends (P : Effect -> Prop) (w w' : World) : Prop :=
  exists l, trace w' = trace w ++ l /\ Forall P l.

(** Calls that neither are nor lead to a teardown. *)
Definition harmless (e : Effect) : bool :=
  negb (is_teardown e) && negb (is_shutdown_call e).

(** The shutdown flag is as before and only harmless calls were made. *)
Definition quiet (w w' : World) : Prop :=
  shuttingDown w' = shuttingDown w /\ extends (fun e => harmless e = true) w w'.

(** The first phase of [loadPlugin]: only settings are applied. *)
Definition configuring (w w' : World) : Prop :=
  extends (fun e => is_setting e = true) w w'.

(** A call that applies no setting and that, when it hands the persist
    directory to HAP-NodeJS, hands over the one of the settings [s]. *)
Definition constructs (s : Settings) (e : Effect) : Prop :=
  is_setting e = false /\
  forall p, e = HAPStorage_setCustomStoragePath p -> p = PersistUnder (storagePath s).

(** The second phase of [loadPlugin]: the settings stay as they are. *)
Definition constructing (w w' : World) : Prop :=
  settings w' = settings w /\ extends (constructs (settings w)) w w'.

(** The type and the configuration of the plugin are as before, and none
    of the three final calls of [startBridge] was made. *)
Definition steady (w w' : World) : Prop :=
  type (childPluginFork w') = type (childPluginFork w)
  /\ pluginConfig (childPluginFork w') = pluginConfig (childPluginFork w)
  /\ extends (fun e => is_publication e = false) w w'.

(** Nothing was suspended or resumed and the process did not end. *)
Definition undisturbed (w w' : World) : Prop :=
  suspended w' = suspended w /\ status w' = status w.

(** A timer that is the liveness check, or a forced exit for signal
    number [n] due at [d]. *)
Definition expected_timer (n d : Z) (t : Timer) : Prop :=
  callback t = LivenessCheck \/ (callback t = ForcedExit n /\ due t = d).

Definition exit_timer (n d : Z) (t : Timer) : Prop :=
  callback t = ForcedExit n /\ due t = d.

(** A running, connected process in its grace period: a forced exit for
    signal number [n] is pending for time [d], which has not come. *)
Definition in_grace_period (n d : Z) (w : World) : Prop :=
  status w = Running /\ connected w = true /\ now w < d
  /\ Forall (expected_timer n d) (timers w)
  /\ Exists (exit_timer n d) (timers w).

(** ** Sample environments and inputs *)

(** String-valued enum members; no collaborator throws; platforms are
    dynamic and accessories have services. *)
Definition sample_env : Env :=
  {| messageId := fun t =>
       JString match t with
               | READY => "ready" | LOAD => "load"
               | LOADED => "loaded" | START => "start"
               end;
     pluginType := fun t =>
       JString match t with
               | ACCESSORY => "accessory" | PLATFORM => "platform"
               end;
     raises := fun _ _ => false;
     answers := fun _ _ => true;
     pluginIdentifier := fun _ => "homebridge-demo" |}.

(** As [sample_env], but [BridgeService.teardown] throws. *)
Definition failing_teardown_env : Env :=
  {| messageId := messageId sample_env;
     pluginType := pluginType sample_env;
     raises := fun _ e => is_teardown e;
     answers := answers sample_env;
     pluginIdentifier := pluginIdentifier sample_env |}.

(** As [sample_env], but [createHAPAccessory] returns [undefined]: the
    accessory has no services. *)
Definition no_services_env : Env :=
  {| messageId := messageId sample_env;
     pluginType := pluginType sample_env;
     raises := raises sample_env;
     answers := fun _ e =>
       match e with
       | BridgeService_createHAPAccessory _ _ _ _ _ _ => false
       | _ => true
       end;
     pluginIdentifier := pluginIdentifier sample_env |}.

Definition load_message (kind : string) (config : list (string * JsValue)) : JsValue :=
  JObject
    [("id", JString "load");
     ("data", JObject
        [("type", JString kind);
         ("identifier", JString "Demo");
         ("pluginPath", JString "/var/lib/homebridge/node_modules/homebridge-demo");
         ("pluginConfig", JObject config);
         ("bridgeConfig", JObject [("username", JString "0E:3A:5C:11:22:33")]);
         ("bridgeOptions", JObject [("debugModeEnabled", JBool true);
                                    ("customStoragePath", JString "/var/lib/homebridge")]);
         ("homebridgeConfig", JObject [])])].

Definition start_message : JsValue :=
  JObject [("id", JString "start")].

(** An accessory configuration with a name, and one without. *)
Definition named_config : list (string * JsValue) :=
  [("accessory", JString "Demo"); ("name", JString "Lamp");
   ("_bridge", JObject [("port", JNumber (51826 # 1))])].

Definition nameless_config : list (string * JsValue) :=
  [("accessory", JString "Demo");
   ("_bridge", JObject [("port", JNumber (51826 # 1))])].

(** A configuration whose name is the empty string. *)
Definition empty_name_config : list (string * JsValue) :=
  [("accessory", JString "Demo"); ("name", JString "")].

(** The process once a named accessory was loaded, started and
    published. *)
Definition published_world : World :=
  run sample_env
    [Message (load_message "accessory" named_config); Message start_message;
     Settled 0%nat]
    (boot sample_env true true).

(** The process once an accessory whose configuration has no name was
    loaded and started. *)
Definition nameless_world : World :=
  run sample_env
    [Message (load_message "accessory" nameless_config); Message start_message;
     Settled 0%nat]
    (boot sample_env true true).

(** The same for a configuration whose name is empty. *)
Definition empty_name_world : World :=
  run sample_env
    [Message (load_message "accessory" empty_name_config); Message start_message;
     Settled 0%nat]
    (boot sample_env true true).

(** The process once a named accessory without services was loaded and
    started. *)
Definition no_services_world : World :=
  run no_services_env
    [Message (load_message "accessory" named_config); Message start_message;
     Settled 0%nat]
    (boot no_services_env true true).

(** The process of [published_world] two seconds later, when the channel
    to its parent has just closed: the bridge is published, the process
    runs, no shutdown is in progress. *)
Definition abandoned_world : World :=
  run sample_env (repeat Millisecond (Z.to_nat 2000) ++ [Disconnected])
    published_world.

(** A process whose parent went away before the script started:
    [process.send] exists, [process.connected] is false. *)
Definition orphan_world : World :=
  pristine true false.

(** The payload of a LOAD message. *)
Definition load_payload (kind : string) (config : list (string * JsValue)) : JsValue :=
  property (load_message kind config) "data".

(** A payload without bridge options. *)
Definition bare_payload : JsValue :=
  JObject [("type", JString "platform"); ("identifier", JString "Demo");
           ("pluginConfig", JObject [("platform", JString "Demo")])].

(** A platform configuration without a name. *)
Definition platform_config : list (string * JsValue) :=
  [("platform", JString "Demo"); ("_bridge", JObject [])].

(** The process once a plugin was loaded. *)
Definition loaded_world (kind : string) (config : list (string * JsValue)) : World :=
  run sample_env [Message (load_message kind config)] (boot sample_env true true).

(** The process once a plugin was loaded and [startBridge] has come to
    line 115. *)
Definition started_world (kind : string) (config : list (string * JsValue)) : World :=
  final (startBridge_begin sample_env (loaded_world kind config)).

(** The events of an orphaned process: the parent goes away and five
    seconds go by. *)
Definition orphan_events : list Event :=
  Disconnected :: repeat Millisecond (Z.to_nat 5000).

(** ** Vocabulary of the further statements *)

(** The liveness check as the interval arms it at time [at_]. *)
Definition liveness_timer (at_ : Z) : Timer :=
  {| due := at_ + 5000; callback := LivenessCheck; period := Some 5000 |}.

(** A timer as the script arms them: due within the next 5000 ms, and
    either the repeating liveness check or a single forced exit for
    SIGINT or SIGTERM. *)
Definition timer_ok (t0 : Z) (t : Timer) : Prop :=
  t0 < due t <= t0 + 5000
  /\ match callback t with
     | LivenessCheck => period t = Some 5000
     | ForcedExit n => period t = None /\ (n = 2 \/ n = 15)
     end.

(** The timers of a running process: exactly one liveness check is
    pending, and a forced exit is pending exactly when a shutdown is in
    progress. *)
Definition timers_in_order (w : World) : Prop :=
  Forall (timer_ok (now w)) (timers w)
  /\ length (filter is_liveness (timers w)) = 1%nat
  /\ (if shuttingDown w
      then Exists (fun t => is_liveness t = false) (timers w)
      else Forall (fun t => is_liveness t = true) (timers w)).

(** The exit codes of the script. *)
Definition exit_code_known (s : Status) : Prop :=
  match s with
  | Exited c => c = 1 \/ c = 130 \/ c = 143
  | _ => True
  end.

Definition sound (w : World) : Prop :=
  (status w = Running -> timers_in_order w) /\ exit_code_known (status w).

(** Neither the clock, the timers, the two flags nor the status of the
    process changed. *)
Definition timeless (w w' : World) : Prop :=
  timers w' = timers w /\ now w' = now w
  /\ shuttingDown w' = shuttingDown w /\ connected w' = connected w
  /\ status w' = status w.

(** The envelope [{id: t, data: undefined}]. *)
Definition envelope (env : Env) (t : ChildProcessMessageEventType) : JsValue :=
  JObject [("id", messageId env t); ("data", JUndefined)].

(** What the script does, once it has started, when it sends to the
    parent or switches a logging setting: it sends LOADED without a
    payload, it turns timestamps off and debug mode on. *)
Definition scripted (env : Env) (e : Effect) : Prop :=
  match e with
  | Process_send v => v = envelope env LOADED
  | Logger_setTimestampEnabled b => b = false
  | Logger_setDebugEnabled b => b = true
  | _ => True
  end.

(** [undefined] or [null]: the values whose properties cannot be read. *)
Definition nullish (v : JsValue) : bool :=
  match v with
  | JUndefined | JNull => true
  | _ => false
  end.

Definition is_send (e : Effect) : bool :=
  match e with
  | Process_send _ => true
  | _ => false
  end.

(** The six fields that [loadPlugin] copies from its payload are as
    before. *)
Definition same_payload (w w' : World) : Prop :=
  type (childPluginFork w') = type (childPluginFork w)
  /\ identifier (childPluginFork w') = identifier (childPluginFork w)
  /\ pluginConfig (childPluginFork w') = pluginConfig (childPluginFork w)
  /\ bridgeConfig (childPluginFork w') = bridgeConfig (childPluginFork w)
  /\ bridgeOptions (childPluginFork w') = bridgeOptions (childPluginFork w)
  /\ homebridgeConfig (childPluginFork w') = homebridgeConfig (childPluginFork w).

(** Nothing was sent, and the process title is as before. *)
Definition unannounced (w w' : World) : Prop :=
  send_defined w' = send_defined w /\ title w' = title w
  /\ extends (fun e => is_send e = false) w w'.

(** How a load ends: when it returns, LOADED was the last thing it did
    and the only thing it sent, and the process is named after the
    plugin; otherwise nothing was sent and the title is as before. *)
Definition acknowledged (env : Env) (w : World) (o : Outcome unit) : Prop :=
  match o with
  | Ok _ w' =>
      (exists l,
         trace w' =
         trace w ++ l ++
         (if send_defined w then [Process_send (envelope env LOADED)] else [])
         /\ Forall (fun e => is_send e = false) l)
      /\ exists p, plugin (childPluginFork w') = Some p
                   /\ title w' = String.append "homebridge: " (pluginIdentifier env p)
  | Throw _ w' => unannounced w w'
  | Halt w' => unannounced w w'
  end.

(** [Q] holds of every world and what [m] makes of it. *)
Definition post {A} (Q : World -> Outcome A -> Prop) (m : M A) : Prop :=
  forall w, Q w (m w).

(** The calls of lines 86-98 of [loadPlugin] in order, for the settings
    [s] in force, the payload [data] and the first unused handle [h]. *)
Definition construction_calls (s : Settings) (data : JsValue) (h : Handle) :
    list Effect :=
  let api := h in
  let pluginManager := S h in
  let plugin := S (S h) in
  [HAPStorage_setCustomStoragePath (PersistUnder (storagePath s));
   New_HomebridgeAPI;
   New_PluginManager api;
   PluginManager_loadPlugin pluginManager (property data "pluginPath");
   Plugin_load plugin;
   PluginManager_initializePlugin pluginManager plugin (property data "identifier");
   Plugin_getPluginIdentifier plugin].

(** The calls of the PLATFORM branch up to the construction of the
    platform (lines 116-120) in order, for a plugin manager [pm], the
    controller's fields [f] and the first unused handle [h]. *)
Definition platform_setup (env : Env) (pm : Handle) (f : ChildBridgeFork)
    (h : Handle) : list Effect :=
  let plugin := h in
  let logger := S h in
  let ctor := S (S h) in
  let name := property (pluginConfig f) "name" in
  [PluginManager_getPluginForPlatform pm (identifier f)]
  ++ (if truthy name then [] else [Plugin_getPluginIdentifier plugin])
  ++ [Logger_withPrefix
        (if truthy name then name else JString (pluginIdentifier env plugin));
      Plugin_getPlatformConstructor plugin (identifier f);
      New_Platform ctor logger (pluginConfig f) (api f)].

(** What [HomebridgeAPI.isDynamicPlatformPlugin] answers for the platform
    constructed in the world [w] (line 122). *)
Definition platform_is_dynamic (env : Env) (pm : Handle) (w : World) : bool :=
  answers env
    (trace w ++ platform_setup env pm (childPluginFork w) (next_handle w))
    (HomebridgeAPI_isDynamicPlatformPlugin (S (S (S (next_handle w))))).

(** What [HomebridgeAPI.isStaticPlatformPlugin] answers for it when it
    is asked next (line 124). *)
Definition platform_is_static (env : Env) (pm : Handle) (w : World) : bool :=
  answers env
    (trace w ++ platform_setup env pm (childPluginFork w) (next_handle w)
     ++ [HomebridgeAPI_isDynamicPlatformPlugin (S (S (S (next_handle w))))])
    (HomebridgeAPI_isStaticPlatformPlugin (S (S (S (next_handle w))))).

(** The calls of the PLATFORM branch (lines 116-125) in order, given the
    answers [dynamic] and [static] of the two tests of the platform. *)
Definition platform_calls (env : Env) (pm : Handle) (f : ChildBridgeFork)
    (h : Handle) (dynamic static : bool) : list Effect :=
  let plugin := h in
  let logger := S h in
  let platform := S (S (S h)) in
  platform_setup env pm f h
  ++ [HomebridgeAPI_isDynamicPlatformPlugin platform]
  ++ (if dynamic
      then [Plugin_assignDynamicPlatform plugin (identifier f) platform]
      else HomebridgeAPI_isStaticPlatformPlugin platform
           :: (if static
               then match bridgeService f with
                    | Some bs =>
                        [BridgeService_loadPlatformAccessories
                           bs plugin platform (identifier f) logger]
                    | None => []
                    end
               else [])).

(** The calls of the ACCESSORY branch for an accessory with a name up
    to the construction of the accessory (lines 132-142). *)
Definition accessory_setup (pm : Handle) (f : ChildBridgeFork) (h : Handle) :
    list Effect :=
  let plugin := h in
  let logger := S h in
  let ctor := S (S h) in
  [PluginManager_getPluginForAccessory pm (identifier f);
   Logger_withPrefix (property (pluginConfig f) "name");
   Plugin_getAccessoryConstructor plugin (identifier f);
   New_Accessory ctor logger (pluginConfig f) (api f)].

(** The call of line 145. *)
Definition createHAPAccessory_call (bs : Handle) (f : ChildBridgeFork)
    (h : Handle) : Effect :=
  BridgeService_createHAPAccessory bs h (S (S (S h)))
    (property (pluginConfig f) "name") (identifier f)
    (property (pluginConfig f) "uuid_base").

(** Whether [createHAPAccessory] returns an accessory for the accessory
    constructed in the world [w] (lines 145-147). *)
Definition accessory_has_services (env : Env) (pm bs : Handle) (w : World) : bool :=
  answers env
    (trace w ++ accessory_setup pm (childPluginFork w) (next_handle w))
    (createHAPAccessory_call bs (childPluginFork w) (next_handle w)).

(** The calls of the ACCESSORY branch for an accessory with a name
    (lines 132-151), for a bridge service [bs] and the answer
    [has_services] of createHAPAccessory. *)
Definition accessory_calls (pm bs : Handle) (f : ChildBridgeFork)
    (h : Handle) (has_services : bool) : list Effect :=
  let logger := S h in
  let accessory := S (S (S (S h))) in
  accessory_setup pm f h
  ++ [createHAPAccessory_call bs f h]
  ++ (if has_services
      then [Bridge_addBridgedAccessory bs accessory]
      else [Logger_log logger
              "Accessory %s returned empty set of services. Won't adding it to the bridge!"
              (identifier f)]).

(** The state that only the signal handler, the timers and the channel
    touch: the shutdown flag, the connection state, the clock and the
    pending timers. *)
Definition elsewhere (flag conn : bool) (time : Z) (pending : list Timer)
    (w : World) : World :=
  set_shuttingDown flag (set_connected conn (set_now time (set_timers pending w))).

(** The outcome [o] with its world changed by [f]. *)
Definition lift {A} (f : World -> World) (o : Outcome A) : Outcome A :=
  match o with
  | Ok a w => Ok a (f w)
  | Throw e w => Throw e (f w)
  | Halt w => Halt (f w)
  end.

(** [m] neither reads nor writes what [f] changes. *)
Definition commutes {A} (f : World -> World) (m : M A) : Prop :=
  forall w, m (f w) = lift f (m w).

(** * Properties *)

(** ** Counting *)

Lemma count_app p (l1 l2 : list Effect) :
  count p (l1 ++ l2) = (count p l1 + count p l2)%nat.
Proof.
  unfold count. rewrite filter_app, length_app. reflexivity.
Qed.

Lemma count_none p (l : list Effect) :
  Forall (fun e => p e = false) l -> count p l = O.
Proof.
  unfold count. induction 1 as [|e l He _ IH]; simpl.
  - reflexivity.
  - rewrite He. exact IH.
Qed.

(** ** The signal handler *)

Section SignalHandler.

Variable env : Env.

Lemma shutdown_final w :
  final (shutdown env w) = after_shutdown w.
Proof.
  unfold shutdown, after_shutdown, bind, emit, modify, this, gets, deref, call.
  cbn [childPluginFork set_trace trace].
  destruct (bridgeService (childPluginFork w)) as [bs|]; cbn.
  - destruct (raises env _ _); cbn; rewrite <- app_assoc; reflexivity.
  - reflexivity.
Qed.

(** [shutdown] itself lets the exception of [teardown] through. *)
Lemma shutdown_propagates w bs :
  bridgeService (childPluginFork w) = Some bs ->
  raises env (trace w ++ [ChildBridgeFork_shutdown]) (BridgeService_teardown bs) = true ->
  shutdown env w = Throw (Raised (BridgeService_teardown bs)) (after_shutdown w).
Proof.
  intros Hbs Hr.
  unfold shutdown, after_shutdown, bind, emit, modify, this, gets, deref, call.
  cbn [childPluginFork set_trace trace]. rewrite Hbs. cbn.
  rewrite Hr. rewrite <- app_assoc. reflexivity.
Qed.

Lemma shutdown_guarded w :
  try_catch (shutdown env) (fun _ => ret tt) w = Ok tt (after_shutdown w).
Proof.
  unfold try_catch. pose proof (shutdown_final w) as H.
  unfold shutdown, bind, emit, modify, this, gets, deref, call in *.
  cbn [childPluginFork set_trace trace] in *.
  destruct (bridgeService (childPluginFork w)) as [bs|]; cbn in *.
  - destruct (raises env _ _); cbn in *; rewrite <- H; reflexivity.
  - rewrite <- H. reflexivity.
Qed.

Lemma signalHandler_first signal n w :
  shuttingDown w = false ->
  signalHandler env signal n w = Ok tt (after_signal signal n w).
Proof.
  intros H. unfold signalHandler, bind at 1. unfold gets. rewrite H.
  unfold bind at 1. unfold modify at 1.
  unfold bind at 1. unfold emit at 1, modify at 1.
  unfold bind at 1. rewrite shutdown_guarded.
  reflexivity.
Qed.

Lemma signalHandler_again signal n w :
  shuttingDown w = true ->
  signalHandler env signal n w = Ok tt w.
Proof.
  intros H. unfold signalHandler, bind, gets. rewrite H. reflexivity.
Qed.

Lemma after_signal_status signal n w :
  status (after_signal signal n w) = status w.
Proof. reflexivity. Qed.

Lemma after_signal_shuttingDown signal n w :
  shuttingDown (after_signal signal n w) = true.
Proof. reflexivity. Qed.

Lemma after_signal_trace signal n w :
  trace (after_signal signal n w) =
  trace w ++
  [Logger_internal_info "Got %s, shutting down child bridge process..." (Some signal);
   ChildBridgeFork_shutdown] ++
  match bridgeService (childPluginFork w) with
  | Some bs => [BridgeService_teardown bs]
  | None => []
  end.
Proof.
  unfold after_signal, after_shutdown. cbn. rewrite <- app_assoc. reflexivity.
Qed.

Lemma step_signal_first s w :
  status w = Running -> shuttingDown w = false ->
  step env (Signal s) w = after_signal (signalName s) (signalNumber s) w.
Proof.
  intros Hs Hf. unfold step, alive. rewrite Hs.
  unfold handle, onSignal. rewrite signalHandler_first by assumption.
  reflexivity.
Qed.

Lemma step_signal_again s w :
  shuttingDown w = true -> step env (Signal s) w = w.
Proof.
  intros Hf. unfold step. destruct (alive w); [|reflexivity].
  unfold handle, onSignal. rewrite signalHandler_again by assumption.
  reflexivity.
Qed.

Lemma run_signals_again l w :
  shuttingDown w = true -> run env (map Signal l) w = w.
Proof.
  intros Hf. induction l as [|s l IH]; simpl.
  - reflexivity.
  - unfold run in *. simpl. rewrite step_signal_again by assumption. exact IH.
Qed.

(** A teardown that throws: [shutdown] throws, the handler does not. *)
Lemma failing_teardown_is_swallowed :
  shutdown failing_teardown_env published_world =
  Throw (Raised (BridgeService_teardown 3%nat)) (after_shutdown published_world)
  /\ status (step failing_teardown_env (Signal SIGTERM) published_world) = Running
  /\ timers (step failing_teardown_env (Signal SIGTERM) published_world) =
     timers published_world ++ [forced_exit_timer (now published_world) 15].
Proof.
  split; [|split]; vm_compute; reflexivity.
Qed.

(** C4: whatever the teardown of the runtime handle does, also when it
    throws or when there is no bridge service yet, the exception stops
    at the try/catch around the call of [shutdown] (lines 203-207): the
    guarded call ends normally in the world [shutdown] left, the signal
    handler returns normally, and the process is not brought down. *)
Theorem signalHandler_swallows_teardown_errors signal n s w :
  try_catch (shutdown env) (fun _ => ret tt) w = Ok tt (final (shutdown env w))
  /\ (exists w', signalHandler env signal n w = Ok tt w' /\ status w' = status w)
  /\ status (step env (Signal s) w) = status w.
Proof.
  assert (H : forall sg k, exists w',
             signalHandler env sg k w = Ok tt w' /\ status w' = status w).
  { intros sg k. destruct (shuttingDown w) eqn:Hf.
    - exists w. split; [apply signalHandler_again; assumption | reflexivity].
    - exists (after_signal sg k w). split.
      + apply signalHandler_first; assumption.
      + reflexivity. }
  split; [rewrite shutdown_final; apply shutdown_guarded|].
  split; [apply H|].
  unfold step. destruct (alive w); [|reflexivity].
  unfold handle, onSignal.
  destruct (H (signalName s) (signalNumber s)) as (w' & -> & Hst). exact Hst.
Qed.

(** C5: of a sequence of termination signals only the first one calls
    [shutdown]; once the flag is set the others leave the process as it
    is. *)
Theorem only_first_signal_calls_shutdown s rest w :
  status w = Running ->
  shuttingDown w = false ->
  run env (map Signal (s :: rest)) w = step env (Signal s) w
  /\ shuttingDown (step env (Signal s) w) = true
  /\ count is_shutdown_call (trace (run env (map Signal (s :: rest)) w)) =
     S (count is_shutdown_call (trace w)).
Proof.
  intros Hs Hf.
  assert (Hrun : run env (map Signal (s :: rest)) w = step env (Signal s) w).
  { change (run env (map Signal (s :: rest)) w)
      with (run env (map Signal rest) (step env (Signal s) w)).
    apply run_signals_again.
    rewrite step_signal_first by assumption. reflexivity. }
  split; [exact Hrun|]. split.
  - rewrite step_signal_first by assumption. reflexivity.
  - rewrite Hrun, step_signal_first by assumption.
    rewrite after_signal_trace, !count_app.
    destruct (bridgeService (childPluginFork w)); cbn; lia.
Qed.

End SignalHandler.

(** ** Messages *)

Section Messages.

Variable env : Env.

(** C9, as amended: the guard of [sendMessage] is the existence of
    [process.send].  Without it nothing happens; with it the envelope
    made of the given id and data is handed to [process.send], whether
    or not the channel is connected. *)
Theorem sendMessage_guarded_by_process_send t data w :
  sendMessage env t data w =
  Ok tt (if send_defined w
         then set_trace
                (trace w ++
                 [Process_send (JObject [("id", messageId env t); ("data", data)])]) w
         else w).
Proof.
  unfold sendMessage, bind, gets, when, emit, modify, ret.
  destruct (send_defined w); reflexivity.
Qed.

Lemma onMessage_not_object message w :
  JsType_eqb (typeof message) TObject = false ->
  onMessage env message w = Ok tt w.
Proof.
  intros H. unfold onMessage. rewrite H. reflexivity.
Qed.

Lemma get_prop_property v name w :
  is_null v = false -> JsType_eqb (typeof v) TObject = true ->
  get_prop v name w = Ok (property v name) w.
Proof.
  destruct v; cbn; intros; try discriminate; reflexivity.
Qed.

(** C3, as amended: an envelope other than null that is not an object,
    or whose id is missing or falsy, or whose id is neither LOAD nor
    START, is ignored: the handler returns and the process is as before.
    Every other envelope goes to [loadPlugin] or to [startBridge],
    whatever the controller did before: nothing of the state is
    consulted. *)
Theorem onMessage_ignores_or_dispatches message w :
  is_null message = false ->
  onMessage env message w =
  if ignorable env message then Ok tt w else dispatch env message w.
Proof.
  intros Hnull. unfold ignorable, onMessage, dispatch.
  destruct (JsType_eqb (typeof message) TObject) eqn:Hty; cbn [negb orb].
  2: reflexivity.
  unfold bind at 1. rewrite get_prop_property by assumption.
  destruct (truthy (property message "id")); cbn [negb orb]. 2: reflexivity.
  destruct (strict_equal (property message "id") (messageId env LOAD)) eqn:Hl;
    cbn [negb andb].
  - unfold bind. rewrite get_prop_property by assumption. reflexivity.
  - destruct (strict_equal (property message "id") (messageId env START));
      reflexivity.
Qed.

(** X16: the envelope null is not covered: its type is "object" and
    reading its id throws, which brings the process down. *)
Lemma onMessage_null_throws w :
  onMessage env JNull w = Throw (TypeError "id") w
  /\ (status w = Running ->
      status (step env (Message JNull) w) = Crashed (TypeError "id")).
Proof.
  split; [reflexivity|]. intros Hs. unfold step, alive. rewrite Hs. reflexivity.
Qed.

End Messages.

(** ** The liveness check *)

Section Liveness.

Variable env : Env.

(** C7: when the interval's callback finds the channel disconnected,
    the process exits at once with code 1, which is neither 0 nor the
    code of a signal exit.  It logs one line and does nothing else:
    [shutdown] is not called, the flag of the signal handler and the
    timers stay as they are. *)
Theorem liveness_check_exits_orphan t w :
  status w = Running ->
  connected w = false ->
  callback t = LivenessCheck ->
  status (fire t w) = Exited 1
  /\ trace (fire t w) =
     trace w ++
     [Logger_internal_info "Parent process not connected, terminating process..." None;
      Process_exit 1]
  /\ shuttingDown (fire t w) = shuttingDown w
  /\ timers (fire t w) = timers w
  /\ childPluginFork (fire t w) = childPluginFork w
  /\ 1 <> 0
  /\ forall s, 1 <> 128 + signalNumber s.
Proof.
  intros Hs Hc Hcb.
  assert (E : fire t w =
              set_status (Exited 1)
                (set_trace
                   (trace w ++
                    [Logger_internal_info
                       "Parent process not connected, terminating process..." None;
                     Process_exit 1]) w)).
  { unfold fire, alive. rewrite Hs, Hcb.
    unfold handle, run_callback, bind, gets. rewrite Hc. cbn.
    rewrite <- app_assoc. cbn.
    destruct (period t); reflexivity. }
  rewrite E. cbn.
  repeat split; try reflexivity; try lia.
  intros s. destruct s; cbn; lia.
Qed.

(** While the channel is connected the check does nothing. *)
Lemma liveness_check_passes w :
  connected w = true -> run_callback LivenessCheck w = Ok tt w.
Proof.
  intros Hc. unfold run_callback, bind, gets. rewrite Hc. reflexivity.
Qed.

(** The check is armed by the script for every five seconds. *)
Lemma boot_timers send conn :
  timers (boot env send conn) =
  [{| due := 5000; callback := LivenessCheck; period := Some 5000 |}].
Proof.
  destruct send; reflexivity.
Qed.

(** Once the parent is gone, the first check, 5000 ms after the start
    of the script, ends the process. *)
Lemma orphan_exits_at_first_check send :
  status (elapse env 4999 (step env Disconnected (boot env send true))) = Running
  /\ status (elapse env 5000 (step env Disconnected (boot env send true))) = Exited 1.
Proof.
  destruct send; split; vm_compute; reflexivity.
Qed.

End Liveness.

(** ** Relations kept by the script *)

Section Keeps.

Variable R : World -> World -> Prop.
Hypothesis R_refl : forall w, R w w.
Hypothesis R_trans : forall a b c, R a b -> R b c -> R a c.

Lemma keeps_ret A (a : A) : keeps R (ret a).
Proof. intros w. apply R_refl. Qed.

Lemma keeps_throw A e : keeps R (@throw A e).
Proof. intros w. apply R_refl. Qed.

Lemma keeps_gets A (f : World -> A) : keeps R (gets f).
Proof. intros w. apply R_refl. Qed.

Lemma keeps_this A (field : ChildBridgeFork -> A) : keeps R (this field).
Proof. apply keeps_gets. Qed.

Lemma keeps_modify f : (forall w, R w (f w)) -> keeps R (modify f).
Proof. intros H w. apply H. Qed.

Lemma keeps_bind A B (m : M A) (k : A -> M B) :
  keeps R m -> (forall a, keeps R (k a)) -> keeps R (bind m k).
Proof.
  intros Hm Hk w. unfold bind. specialize (Hm w).
  destruct (m w) as [a w'|e w'|w']; cbn in *; try exact Hm.
  eapply R_trans; [exact Hm | apply Hk].
Qed.

Lemma keeps_when b m : keeps R m -> keeps R (when b m).
Proof. intros H. destruct b; [exact H | apply keeps_ret]. Qed.

Lemma keeps_get_prop v name : keeps R (get_prop v name).
Proof. destruct v; first [apply keeps_ret | apply keeps_throw]. Qed.

Lemma keeps_get_prop_opt v name : keeps R (get_prop_opt v name).
Proof. destruct v; first [apply keeps_ret | apply keeps_throw]. Qed.

Lemma keeps_delete_prop v name : keeps R (delete_prop v name).
Proof. destruct v; first [apply keeps_ret | apply keeps_throw]. Qed.

Lemma keeps_deref o what : keeps R (deref o what).
Proof. destruct o; first [apply keeps_ret | apply keeps_throw]. Qed.

Lemma keeps_emit e :
  (forall w, R w (set_trace (trace w ++ [e]) w)) -> keeps R (emit e).
Proof. intros H. apply keeps_modify. exact H. Qed.

Lemma keeps_call env e :
  (forall w, R w (set_trace (trace w ++ [e]) w)) -> keeps R (call env e).
Proof.
  intros H w. unfold call. destruct (raises env (trace w) e); apply H.
Qed.

Lemma keeps_fresh :
  (forall h w, R w (set_next_handle h w)) -> keeps R fresh.
Proof. intros H w. apply H. Qed.

Lemma keeps_process_exit code :
  (forall w, R w (set_status (Exited code)
                    (set_trace (trace w ++ [Process_exit code]) w))) ->
  keeps R (process_exit code).
Proof. intros H w. apply H. Qed.

Lemma keeps_try_catch A (m : M A) h :
  keeps R m -> (forall e, keeps R (h e)) -> keeps R (try_catch m h).
Proof.
  intros Hm Hh w. unfold try_catch. specialize (Hm w).
  destruct (m w) as [a w'|e w'|w']; cbn in *; try exact Hm.
  eapply R_trans; [exact Hm | apply Hh].
Qed.

Lemma keeps_async segment :
  (forall l w, R w (set_suspended l w)) ->
  (forall l w, R w (set_rejections l w)) ->
  keeps R segment -> keeps R (async segment).
Proof.
  intros Hs Hr Hm w. unfold async. specialize (Hm w).
  destruct (segment w) as [[|k] w'|e w'|w']; cbn in *; try exact Hm.
  - eapply R_trans; [exact Hm | apply Hs].
  - eapply R_trans; [exact Hm | apply Hr].
Qed.

(** What a handler keeps the event loop keeps, provided a crash is
    allowed. *)
Lemma keeps_handle m :
  (forall e w, R w (set_status (Crashed e) w)) ->
  keeps R m -> forall w, R w (handle m w).
Proof.
  intros Hc Hm w. unfold handle. specialize (Hm w).
  destruct (m w) as [a w'|e w'|w']; cbn in *; try exact Hm.
  eapply R_trans; [exact Hm | apply Hc].
Qed.

End Keeps.

(** Walks through a computation of the script; [side] settles what the
    relation has to allow. *)
Ltac keeps_walk refl trans side :=
  repeat first
    [ apply (keeps_bind trans); [| intro]
    | apply (keeps_ret _ refl)
    | apply (keeps_throw _ refl)
    | apply (keeps_this _ refl)
    | apply (keeps_gets _ refl)
    | apply (keeps_get_prop _ refl)
    | apply (keeps_get_prop_opt _ refl)
    | apply (keeps_delete_prop _ refl)
    | apply (keeps_deref _ refl)
    | apply (keeps_when refl)
    | apply (keeps_try_catch trans); [| intro]
    | apply keeps_modify; solve [side]
    | apply keeps_emit; solve [side]
    | apply keeps_call; solve [side]
    | apply keeps_fresh; solve [side]
    | apply keeps_process_exit; solve [side]
    | match goal with
      | |- keeps _ (if ?b then _ else _) => destruct b
      | |- keeps _ (match ?o with Some _ => _ | None => _ end) => destruct o
      | |- keeps _ (match ?b with
                    | FallThrough => _ | Returned => _
                    | AwaitPlatformAccessories => _ end) => destruct b
      end ].

Ltac unfold_script :=
  unfold loadPlugin, applyBridgeOptions, startBridge_begin, startBridge_branch,
    startBridge_platform, startBridge_accessory, startBridge_finish,
    shutdown, sendMessage, assign, call_new, call_ask, call_opt,
    getPluginIdentifier, withPrefix, persistPath,
    setTimestampEnabled, setDebugEnabled, forceColor, setStoragePath,
    setTimeout, setInterval.

(** ** At most one teardown *)

Lemma extends_refl (P : Effect -> Prop) w : extends P w w.
Proof. exists []. rewrite app_nil_r. split; [reflexivity | constructor]. Qed.

Lemma extends_trans (P : Effect -> Prop) a b c :
  extends P a b -> extends P b c -> extends P a c.
Proof.
  intros (l1 & E1 & F1) (l2 & E2 & F2). exists (l1 ++ l2). split.
  - rewrite E2, E1, app_assoc. reflexivity.
  - apply Forall_app. split; assumption.
Qed.

Lemma extends_same (P : Effect -> Prop) w w' :
  trace w' = trace w -> extends P w w'.
Proof.
  intros E. exists []. rewrite app_nil_r. split; [exact E | constructor].
Qed.

Lemma extends_one (P : Effect -> Prop) e w w' :
  P e -> trace w' = trace w ++ [e] -> extends P w w'.
Proof.
  intros He E. exists [e]. split; [exact E | repeat constructor; exact He].
Qed.

Lemma quiet_refl w : quiet w w.
Proof. split; [reflexivity | apply extends_refl]. Qed.

Lemma quiet_trans a b c : quiet a b -> quiet b c -> quiet a c.
Proof.
  intros [F1 E1] [F2 E2]. split.
  - congruence.
  - eapply extends_trans; eassumption.
Qed.

Lemma quiet_same w w' :
  shuttingDown w' = shuttingDown w -> trace w' = trace w -> quiet w w'.
Proof. intros F E. split; [exact F | apply extends_same; exact E]. Qed.

Lemma quiet_one e w w' :
  harmless e = true -> shuttingDown w' = shuttingDown w ->
  trace w' = trace w ++ [e] -> quiet w w'.
Proof. intros He F E. split; [exact F | eapply extends_one; eassumption]. Qed.

Ltac quiet_side :=
  intros;
  first [ apply quiet_same; reflexivity
        | eapply quiet_one; [| reflexivity | reflexivity]; reflexivity ].

Ltac quiet_walk := keeps_walk quiet_refl quiet_trans quiet_side.

Section Quiet.

Variable env : Env.

Lemma loadPlugin_quiet data : keeps quiet (loadPlugin env data).
Proof. unfold_script. quiet_walk. Qed.

Lemma startBridge_begin_quiet : keeps quiet (startBridge_begin env).
Proof. unfold_script. quiet_walk. Qed.

Lemma startBridge_finish_quiet : keeps quiet (startBridge_finish env).
Proof. unfold_script. quiet_walk. Qed.

Lemma startBridge_branch_quiet : keeps quiet (startBridge_branch env).
Proof. unfold_script. quiet_walk. Qed.

Lemma resume_quiet k : keeps quiet (resume env k).
Proof.
  destruct k; cbn [resume].
  - apply (keeps_bind quiet_trans); [apply startBridge_branch_quiet|].
    intros [| |]; [apply startBridge_finish_quiet| |];
      apply (keeps_ret _ quiet_refl).
  - apply startBridge_finish_quiet.
Qed.

Lemma async_quiet segment : keeps quiet segment -> keeps quiet (async segment).
Proof.
  apply (keeps_async quiet_trans); intros; apply quiet_same; reflexivity.
Qed.

Lemma onMessage_quiet message : keeps quiet (onMessage env message).
Proof.
  unfold onMessage.
  destruct (negb (JsType_eqb (typeof message) TObject));
    [apply (keeps_ret _ quiet_refl)|].
  apply (keeps_bind quiet_trans); [apply (keeps_get_prop _ quiet_refl)|].
  intros id. destruct (negb (truthy id)); [apply (keeps_ret _ quiet_refl)|].
  destruct (strict_equal id (messageId env LOAD)).
  - apply (keeps_bind quiet_trans); [apply (keeps_get_prop _ quiet_refl)|].
    intros data. apply loadPlugin_quiet.
  - destruct (strict_equal id (messageId env START));
      [|apply (keeps_ret _ quiet_refl)].
    apply async_quiet, startBridge_begin_quiet.
Qed.

Lemma run_callback_quiet cb : keeps quiet (run_callback cb).
Proof. destruct cb; unfold run_callback; unfold_script; quiet_walk. Qed.

Lemma handle_quiet m w : keeps quiet m -> quiet w (handle m w).
Proof.
  intros H. apply (keeps_handle quiet_trans); [|exact H].
  intros; apply quiet_same; reflexivity.
Qed.

Lemma fire_quiet t w : quiet w (fire t w).
Proof.
  unfold fire. destruct (alive w); [|apply quiet_refl].
  pose proof (handle_quiet w (run_callback_quiet (callback t))) as H.
  destruct (period t); [|exact H].
  destruct (alive _); [|exact H].
  eapply quiet_trans; [exact H|]. apply quiet_same; reflexivity.
Qed.

Lemma fire_all_quiet l w : quiet w (fold_left (fun w t => fire t w) l w).
Proof.
  revert w. induction l as [|t l IH]; intros w; cbn.
  - apply quiet_refl.
  - eapply quiet_trans; [apply fire_quiet | apply IH].
Qed.

Lemma run_timers_quiet w : quiet w (run_timers w).
Proof.
  unfold run_timers. eapply quiet_trans; [|apply fire_all_quiet].
  apply quiet_same; reflexivity.
Qed.

(** Every event other than a signal is quiet. *)
Lemma step_quiet ev w :
  (forall s, ev <> Signal s) -> quiet w (step env ev w).
Proof.
  intros Hev. unfold step. destruct (alive w); [|apply quiet_refl].
  destruct ev as [message|s| |i|].
  - apply handle_quiet, onMessage_quiet.
  - exfalso. apply (Hev s). reflexivity.
  - eapply quiet_trans; [|apply run_timers_quiet]. apply quiet_same; reflexivity.
  - destruct (nth_error (suspended w) i) as [k|]; [|apply quiet_refl].
    eapply quiet_trans; [|apply handle_quiet, async_quiet, resume_quiet].
    apply quiet_same; reflexivity.
  - apply quiet_same; reflexivity.
Qed.

Lemma quiet_teardowns w w' :
  quiet w w' -> count is_teardown (trace w') = count is_teardown (trace w).
Proof.
  intros [_ (l & E & F)]. rewrite E, count_app, (@count_none is_teardown l).
  - lia.
  - eapply Forall_impl; [|exact F]. intros e He. unfold harmless in He.
    destruct (is_teardown e); [discriminate | reflexivity].
Qed.

Lemma step_teardowns ev w :
  (count is_teardown (trace (step env ev w)) + budget (step env ev w)
   <= count is_teardown (trace w) + budget w)%nat.
Proof.
  destruct ev as [message|s| |i|].
  2:{ destruct (shuttingDown w) eqn:Hf.
      - rewrite step_signal_again by assumption. lia.
      - unfold step. destruct (alive w) eqn:Ha; [|lia].
        unfold handle, onSignal. rewrite signalHandler_first by assumption.
        rewrite after_signal_trace, !count_app. unfold budget. rewrite Hf.
        cbn [shuttingDown after_signal after_shutdown set_timers set_trace
             set_shuttingDown].
        destruct (bridgeService (childPluginFork w)); cbn; lia. }
  all: match goal with
       | |- context [step env ?ev ?x] =>
           assert (Q : quiet x (step env ev x))
             by (apply step_quiet; intros s' Hs'; discriminate Hs')
       end;
       rewrite (quiet_teardowns Q); unfold budget;
       destruct Q as [-> _]; lia.
Qed.

Lemma at_most_one_teardown_from evs w :
  (count is_teardown (trace (run env evs w))
   <= count is_teardown (trace w) + budget w)%nat.
Proof.
  revert w. induction evs as [|ev evs IH]; intros w.
  - cbn. lia.
  - change (run env (ev :: evs) w) with (run env evs (step env ev w)).
    specialize (IH (step env ev w)). pose proof (step_teardowns ev w). lia.
Qed.

(** The same count for the entries into [shutdown]. *)
Lemma quiet_shutdown_calls w w' :
  quiet w w' ->
  count is_shutdown_call (trace w') = count is_shutdown_call (trace w).
Proof.
  intros [_ (l & E & F)]. rewrite E, count_app, (@count_none is_shutdown_call l).
  - lia.
  - eapply Forall_impl; [|exact F]. intros e He. unfold harmless in He.
    destruct (is_shutdown_call e); [|reflexivity].
    destruct (is_teardown e); discriminate.
Qed.

Lemma step_shutdown_calls ev w :
  (count is_shutdown_call (trace (step env ev w)) + budget (step env ev w)
   <= count is_shutdown_call (trace w) + budget w)%nat.
Proof.
  destruct ev as [message|s| |i|].
  2:{ destruct (shuttingDown w) eqn:Hf.
      - rewrite step_signal_again by assumption. lia.
      - unfold step. destruct (alive w) eqn:Ha; [|lia].
        unfold handle, onSignal. rewrite signalHandler_first by assumption.
        rewrite after_signal_trace, !count_app. unfold budget. rewrite Hf.
        cbn [shuttingDown after_signal after_shutdown set_timers set_trace
             set_shuttingDown].
        destruct (bridgeService (childPluginFork w)); cbn; lia. }
  all: match goal with
       | |- context [step env ?ev ?x] =>
           assert (Q : quiet x (step env ev x))
             by (apply step_quiet; intros s' Hs'; discriminate Hs')
       end;
       rewrite (quiet_shutdown_calls Q); unfold budget;
       destruct Q as [-> _]; lia.
Qed.

(** However signals are interleaved with other events, [shutdown] is
    entered at most once. *)
Lemma shutdown_called_at_most_once evs w :
  (count is_shutdown_call (trace (run env evs w))
   <= count is_shutdown_call (trace w) + budget w)%nat.
Proof.
  revert w. induction evs as [|ev evs IH]; intros w.
  - cbn. lia.
  - change (run env (ev :: evs) w) with (run env evs (step env ev w)).
    specialize (IH (step env ev w)). pose proof (step_shutdown_calls ev w). lia.
Qed.

(** From the start of the script there is at most one teardown. *)
Lemma at_most_one_teardown_from_boot send conn evs :
  (count is_teardown (trace (run env evs (boot env send conn))) <= 1)%nat.
Proof.
  pose proof (at_most_one_teardown_from evs (boot env send conn)) as H.
  replace (count is_teardown (trace (boot env send conn))) with O in H
    by (destruct send; reflexivity).
  replace (budget (boot env send conn)) with 1%nat in H
    by (destruct send; reflexivity).
  exact H.
Qed.

(** C2: over every sequence of events the process receives from the
    start of the script (messages, signals, timer ticks, settled
    promises, disconnection), [shutdown] is entered at most once and
    the teardown of the runtime handle is called at most once.  From
    any state the events cause at most one more teardown, and none once
    a shutdown is in progress; a signal that arrives then changes
    nothing. *)
Theorem teardown_at_most_once send conn evs :
  (count is_teardown (trace (run env evs (boot env send conn))) <= 1)%nat
  /\ (count is_shutdown_call (trace (run env evs (boot env send conn))) <= 1)%nat
  /\ (forall w,
        (count is_teardown (trace (run env evs w))
         <= count is_teardown (trace w) + (if shuttingDown w then 0 else 1))%nat)
  /\ (forall s w, shuttingDown w = true -> step env (Signal s) w = w).
Proof.
  split; [apply at_most_one_teardown_from_boot|]. split; [|split].
  - pose proof (shutdown_called_at_most_once evs (boot env send conn)) as H.
    replace (count is_shutdown_call (trace (boot env send conn))) with O in H
      by (destruct send; reflexivity).
    replace (budget (boot env send conn)) with 1%nat in H
      by (destruct send; reflexivity).
    exact H.
  - intros w. change (if shuttingDown w then O else 1%nat) with (budget w).
    apply at_most_one_teardown_from.
  - intros s w Hf. exact (@step_signal_again env s w Hf).
Qed.

End Quiet.

(** ** Computations that return *)

Lemma bind_ok A B (m : M A) (k : A -> M B) w b w' :
  bind m k w = Ok b w' -> exists a w1, m w = Ok a w1 /\ k a w1 = Ok b w'.
Proof.
  unfold bind. destruct (m w) as [a w1|e w1|w1]; intros H; try discriminate.
  exists a, w1. split; [reflexivity | exact H].
Qed.

(** ** Loading: options first *)

Section KeepsThen.

Variables R1 R2 : World -> World -> Prop.
Hypothesis R1_refl : forall w, R1 w w.
Hypothesis R1_trans : forall a b c, R1 a b -> R1 b c -> R1 a c.
Hypothesis R2_refl : forall w, R2 w w.

Lemma then_bind A B (m : M A) (k : A -> M B) :
  keeps R1 m -> (forall a, keeps_then R1 R2 (k a)) ->
  keeps_then R1 R2 (bind m k).
Proof.
  intros Hm Hk w. unfold bind. specialize (Hm w).
  destruct (m w) as [a w'|e w'|w']; cbn in *.
  - destruct (Hk a w') as (w1 & H1 & H2). exists w1. split; [|exact H2].
    eapply R1_trans; eassumption.
  - exists w'. split; [exact Hm | apply R2_refl].
  - exists w'. split; [exact Hm | apply R2_refl].
Qed.

Lemma then_switch A (m : M A) : keeps R2 m -> keeps_then R1 R2 m.
Proof. intros H w. exists w. split; [apply R1_refl | apply H]. Qed.

End KeepsThen.

Lemma configuring_refl w : configuring w w.
Proof. apply extends_refl. Qed.

Lemma configuring_trans a b c :
  configuring a b -> configuring b c -> configuring a c.
Proof. apply extends_trans. Qed.

Lemma constructing_refl w : constructing w w.
Proof. split; [reflexivity | apply extends_refl]. Qed.

Lemma constructing_trans a b c :
  constructing a b -> constructing b c -> constructing a c.
Proof.
  intros [S1 E1] [S2 E2]. split; [congruence|].
  rewrite S1 in E2. eapply extends_trans; eassumption.
Qed.

Lemma constructing_same w w' :
  settings w' = settings w -> trace w' = trace w -> constructing w w'.
Proof. intros S E. split; [exact S | apply extends_same; exact E]. Qed.

Lemma constructing_one e w w' :
  constructs (settings w) e -> settings w' = settings w ->
  trace w' = trace w ++ [e] -> constructing w w'.
Proof. intros He S E. split; [exact S | eapply extends_one; eassumption]. Qed.

Ltac configuring_side :=
  intros;
  first [ apply extends_same; reflexivity
        | eapply extends_one; [| reflexivity]; reflexivity ].

Ltac constructing_side :=
  intros;
  first [ apply constructing_same; reflexivity
        | eapply constructing_one; [| reflexivity | reflexivity];
          split; [reflexivity | intros ? ?; discriminate] ].

Section Loading.

Variable env : Env.

Lemma call_then A e (k : unit -> M A) w :
  bind (call env e) k w =
  if raises env (trace w) e
  then Throw (Raised e) (set_trace (trace w ++ [e]) w)
  else k tt (set_trace (trace w ++ [e]) w).
Proof.
  unfold bind, call. destruct (raises env (trace w) e); reflexivity.
Qed.

Lemma loadPlugin_phases data w :
  exists w1,
    configuring w w1 /\ constructing w1 (final (loadPlugin env data w)).
Proof.
  revert w.
  change (keeps_then configuring constructing (loadPlugin env data)).
  unfold loadPlugin, applyBridgeOptions, assign,
    setTimestampEnabled, setDebugEnabled, forceColor, setStoragePath.
  repeat (lazymatch goal with
          | |- keeps_then _ _ (bind persistPath _) => fail
          | _ => idtac
          end;
          apply (then_bind configuring_trans constructing_refl);
          [ solve [keeps_walk configuring_refl configuring_trans configuring_side]
          | intro ]).
  intros w. exists w. split; [apply configuring_refl|].
  unfold bind at 1. unfold persistPath, gets.
  rewrite call_then.
  assert (H1 : constructing w
                 (set_trace
                    (trace w ++
                     [HAPStorage_setCustomStoragePath
                        (PersistUnder (storagePath (settings w)))]) w)).
  { eapply constructing_one; [| reflexivity | reflexivity].
    split; [reflexivity|]. intros p Hp. injection Hp as <-. reflexivity. }
  destruct (raises env _ _); cbn [final]; [exact H1|].
  eapply constructing_trans; [exact H1|].
  match goal with
  | |- constructing ?x (final (?m ?x)) =>
      assert (K : keeps constructing m); [| exact (K x)]
  end.
  unfold call_new, sendMessage, getPluginIdentifier.
  keeps_walk constructing_refl constructing_trans constructing_side.
Qed.

(** What the first phase does when the options are an object. *)
Lemma applyBridgeOptions_spec w :
  is_null (bridgeOptions (childPluginFork w)) = false ->
  bridgeOptions (childPluginFork w) <> JUndefined ->
  applyBridgeOptions w =
  Ok tt
    (set_settings (configured (bridgeOptions (childPluginFork w)))
       (set_trace (trace w ++ option_calls (bridgeOptions (childPluginFork w))) w)).
Proof.
  intros Hn Hu. destruct w as [f sd ti se co st no tm su rj sets nh tr].
  cbn in *. unfold applyBridgeOptions, this, gets, bind at 1.
  cbn [childPluginFork].
  assert (G : forall name u,
             get_prop (bridgeOptions f) name u =
             Ok (property (bridgeOptions f) name) u).
  { intros name u. destruct (bridgeOptions f); cbn in *;
      try discriminate; try reflexivity. congruence. }
  unfold configured, option_calls.
  unfold bind. rewrite !G. cbn [childPluginFork].
  destruct sets as [te de fc sp].
  destruct (truthy (property (bridgeOptions f) "noLogTimestamps")) eqn:E1;
  destruct (truthy (property (bridgeOptions f) "debugModeEnabled")) eqn:E2;
  destruct (truthy (property (bridgeOptions f) "forceColourLogging")) eqn:E3;
  destruct (truthy (property (bridgeOptions f) "customStoragePath")) eqn:E4;
  repeat (progress (cbn; rewrite ?G, ?E1, ?E2, ?E3, ?E4));
  rewrite <- ?app_assoc, ?app_nil_r; reflexivity.
Qed.

Lemma applyBridgeOptions_ok w a w' :
  applyBridgeOptions w = Ok a w' ->
  w' =
  set_settings (configured (bridgeOptions (childPluginFork w)))
    (set_trace (trace w ++ option_calls (bridgeOptions (childPluginFork w))) w).
Proof.
  destruct a. intros H.
  destruct (bridgeOptions (childPluginFork w)) eqn:E;
    try (rewrite applyBridgeOptions_spec in H by (rewrite E; first [reflexivity | discriminate]);
         rewrite E in H; injection H as <-; reflexivity);
    unfold applyBridgeOptions, bind, this, gets in H; rewrite E in H;
    discriminate H.
Qed.

Lemma get_prop_ok v name w a u :
  get_prop v name w = Ok a u -> a = property v name /\ u = w.
Proof.
  destruct v; cbn; intros H; try discriminate H;
    injection H as <- <-; split; reflexivity.
Qed.

Lemma delete_prop_ok v name w a u :
  delete_prop v name w = Ok a u -> u = w.
Proof.
  destruct v; cbn; intros H; try discriminate H;
    injection H as _ <-; reflexivity.
Qed.

Lemma gets_ok A (f : World -> A) w a u :
  gets f w = Ok a u -> a = f w /\ u = w.
Proof. unfold gets. intros H. injection H as <- <-. split; reflexivity. Qed.

Lemma modify_ok f w a u :
  modify f w = Ok a u -> u = f w.
Proof. unfold modify. intros H. injection H as _ H. symmetry. exact H. Qed.

(** X13: a load that succeeds has applied exactly the options the
    payload asks for, in the order of the source, before it gave
    HAP-NodeJS the persist directory and constructed anything. *)
Lemma loadPlugin_ok_applies_options data w w' :
  loadPlugin env data w = Ok tt w' ->
  settings w' = configured (property data "bridgeOptions") (settings w)
  /\ exists constructed,
       trace w' =
       trace w ++ option_calls (property data "bridgeOptions") ++
       HAPStorage_setCustomStoragePath (PersistUnder (storagePath (settings w')))
       :: constructed
       /\ Forall (fun e => is_setting e = false) constructed.
Proof.
  intros H. unfold loadPlugin, assign in H.
  do 6 (apply bind_ok in H as (? & ? & E1 & H);
        apply get_prop_ok in E1 as [-> ->];
        apply bind_ok in H as (? & ? & E2 & H);
        apply modify_ok in E2 as ->).
  apply bind_ok in H as (? & ? & E1 & H). apply gets_ok in E1 as [-> ->].
  apply bind_ok in H as (c & ? & E1 & H). apply delete_prop_ok in E1 as ->.
  apply bind_ok in H as (? & ? & E2 & H). apply modify_ok in E2 as ->.
  apply bind_ok in H as (? & w6 & E3 & H).
  apply applyBridgeOptions_ok in E3.
  cbn [childPluginFork set_fork bridgeOptions set_pluginConfig set_homebridgeConfig
       set_bridgeOptions trace settings] in E3.
  unfold bind at 1 in H. unfold persistPath, gets in H.
  rewrite call_then in H.
  destruct (raises env (trace w6) _); [discriminate H|].
  match type of H with
  | ?m ?x = Ok tt w' =>
      assert (K : keeps constructing m);
        [| pose proof (K x) as Kx; rewrite H in Kx; cbn [final] in Kx ]
  end.
  { unfold call_new, sendMessage, getPluginIdentifier.
    keeps_walk constructing_refl constructing_trans constructing_side. }
  destruct Kx as [S (l & T & F)].
  cbn [settings set_trace trace] in S, T.
  rewrite E3 in S, T. cbn [settings set_settings set_trace set_fork trace] in S, T.
  split; [exact S|].
  exists l. split.
  - rewrite T, S. cbn. rewrite <- !app_assoc. reflexivity.
  - eapply Forall_impl; [|exact F]. intros e [He _]. exact He.
Qed.

(** The calls [loadPlugin] makes fall into two runs, however the load
    ends: calls that apply a setting, then calls that apply none. *)
Lemma loadPlugin_settings_then_construction data w :
  exists applied constructed,
    trace (final (loadPlugin env data w)) = trace w ++ applied ++ constructed
    /\ Forall (fun e => is_setting e = true) applied
    /\ Forall (constructs (settings (final (loadPlugin env data w)))) constructed.
Proof.
  destruct (loadPlugin_phases data w) as (w1 & (l1 & E1 & F1) & S & (l2 & E2 & F2)).
  exists l1, l2. split; [|split].
  - rewrite E2, E1, app_assoc. reflexivity.
  - exact F1.
  - rewrite S. exact F2.
Qed.

End Loading.

(** ** The grace period *)

Section GracePeriod.

Variable env : Env.

Lemma fire_liveness t w :
  status w = Running -> connected w = true -> callback t = LivenessCheck ->
  fire t w =
  match period t with
  | Some ms =>
      set_timers
        (timers w ++
         [{| due := now w + ms; callback := LivenessCheck; period := Some ms |}]) w
  | None => w
  end.
Proof.
  intros Hs Hc Hcb. unfold fire, alive. rewrite Hs, Hcb. unfold handle.
  rewrite liveness_check_passes by assumption. rewrite Hs.
  destruct (period t); reflexivity.
Qed.

Lemma fire_exit t n w :
  status w = Running -> callback t = ForcedExit n ->
  fire t w =
  set_status (Exited (128 + n)) (set_trace (trace w ++ [Process_exit (128 + n)]) w).
Proof.
  intros Hs Hcb. unfold fire, alive. rewrite Hs, Hcb. cbn.
  destruct (period t); reflexivity.
Qed.

Lemma fire_all_dead l w :
  alive w = false -> fold_left (fun w t => fire t w) l w = w.
Proof.
  intros H. induction l as [|t l IH]; cbn; [reflexivity|].
  unfold fire at 2. rewrite H. exact IH.
Qed.

Lemma fire_all_liveness l w :
  Forall (fun t => callback t = LivenessCheck) l ->
  status w = Running -> connected w = true ->
  let w' := fold_left (fun w t => fire t w) l w in
  status w' = Running /\ connected w' = true /\ now w' = now w
  /\ exists l', timers w' = timers w ++ l'
                /\ Forall (fun t => callback t = LivenessCheck) l'.
Proof.
  intros Hl. revert w. induction Hl as [|t l Ht _ IH]; intros w Hs Hc; cbn.
  - repeat split; try assumption. exists []. rewrite app_nil_r.
    split; [reflexivity | constructor].
  - rewrite fire_liveness by assumption. destruct (period t) as [ms|].
    + destruct (IH (set_timers (timers w ++
         [{| due := now w + ms; callback := LivenessCheck; period := Some ms |}]) w))
        as (S' & C' & N' & l' & T' & F'); try assumption.
      repeat split; try assumption.
      exists ({| due := now w + ms; callback := LivenessCheck; period := Some ms |} :: l').
      split.
      * rewrite T'. cbn. rewrite <- app_assoc. reflexivity.
      * constructor; [reflexivity | exact F'].
    + apply IH; assumption.
Qed.

Lemma fire_all_exit n d l w :
  Forall (expected_timer n d) l -> Exists (exit_timer n d) l ->
  status w = Running -> connected w = true ->
  status (fold_left (fun w t => fire t w) l w) = Exited (128 + n).
Proof.
  intros Hl. revert w. induction Hl as [|t l Ht _ IH]; intros w He Hs Hc.
  - inversion He.
  - cbn. destruct Ht as [Hlive | [Hexit _]].
    + rewrite fire_liveness by assumption.
      assert (He' : Exists (exit_timer n d) l).
      { inversion He as [? ? [Hcb _]|]; subst; [congruence | assumption]. }
      destruct (period t); apply IH; assumption.
    + rewrite (fire_exit t w Hs Hexit).
      rewrite fire_all_dead by reflexivity. reflexivity.
Qed.

Lemma step_millisecond w :
  status w = Running ->
  step env Millisecond w = run_timers (set_now (now w + 1) w).
Proof. intros Hs. unfold step, alive. rewrite Hs. reflexivity. Qed.

Lemma grace_continues n d w :
  in_grace_period n d w -> now w + 1 < d ->
  in_grace_period n d (step env Millisecond w)
  /\ now (step env Millisecond w) = now w + 1.
Proof.
  intros (Hs & Hc & Hn & Hall & Hex) Hlt.
  rewrite step_millisecond by assumption. unfold run_timers.
  cbn [now timers set_now].
  set (ready := filter (expired (now w + 1)) (timers w)).
  set (later := filter (fun x => negb (expired (now w + 1) x)) (timers w)).
  assert (Hready : Forall (fun t => callback t = LivenessCheck) ready).
  { apply Forall_forall. intros t Ht. apply filter_In in Ht as [Hin Hexp].
    rewrite Forall_forall in Hall. destruct (Hall t Hin) as [H|[_ Hd]]; [exact H|].
    unfold expired in Hexp. apply Z.leb_le in Hexp. lia. }
  destruct (fire_all_liveness (set_timers later (set_now (now w + 1) w)) Hready)
    as (S' & C' & N' & l' & T' & F'); try assumption.
  cbn [now timers set_timers set_now] in N', T'.
  repeat split; try assumption.
  - rewrite N'. exact Hlt.
  - rewrite T'. apply Forall_app. split.
    + apply Forall_forall. intros t Ht. apply filter_In in Ht as [Hin _].
      rewrite Forall_forall in Hall. apply Hall. exact Hin.
    + eapply Forall_impl; [|exact F']. intros t Ht. left. exact Ht.
  - rewrite T'. apply Exists_app. left.
    apply Exists_exists in Hex as (t & Hin & Hcb & Hd).
    apply Exists_exists. exists t. split; [|split; assumption].
    apply filter_In. split; [exact Hin|].
    unfold expired. apply Bool.negb_true_iff, Z.leb_gt. lia.
Qed.

Lemma grace_ends n d w :
  in_grace_period n d w -> now w + 1 = d ->
  status (step env Millisecond w) = Exited (128 + n).
Proof.
  intros (Hs & Hc & Hn & Hall & Hex) Heq.
  rewrite step_millisecond by assumption. unfold run_timers.
  cbn [now timers set_now].
  apply fire_all_exit with (d := d).
  - apply Forall_forall. intros t Ht. apply filter_In in Ht as [Hin _].
    rewrite Forall_forall in Hall. apply Hall. exact Hin.
  - apply Exists_exists in Hex as (t & Hin & Hcb & Hd).
    apply Exists_exists. exists t. split; [|split; assumption].
    apply filter_In. split; [exact Hin|].
    unfold expired. apply Z.leb_le. lia.
  - exact Hs.
  - exact Hc.
Qed.

Lemma grace_iter n d w k :
  in_grace_period n d w -> now w + Z.of_nat k < d ->
  in_grace_period n d (Nat.iter k (step env Millisecond) w)
  /\ now (Nat.iter k (step env Millisecond) w) = now w + Z.of_nat k.
Proof.
  intros Hg. induction k as [|k IH]; intros Hlt.
  - cbn. split; [exact Hg | lia].
  - destruct IH as [Hg' Hn']; [lia|].
    change (Nat.iter (S k) (step env Millisecond) w)
      with (step env Millisecond (Nat.iter k (step env Millisecond) w)).
    destruct (@grace_continues n d (Nat.iter k (step env Millisecond) w) Hg')
      as [Hg'' Hn'']; [lia|].
    split; [exact Hg''|]. rewrite Hn'', Hn'. lia.
Qed.

Lemma elapse_succ ms w :
  0 <= ms ->
  elapse env (Z.succ ms) w = step env Millisecond (elapse env ms w).
Proof.
  intros H. unfold elapse. rewrite Z2Nat.inj_succ by assumption. reflexivity.
Qed.

(** A process in its grace period runs until the pending exit is due and
    exits then. *)
Lemma grace_timeline n w :
  in_grace_period n (now w + 5000) w ->
  (forall t, 0 <= t < 5000 -> status (elapse env t w) = Running)
  /\ status (elapse env 5000 w) = Exited (128 + n).
Proof.
  intros Hg. split.
  - intros t Ht. unfold elapse.
    destruct (@grace_iter n (now w + 5000) w (Z.to_nat t) Hg) as [(Hs & _) _];
      [lia | exact Hs].
  - change (elapse env 5000 w) with (elapse env (Z.succ 4999) w).
    rewrite elapse_succ by lia. unfold elapse.
    assert (Hk : Z.of_nat (Z.to_nat 4999) = 4999) by lia.
    revert Hk. generalize (Z.to_nat 4999). intros k Hk.
    destruct (@grace_iter n (now w + 5000) w k Hg) as [Hg' Hn']; [lia|].
    apply (grace_ends Hg'). lia.
Qed.

Lemma after_signal_in_grace_period signal n w :
  status w = Running -> connected w = true ->
  Forall (fun t => is_liveness t = true) (timers w) ->
  in_grace_period n (now (after_signal signal n w) + 5000) (after_signal signal n w).
Proof.
  intros Hs Hc Hl. unfold in_grace_period.
  cbn [status connected now timers after_signal after_shutdown set_timers
       set_trace set_shuttingDown].
  split; [exact Hs|]. split; [exact Hc|]. split; [lia|]. split.
  - apply Forall_app. split.
    + eapply Forall_impl; [|exact Hl]. intros t Ht. left.
      unfold is_liveness in Ht. destruct (callback t); [discriminate | reflexivity].
    + constructor; [|constructor]. right. split; reflexivity.
  - apply Exists_app. right. constructor. split; reflexivity.
Qed.

(** C6, as amended: a signal with number [n] that finds no shutdown in
    progress arms one timer, due 5000 ms later, whose callback exits
    with 128 + n, and leaves the process running.  When the parent is
    connected and nothing else happens, so that the liveness check does
    not end the process first, the process runs for the 5000 ms and is
    exited with that code when they are over; for SIGTERM the code is
    143. *)
Theorem forced_exit_after_grace_period signal n w :
  status w = Running ->
  shuttingDown w = false ->
  let w1 := handle (signalHandler env signal n) w in
  timers w1 = timers w ++ [forced_exit_timer (now w) n]
  /\ status w1 = Running
  /\ (forall u, status u = Running ->
       status (fire (forced_exit_timer (now w) n) u) = Exited (128 + n))
  /\ (connected w = true ->
      Forall (fun t => is_liveness t = true) (timers w) ->
      (forall t, 0 <= t < 5000 -> status (elapse env t w1) = Running)
      /\ status (elapse env 5000 w1) = Exited (128 + n)
      /\ status (elapse env 5000 (step env (Signal SIGTERM) w)) = Exited 143).
Proof.
  intros Hs Hf w1.
  assert (E1 : w1 = after_signal signal n w).
  { unfold w1, handle. rewrite signalHandler_first by assumption. reflexivity. }
  rewrite E1.
  split; [reflexivity|]. split; [exact Hs|]. split.
  - intros u Hu. rewrite (@fire_exit (forced_exit_timer (now w) n) n u Hu eq_refl).
    reflexivity.
  - intros Hc Hl.
    pose proof (grace_timeline (@after_signal_in_grace_period signal n w Hs Hc Hl))
      as [Hrun Hexit].
    split; [exact Hrun|]. split; [exact Hexit|].
    rewrite step_signal_first by assumption.
    pose proof (grace_timeline
                  (@after_signal_in_grace_period (signalName SIGTERM)
                     (signalNumber SIGTERM) w Hs Hc Hl)) as [_ H].
    exact H.
Qed.

(** C10: when a second signal follows the first, and whatever signals
    follow after, the only forced exit armed is the one of the first
    signal.  While the parent stays connected its code is the one the
    process exits with: SIGINT followed by SIGTERM gives 130, not
    143. *)
Theorem forced_exit_code_from_first_signal s1 s2 rest w :
  status w = Running ->
  shuttingDown w = false ->
  let w2 := run env (Signal s1 :: Signal s2 :: map Signal rest) w in
  timers w2 = timers w ++ [forced_exit_timer (now w) (signalNumber s1)]
  /\ (connected w = true ->
      Forall (fun t => is_liveness t = true) (timers w) ->
      status (elapse env 5000 w2) = Exited (128 + signalNumber s1)
      /\ (s1 = SIGINT -> s2 = SIGTERM ->
          status (elapse env 5000 w2) = Exited 130
          /\ 130 <> 128 + signalNumber s2)).
Proof.
  intros Hs Hf w2.
  assert (E : w2 = after_signal (signalName s1) (signalNumber s1) w).
  { unfold w2.
    change (run env (Signal s1 :: Signal s2 :: map Signal rest) w)
      with (run env (map Signal (s2 :: rest)) (step env (Signal s1) w)).
    rewrite step_signal_first by assumption.
    apply run_signals_again. reflexivity. }
  rewrite E. split; [reflexivity|]. intros Hc Hl.
  pose proof (grace_timeline
                (@after_signal_in_grace_period (signalName s1) (signalNumber s1)
                   w Hs Hc Hl)) as [_ Hexit].
  split; [exact Hexit|].
  intros -> ->. split; [exact Hexit | cbn; lia].
Qed.

End GracePeriod.

(** ** Starting the bridge *)

Lemma yields_bind A B (P : B -> Prop) (m : M A) (k : A -> M B) :
  (forall a, yields P (k a)) -> yields P (bind m k).
Proof.
  intros Hk w b w' H. apply bind_ok in H as (a & w1 & _ & H).
  eapply Hk. exact H.
Qed.

Lemma yields_ret A (P : A -> Prop) a : P a -> yields P (ret a).
Proof. intros H w b w' E. injection E as <- _. exact H. Qed.

Lemma steady_refl w : steady w w.
Proof. split; [reflexivity|]. split; [reflexivity | apply extends_refl]. Qed.

Lemma steady_trans a b c : steady a b -> steady b c -> steady a c.
Proof.
  intros (T1 & C1 & E1) (T2 & C2 & E2). split; [congruence|].
  split; [congruence | eapply extends_trans; eassumption].
Qed.

Ltac steady_side :=
  intros; split; [reflexivity|]; split; [reflexivity|];
  first [ apply extends_same; reflexivity
        | eapply extends_one; [| reflexivity]; reflexivity ].

Ltac destruct_raises env :=
  match goal with
  | |- context [raises env ?t ?e] => destruct (raises env t e)
  end.

Section Starting.

Variable env : Env.

Lemma startBridge_begin_steady : keeps steady (startBridge_begin env).
Proof. unfold_script. keeps_walk steady_refl steady_trans steady_side. Qed.

Lemma startBridge_branch_steady : keeps steady (startBridge_branch env).
Proof. unfold_script. keeps_walk steady_refl steady_trans steady_side. Qed.

Lemma startBridge_platform_falls_through :
  yields (fun b => b <> Returned) (startBridge_platform env).
Proof.
  unfold startBridge_platform.
  repeat first
    [ apply yields_bind; intro
    | apply yields_ret; discriminate
    | match goal with |- yields _ (if ?b then _ else _) => destruct b end ].
Qed.

Lemma call_new_then A e (k : Handle -> M A) w :
  bind (call_new env e) k w =
  if raises env (trace w) e
  then Throw (Raised e) (set_trace (trace w ++ [e]) w)
  else k (next_handle w)
         (set_next_handle (S (next_handle w)) (set_trace (trace w ++ [e]) w)).
Proof.
  unfold call_new, bind, call, fresh.
  destruct (raises env (trace w) e); reflexivity.
Qed.

(** The accessory branch returns early exactly when the name is missing. *)
Lemma startBridge_accessory_returns w b w' :
  startBridge_accessory env w = Ok b w' ->
  (b = Returned <->
   truthy (property (pluginConfig (childPluginFork w)) "name") = false).
Proof.
  unfold startBridge_accessory.
  unfold bind at 1, this at 1, gets.
  destruct (pluginManager (childPluginFork w)) as [pm|]; [|discriminate].
  unfold bind at 1, deref at 1, ret at 1.
  unfold bind at 1, this at 1, gets.
  rewrite call_new_then.
  destruct (raises env _ _); [discriminate|].
  unfold bind at 1, this at 1, gets. cbn [childPluginFork set_next_handle set_trace].
  assert (G : forall u, get_prop (pluginConfig (childPluginFork w)) "name" u =
                        Ok (property (pluginConfig (childPluginFork w)) "name") u
                        \/ exists e, get_prop (pluginConfig (childPluginFork w)) "name" u
                                      = Throw e u).
  { intros u. destruct (pluginConfig (childPluginFork w)); cbn;
      first [left; reflexivity | right; eexists; reflexivity]. }
  unfold bind at 1.
  match goal with |- context [get_prop _ "name" ?u] => destruct (G u) as [-> | [e ->]] end;
    [|discriminate].
  destruct (truthy (property (pluginConfig (childPluginFork w)) "name")); cbn [negb].
  - intros H. split; [|discriminate]. intros ->. exfalso. revert H.
    assert (Y : forall (m : M Branch), yields (fun b => b <> Returned) m ->
                forall u u', m u = Ok Returned u' -> False).
    { intros m Hm u u' E. apply (Hm u Returned u' E). reflexivity. }
    apply Y.
    unfold withPrefix, call_new, call_opt, call_ask.
    repeat first
      [ apply yields_bind; intro
      | apply yields_ret; discriminate
      | match goal with
        | |- yields _ (if ?b then _ else _) => destruct b
        | |- yields _ (match ?o with Some _ => _ | None => _ end) => destruct o
        end ].
  - intros H. split; [reflexivity|]. intros _.
    unfold bind, this, gets, emit, modify, ret in H. congruence.
Qed.

Lemma startBridge_branch_returns w b w' :
  startBridge_branch env w = Ok b w' ->
  (b = Returned <-> returns_early env w = true).
Proof.
  unfold startBridge_branch, returns_early, bind at 1, this at 1, gets.
  destruct (strict_equal (type (childPluginFork w)) (pluginType env PLATFORM));
    cbn [negb andb].
  - intros H. split; [|discriminate]. intros ->.
    exfalso. apply (@startBridge_platform_falls_through w Returned w' H). reflexivity.
  - destruct (strict_equal (type (childPluginFork w)) (pluginType env ACCESSORY));
      cbn [andb].
    + intros H. rewrite (@startBridge_accessory_returns _ _ _ H).
      destruct (truthy _); cbn; split; congruence.
    + intros H. injection H as <- _. split; discriminate.
Qed.

Lemma startBridge_finish_trace w c w' :
  startBridge_finish env w = Ok c w' ->
  exists bs a,
    bridgeService (childPluginFork w) = Some bs
    /\ api (childPluginFork w) = Some a
    /\ trace w' =
       trace w ++
       [BridgeService_restoreCachedPlatformAccessories bs;
        BridgeService_publishBridge bs;
        HomebridgeAPI_signalFinished a].
Proof.
  unfold startBridge_finish, bind, this, gets, deref, call, ret.
  cbn [childPluginFork set_trace trace].
  destruct (bridgeService (childPluginFork w)) as [bs|] eqn:Hbs; [|discriminate].
  destruct_raises env; [discriminate|].
  cbn [childPluginFork set_trace trace]. rewrite Hbs.
  destruct_raises env; [discriminate|].
  cbn [childPluginFork set_trace trace].
  destruct (api (childPluginFork w)) as [a|]; [|discriminate].
  destruct_raises env; [discriminate|].
  intros H. injection H as _ <-. exists bs, a. cbn.
  rewrite <- !app_assoc. repeat split; reflexivity.
Qed.

(** X14: a [startBridge] that completes either took the return of line
    137, and then made none of the three final calls, or ended with
    them. *)
Lemma startBridge_run_completes w w' :
  startBridge_run env w = Ok tt w' ->
  if returns_early env w
  then extends (fun e => is_publication e = false) w w'
  else exists l bs a,
         trace w' =
         trace w ++ l ++
         [BridgeService_restoreCachedPlatformAccessories bs;
          BridgeService_publishBridge bs;
          HomebridgeAPI_signalFinished a].
Proof.
  unfold startBridge_run. intros H.
  apply bind_ok in H as (f & w1 & Hb & H).
  apply bind_ok in H as (b & w2 & Hbr & H).
  pose proof (startBridge_begin_steady w) as S1. rewrite Hb in S1. cbn in S1.
  pose proof (startBridge_branch_steady w1) as S2. rewrite Hbr in S2. cbn in S2.
  pose proof (@startBridge_branch_returns _ _ _ Hbr) as R.
  assert (E : returns_early env w1 = returns_early env w).
  { unfold returns_early. destruct S1 as (-> & -> & _). reflexivity. }
  rewrite E in R.
  destruct (steady_trans S1 S2) as (_ & _ & X).
  destruct (returns_early env w).
  - assert (b = Returned) as -> by (apply R; reflexivity).
    injection H as <-. exact X.
  - assert (Hne : b <> Returned) by (intros Hb'; apply R in Hb'; discriminate).
    assert (Hf : exists c, startBridge_finish env w2 = Ok c w').
    { destruct b; try congruence;
        apply bind_ok in H as (c & w3 & Hfin & Hret);
        injection Hret as <-; exists c; exact Hfin. }
    destruct Hf as (c & Hf).
    apply startBridge_finish_trace in Hf as (bs & a & _ & _ & T).
    destruct X as (l & Tl & _). exists l, bs, a.
    rewrite T, Tl, <- app_assoc. reflexivity.
Qed.

(** *** The asynchronous function and its run to completion *)

Lemma undisturbed_refl w : undisturbed w w.
Proof. split; reflexivity. Qed.

Lemma undisturbed_trans a b c : undisturbed a b -> undisturbed b c -> undisturbed a c.
Proof. intros [S1 T1] [S2 T2]. split; congruence. Qed.

Lemma startBridge_begin_undisturbed : keeps undisturbed (startBridge_begin env).
Proof.
  unfold_script.
  keeps_walk undisturbed_refl undisturbed_trans ltac:(intros; split; reflexivity).
Qed.

Lemma startBridge_branch_undisturbed : keeps undisturbed (startBridge_branch env).
Proof.
  unfold_script.
  keeps_walk undisturbed_refl undisturbed_trans ltac:(intros; split; reflexivity).
Qed.

Lemma startBridge_finish_undisturbed : keeps undisturbed (startBridge_finish env).
Proof.
  unfold_script.
  keeps_walk undisturbed_refl undisturbed_trans ltac:(intros; split; reflexivity).
Qed.

Lemma startBridge_begin_awaits :
  yields (fun f => f = Awaiting AfterCachedAccessories) (startBridge_begin env).
Proof.
  unfold startBridge_begin.
  repeat first [apply yields_bind; intro | apply yields_ret; reflexivity].
Qed.

Lemma startBridge_finish_completes :
  yields (fun f => f = Completed) (startBridge_finish env).
Proof.
  unfold startBridge_finish.
  repeat first [apply yields_bind; intro | apply yields_ret; reflexivity].
Qed.

Lemma set_suspended_back l w :
  suspended w = [] -> set_suspended [] (set_suspended l w) = w.
Proof. destruct w; cbn. intros ->. reflexivity. Qed.

Lemma step_settled_first k w :
  status w = Running -> suspended w = [] ->
  step env (Settled 0) (set_suspended [k] w) = handle (async (resume env k)) w.
Proof.
  intros Hs Hsu. unfold step, alive. cbn [status set_suspended suspended nth_error].
  rewrite Hs. cbn [remove_nth]. rewrite set_suspended_back by assumption.
  reflexivity.
Qed.

Lemma step_settled_none w :
  suspended w = [] -> step env (Settled 0) w = w.
Proof.
  intros Hsu. unfold step. rewrite Hsu. destruct (alive w); reflexivity.
Qed.

(** X15: when [startBridge], run in one go, completes in [w'], then the
    call from the message handler followed by the settling of what it
    awaits ends in [w'] too. *)
Lemma startBridge_run_settled w w' :
  status w = Running -> suspended w = [] ->
  startBridge_run env w = Ok tt w' ->
  run env [Settled 0%nat; Settled 0%nat] (handle (startBridge env) w) = w'.
Proof.
  intros Hs Hsu H. unfold startBridge_run in H.
  apply bind_ok in H as (f & w1 & Hb & H).
  apply bind_ok in H as (b & w2 & Hbr & H).
  pose proof (@startBridge_begin_awaits w f w1 Hb) as ->.
  destruct (startBridge_begin_undisturbed w) as [U1 T1].
  rewrite Hb in U1, T1. cbn in U1, T1. rewrite Hsu in U1. rewrite Hs in T1.
  destruct (startBridge_branch_undisturbed w1) as [U2 T2].
  rewrite Hbr in U2, T2. cbn in U2, T2. rewrite U1 in U2. rewrite T1 in T2.
  assert (E0 : handle (startBridge env) w = set_suspended [AfterCachedAccessories] w1).
  { unfold handle, startBridge, async. rewrite Hb, U1. reflexivity. }
  unfold run. cbn [fold_left]. rewrite E0.
  rewrite step_settled_first by assumption.
  assert (Fin : forall c u, startBridge_finish env w2 = Ok c u ->
                            c = Completed /\ suspended u = []).
  { intros c u Hf. split; [exact (@startBridge_finish_completes w2 c u Hf)|].
    destruct (startBridge_finish_undisturbed w2) as [U3 _].
    rewrite Hf in U3. cbn in U3. congruence. }
  unfold handle at 1, async, resume, bind at 1. rewrite Hbr.
  destruct b.
  - apply bind_ok in H as (c & u & Hf & Hret). injection Hret as <-.
    destruct (Fin c u Hf) as [-> Hu]. rewrite Hf.
    apply step_settled_none. exact Hu.
  - injection H as <-. cbn. apply step_settled_none. exact U2.
  - apply bind_ok in H as (c & u & Hf & Hret). injection Hret as <-.
    destruct (Fin c u Hf) as [-> Hu]. cbn [ret].
    rewrite U2. cbn [app].
    rewrite step_settled_first by assumption.
    unfold handle, async, resume. rewrite Hf. reflexivity.
Qed.

End Starting.

(** C1 fails on the code for an accessory whose configuration lacks a
    name, or has an empty one.  Loaded and started, the process keeps
    running and the promise of [startBridge] is fulfilled, but the last
    call is the warning of line 136: the return of line 137 leaves the
    function, so the cached accessories are not restored, the bridge is
    not published and [signalFinished] is not called.  The neighbouring
    failure, an accessory without services (line 150), falls through to
    all three. *)
Theorem startBridge_without_name_never_publishes :
  status nameless_world = Running
  /\ suspended nameless_world = []
  /\ rejections nameless_world = []
  /\ last (trace nameless_world) ChildBridgeFork_shutdown =
     Logger_internal_warn
       "Could not load accessory %s as it is missing the required 'name' property!"
       (JString "Demo")
  /\ count is_publication (trace nameless_world) = 0%nat
  /\ count is_publication (trace empty_name_world) = 0%nat
  /\ filter is_publication (trace no_services_world) =
     [BridgeService_restoreCachedPlatformAccessories 3%nat;
      BridgeService_publishBridge 3%nat;
      HomebridgeAPI_signalFinished 0%nat].
Proof.
  repeat split; vm_compute; reflexivity.
Qed.

(** ** Counterexamples *)

(** C6 as stated fails: SIGTERM reaches a running process with no
    shutdown in progress whose parent has gone away.  The liveness
    check comes first: 3000 ms after the signal the process has exited
    with code 1, and it never exits with 143. *)
Lemma orphan_exits_before_forced_exit :
  status abandoned_world = Running
  /\ shuttingDown abandoned_world = false
  /\ status (elapse sample_env 3000
               (step sample_env (Signal SIGTERM) abandoned_world)) = Exited 1
  /\ status (elapse sample_env 5000
               (step sample_env (Signal SIGTERM) abandoned_world)) = Exited 1.
Proof.
  split; [vm_compute; reflexivity|]. split; [vm_compute; reflexivity|].
  split; vm_compute; reflexivity.
Qed.

(** C3 as stated fails: a START envelope that arrives before any LOAD is
    not ignored.  [startBridge] runs: a bridge service is constructed
    from undefined fields and its cache is read. *)
Lemma start_before_load_is_not_ignored :
  api (childPluginFork (boot sample_env true true)) = None
  /\ trace (step sample_env (Message start_message) (boot sample_env true true)) =
     trace (boot sample_env true true) ++
     [New_BridgeService None None JUndefined JUndefined JUndefined;
      BridgeService_loadCachedPlatformAccessoriesFromDisk 0%nat]
  /\ step sample_env (Message start_message) (boot sample_env true true)
     <> boot sample_env true true.
Proof.
  split; [reflexivity|]. split; [vm_compute; reflexivity|].
  intros H. apply (f_equal (fun w => length (trace w))) in H.
  vm_compute in H. discriminate H.
Qed.

(** C9 as stated fails: with the channel disconnected but [process.send]
    defined, the envelope is not dropped but handed to [process.send]. *)
Lemma send_on_closed_channel_is_attempted :
  connected orphan_world = false
  /\ sendMessage sample_env READY JUndefined orphan_world =
     Ok tt
       (set_trace
          [Process_send (JObject [("id", JString "ready"); ("data", JUndefined)])]
          orphan_world)
  /\ sendMessage sample_env READY JUndefined orphan_world <> Ok tt orphan_world.
Proof.
  split; [reflexivity|]. split; [reflexivity|].
  intros H. vm_compute in H. discriminate H.
Qed.

(** ** Instances *)

Lemma onMessage_ignores_or_dispatches_witness :
  is_null (JString "ping") = false
  /\ onMessage sample_env (JString "ping") (boot sample_env true true) =
     if ignorable sample_env (JString "ping")
     then Ok tt (boot sample_env true true)
     else dispatch sample_env (JString "ping") (boot sample_env true true).
Proof.
  split; [reflexivity|].
  apply (@onMessage_ignores_or_dispatches sample_env (JString "ping")
           (boot sample_env true true)).
  reflexivity.
Defined.

Lemma only_first_signal_calls_shutdown_witness :
  status published_world = Running
  /\ shuttingDown published_world = false
  /\ run sample_env (map Signal [SIGTERM; SIGINT; SIGTERM]) published_world =
     step sample_env (Signal SIGTERM) published_world
  /\ shuttingDown (step sample_env (Signal SIGTERM) published_world) = true
  /\ count is_shutdown_call
       (trace (run sample_env (map Signal [SIGTERM; SIGINT; SIGTERM]) published_world)) =
     S (count is_shutdown_call (trace published_world)).
Proof.
  split; [vm_compute; reflexivity|]. split; [vm_compute; reflexivity|].
  apply (@only_first_signal_calls_shutdown sample_env SIGTERM [SIGINT; SIGTERM]
           published_world); vm_compute; reflexivity.
Defined.

Lemma liveness_check_exits_orphan_witness :
  status orphan_world = Running
  /\ connected orphan_world = false
  /\ status (fire {| due := 5000; callback := LivenessCheck; period := Some 5000 |}
               orphan_world) = Exited 1.
Proof.
  split; [reflexivity|]. split; [reflexivity|].
  pose proof (@liveness_check_exits_orphan
                {| due := 5000; callback := LivenessCheck; period := Some 5000 |}
                orphan_world eq_refl eq_refl eq_refl) as H.
  destruct H as (H & _). exact H.
Defined.

Lemma forced_exit_after_grace_period_witness :
  status published_world = Running
  /\ shuttingDown published_world = false
  /\ status (elapse sample_env 5000
               (handle (signalHandler sample_env "SIGTERM" 15) published_world)) =
     Exited (128 + 15).
Proof.
  assert (H1 : status published_world = Running) by (vm_compute; reflexivity).
  assert (H2 : shuttingDown published_world = false) by (vm_compute; reflexivity).
  assert (H3 : connected published_world = true) by (vm_compute; reflexivity).
  assert (H4 : Forall (fun t => is_liveness t = true) (timers published_world)).
  { vm_compute. repeat constructor. }
  split; [exact H1|]. split; [exact H2|].
  pose proof (@forced_exit_after_grace_period sample_env "SIGTERM" 15
                published_world H1 H2) as H.
  cbv zeta in H. destruct H as (_ & _ & _ & H).
  destruct (H H3 H4) as (_ & H' & _). exact H'.
Defined.

Lemma forced_exit_code_from_first_signal_witness :
  status published_world = Running
  /\ shuttingDown published_world = false
  /\ status (elapse sample_env 5000
               (run sample_env [Signal SIGINT; Signal SIGTERM] published_world)) =
     Exited 130.
Proof.
  assert (H1 : status published_world = Running) by (vm_compute; reflexivity).
  assert (H2 : shuttingDown published_world = false) by (vm_compute; reflexivity).
  assert (H3 : connected published_world = true) by (vm_compute; reflexivity).
  assert (H4 : Forall (fun t => is_liveness t = true) (timers published_world)).
  { vm_compute. repeat constructor. }
  split; [exact H1|]. split; [exact H2|].
  pose proof (@forced_exit_code_from_first_signal sample_env SIGINT SIGTERM []
                published_world H1 H2) as H.
  cbv zeta in H. destruct H as (_ & H).
  destruct (H H3 H4) as (_ & H'). apply H'; reflexivity.
Defined.

(** * Further properties *)

(** ** The timers of a running process *)

Lemma set_timers_twice l l' w :
  set_timers l (set_timers l' w) = set_timers l w.
Proof. reflexivity. Qed.

Lemma fire_orphan t w :
  status w = Running -> connected w = false -> callback t = LivenessCheck ->
  fire t w =
  set_status (Exited 1)
    (set_trace
       (trace w ++
        [Logger_internal_info "Parent process not connected, terminating process..." None;
         Process_exit 1]) w).
Proof.
  intros Hs Hc Hcb. unfold fire, alive. rewrite Hs, Hcb.
  unfold handle, run_callback, bind, gets. rewrite Hc. cbn.
  rewrite <- app_assoc. cbn. destruct (period t); reflexivity.
Qed.

Lemma fire_frame t w :
  shuttingDown (fire t w) = shuttingDown w
  /\ connected (fire t w) = connected w
  /\ now (fire t w) = now w.
Proof.
  unfold fire. destruct (alive w) eqn:Ha; [|repeat split].
  unfold handle, run_callback, bind, gets, emit, modify, process_exit, ret.
  destruct (callback t); [|destruct (connected w) eqn:Hc]; cbn;
    destruct (period t); cbn; rewrite ?Ha; cbn; rewrite ?Hc; repeat split.
Qed.

Lemma fire_all_frame l w :
  shuttingDown (fold_left (fun w t => fire t w) l w) = shuttingDown w
  /\ connected (fold_left (fun w t => fire t w) l w) = connected w
  /\ now (fold_left (fun w t => fire t w) l w) = now w.
Proof.
  revert w. induction l as [|t l IH]; intros w; cbn; [repeat split|].
  destruct (IH (fire t w)) as (A & B & C).
  destruct (fire_frame t w) as (A' & B' & C').
  repeat split; congruence.
Qed.

(** When the process survives the timers that are due, all of them were
    liveness checks on a connected channel, and each was armed again. *)
Lemma fire_all_running l w :
  status w = Running ->
  Forall (fun t => is_liveness t = true -> period t = Some 5000) l ->
  status (fold_left (fun w t => fire t w) l w) = Running ->
  Forall (fun t => is_liveness t = true) l
  /\ (l <> [] -> connected w = true)
  /\ fold_left (fun w t => fire t w) l w =
     set_timers (timers w ++ map (fun _ => liveness_timer (now w)) l) w.
Proof.
  intros Hs Hl. revert w Hs. induction Hl as [|t l Ht _ IH]; intros w Hs Hr.
  - cbn. split; [constructor|]. split; [congruence|].
    rewrite app_nil_r. destruct w; reflexivity.
  - cbn in Hr. unfold is_liveness in Ht.
    destruct (callback t) as [n|] eqn:Hcb.
    + rewrite (@fire_exit t n w Hs Hcb) in Hr.
      rewrite fire_all_dead in Hr by reflexivity. discriminate Hr.
    + destruct (connected w) eqn:Hc.
      * rewrite (@fire_liveness t w Hs Hc Hcb) in Hr.
        rewrite (Ht eq_refl) in Hr.
        match type of Hr with
        | context [fold_left _ l ?x] => destruct (IH x Hs Hr) as (F & _ & E)
        end.
        split; [constructor; [unfold is_liveness; rewrite Hcb; reflexivity | exact F]|].
        split; [reflexivity|].
        cbn [fold_left]. rewrite (@fire_liveness t w Hs Hc Hcb), (Ht eq_refl), E.
        cbn [timers set_timers now]. rewrite set_timers_twice, <- app_assoc.
        reflexivity.
      * rewrite (@fire_orphan t w Hs Hc Hcb) in Hr.
        rewrite fire_all_dead in Hr by reflexivity. discriminate Hr.
Qed.

(** How the timers that are due can leave the process. *)
Lemma fire_all_status l w :
  status w = Running ->
  status (fold_left (fun w t => fire t w) l w) = Running
  \/ status (fold_left (fun w t => fire t w) l w) = Exited 1
  \/ exists t n, In t l /\ callback t = ForcedExit n
                 /\ status (fold_left (fun w t => fire t w) l w) = Exited (128 + n).
Proof.
  revert w. induction l as [|t l IH]; intros w Hs; cbn; [left; exact Hs|].
  destruct (callback t) as [n|] eqn:Hcb.
  - right. right. exists t, n. split; [left; reflexivity|]. split; [exact Hcb|].
    rewrite (@fire_exit t n w Hs Hcb). rewrite fire_all_dead by reflexivity.
    reflexivity.
  - destruct (connected w) eqn:Hc.
    + assert (Hs' : status (fire t w) = Running).
      { rewrite (@fire_liveness t w Hs Hc Hcb). destruct (period t); exact Hs. }
      destruct (IH _ Hs') as [H|[H|(t' & n & Hin & Hcb' & H)]].
      * left. exact H.
      * right. left. exact H.
      * right. right. exists t', n. split; [right; exact Hin|]. split; assumption.
    + right. left. rewrite (@fire_orphan t w Hs Hc Hcb).
      rewrite fire_all_dead by reflexivity. reflexivity.
Qed.

Lemma filter_split (p q : Timer -> bool) l :
  (length (filter p (filter q l)) + length (filter p (filter (fun x => negb (q x)) l))
   = length (filter p l))%nat.
Proof.
  induction l as [|x l IH]; cbn; [reflexivity|].
  destruct (q x), (p x) eqn:Hp; cbn; rewrite ?Hp; cbn; lia.
Qed.

Lemma filter_all (p : Timer -> bool) l :
  Forall (fun t => p t = true) l -> filter p l = l.
Proof.
  induction 1 as [|x l Hx _ IH]; cbn; [reflexivity|]. rewrite Hx, IH. reflexivity.
Qed.

Lemma timeless_refl w : timeless w w.
Proof. repeat split. Qed.

Lemma timeless_trans a b c : timeless a b -> timeless b c -> timeless a c.
Proof.
  intros (A1 & A2 & A3 & A4 & A5) (B1 & B2 & B3 & B4 & B5).
  repeat split; congruence.
Qed.

Ltac timeless_walk :=
  keeps_walk timeless_refl timeless_trans ltac:(intros; repeat split).

Section Timers.

Variable env : Env.

Lemma loadPlugin_timeless data : keeps timeless (loadPlugin env data).
Proof. unfold_script. timeless_walk. Qed.

Lemma startBridge_begin_timeless : keeps timeless (startBridge_begin env).
Proof. unfold_script. timeless_walk. Qed.

Lemma resume_timeless k : keeps timeless (resume env k).
Proof. destruct k; unfold resume; unfold_script; timeless_walk. Qed.

Lemma async_timeless segment :
  keeps timeless segment -> keeps timeless (async segment).
Proof. apply (keeps_async timeless_trans); intros; repeat split. Qed.

Lemma onMessage_timeless message : keeps timeless (onMessage env message).
Proof.
  unfold onMessage.
  destruct (negb (JsType_eqb (typeof message) TObject));
    [apply (keeps_ret _ timeless_refl)|].
  apply (keeps_bind timeless_trans); [apply (keeps_get_prop _ timeless_refl)|].
  intros id. destruct (negb (truthy id)); [apply (keeps_ret _ timeless_refl)|].
  destruct (strict_equal id (messageId env LOAD)).
  - apply (keeps_bind timeless_trans); [apply (keeps_get_prop _ timeless_refl)|].
    intros data. apply loadPlugin_timeless.
  - destruct (strict_equal id (messageId env START));
      [|apply (keeps_ret _ timeless_refl)].
    apply async_timeless, startBridge_begin_timeless.
Qed.

(** A handler that is timeless leaves a sound process sound. *)
Lemma handle_sound m w :
  keeps timeless m -> sound w -> status w = Running -> sound (handle m w).
Proof.
  intros Hm [Ht _] Hs. specialize (Hm w). unfold handle.
  destruct (m w) as [a w'|e w'|w']; cbn in Hm;
    destruct Hm as (T & N & F & C & S).
  - split.
    + intros _. specialize (Ht Hs). unfold timers_in_order in *.
      rewrite T, N, F. exact Ht.
    + rewrite S, Hs. exact I.
  - split; [intros H; discriminate H | exact I].
  - split.
    + intros _. specialize (Ht Hs). unfold timers_in_order in *.
      rewrite T, N, F. exact Ht.
    + rewrite S, Hs. exact I.
Qed.

Lemma sound_same w w' :
  timers w' = timers w -> now w' = now w -> shuttingDown w' = shuttingDown w ->
  status w' = status w -> sound w -> sound w'.
Proof.
  intros T N F S [Ht Hc]. split.
  - rewrite S. intros Hs. specialize (Ht Hs). unfold timers_in_order in *.
    rewrite T, N, F. exact Ht.
  - rewrite S. exact Hc.
Qed.

Lemma after_signal_sound s w :
  status w = Running -> shuttingDown w = false -> sound w ->
  sound (after_signal (signalName s) (signalNumber s) w).
Proof.
  intros Hs Hf [Ht _]. destruct (Ht Hs) as (A & B & C). rewrite Hf in C.
  split; [|rewrite after_signal_status, Hs; exact I].
  intros _. unfold timers_in_order.
  cbn [now timers shuttingDown after_signal after_shutdown set_timers set_trace
       set_shuttingDown].
  split; [|split].
  - apply Forall_app. split; [exact A|]. constructor; [|constructor].
    unfold timer_ok, forced_exit_timer. cbn. split; [lia|]. split; [reflexivity|].
    destruct s; cbn; [left | right]; reflexivity.
  - rewrite filter_app, length_app, B. reflexivity.
  - apply Exists_app. right. constructor. reflexivity.
Qed.

Lemma run_timers_sound w :
  status w = Running -> sound w -> sound (run_timers (set_now (now w + 1) w)).
Proof.
  intros Hs [Ht _]. destruct (Ht Hs) as (A & B & C).
  unfold run_timers. cbn [now timers set_now].
  set (ready := filter (expired (now w + 1)) (timers w)).
  set (later := filter (fun x => negb (expired (now w + 1) x)) (timers w)).
  set (u := set_timers later (set_now (now w + 1) w)).
  assert (Hu : status u = Running) by exact Hs.
  assert (Hready : Forall (timer_ok (now w)) ready).
  { apply Forall_forall. intros t Hin. apply filter_In in Hin as [Hin _].
    rewrite Forall_forall in A. apply A. exact Hin. }
  assert (Hlater : forall t, In t later -> timer_ok (now w) t /\ now w + 1 < due t).
  { intros t Hin. apply filter_In in Hin as [Hin He]. split.
    - rewrite Forall_forall in A. apply A. exact Hin.
    - unfold expired in He. apply Bool.negb_true_iff, Z.leb_gt in He. lia. }
  split.
  - intros Hr.
    destruct (@fire_all_running ready u Hu) as (F & _ & E).
    { eapply Forall_impl; [|exact Hready]. intros t [_ Hk] Hl.
      unfold is_liveness in Hl. destruct (callback t); [discriminate | exact Hk]. }
    { exact Hr. }
    rewrite E. unfold timers_in_order.
    cbn [now timers shuttingDown set_timers set_now u].
    split; [|split].
    + apply Forall_app. split.
      * apply Forall_forall. intros t Hin. destruct (Hlater t Hin) as [[Hd Hk] Hlt].
        split; [lia | exact Hk].
      * apply Forall_forall. intros t Hin. apply in_map_iff in Hin as (x & <- & _).
        unfold timer_ok, liveness_timer. cbn. split; [lia | reflexivity].
    + rewrite filter_app, length_app.
      rewrite (@filter_all is_liveness (map _ ready)).
      2:{ apply Forall_forall. intros t Hin. apply in_map_iff in Hin as (x & <- & _).
          reflexivity. }
      rewrite length_map.
      rewrite <- (@filter_all is_liveness ready F) at 1.
      pose proof (filter_split is_liveness (expired (now w + 1)) (timers w)) as P.
      fold ready later in P. lia.
    + destruct (shuttingDown w).
      * apply Exists_app. left.
        apply Exists_exists in C as (t & Hin & Hl). apply Exists_exists.
        exists t. split; [|exact Hl]. apply filter_In. split; [exact Hin|].
        destruct (expired (now w + 1) t) eqn:He; [|reflexivity].
        exfalso. rewrite Forall_forall in F.
        assert (Htrue : is_liveness t = true).
        { apply F. apply filter_In. split; assumption. }
        congruence.
      * apply Forall_app. split.
        -- apply Forall_forall. intros t Hin. apply filter_In in Hin as [Hin _].
           rewrite Forall_forall in C. apply C. exact Hin.
        -- apply Forall_forall. intros t Hin.
           apply in_map_iff in Hin as (x & <- & _). reflexivity.
  - destruct (@fire_all_status ready u Hu) as [H|[H|(t & n & Hin & Hcb & H)]];
      rewrite H; cbn; auto.
    rewrite Forall_forall in Hready. destruct (Hready t Hin) as [_ Hk].
    rewrite Hcb in Hk. destruct Hk as [_ [-> | ->]]; cbn; auto.
Qed.

Lemma step_sound ev w : sound w -> sound (step env ev w).
Proof.
  intros Hw. unfold step. destruct (alive w) eqn:Ha; [|exact Hw].
  assert (Hs : status w = Running).
  { unfold alive in Ha. destruct (status w); try discriminate. reflexivity. }
  destruct ev as [message|s| |i|].
  - apply handle_sound; [apply onMessage_timeless | exact Hw | exact Hs].
  - destruct (shuttingDown w) eqn:Hf.
    + unfold handle, onSignal. rewrite signalHandler_again by assumption. exact Hw.
    + unfold handle, onSignal. rewrite signalHandler_first by assumption.
      apply after_signal_sound; assumption.
  - apply run_timers_sound; assumption.
  - destruct (nth_error (suspended w) i) as [k|]; [|exact Hw].
    apply handle_sound.
    + apply async_timeless, resume_timeless.
    + eapply sound_same; [| | | |exact Hw]; reflexivity.
    + exact Hs.
  - eapply sound_same; [| | | |exact Hw]; reflexivity.
Qed.

Lemma run_sound evs w : sound w -> sound (run env evs w).
Proof.
  revert w. induction evs as [|ev evs IH]; intros w Hw; [exact Hw|].
  change (run env (ev :: evs) w) with (run env evs (step env ev w)).
  apply IH, step_sound, Hw.
Qed.

Lemma boot_sound send conn : sound (boot env send conn).
Proof.
  split; [|destruct send; exact I].
  intros _. unfold timers_in_order.
  replace (timers (boot env send conn))
    with [liveness_timer 0] by (destruct send; reflexivity).
  replace (now (boot env send conn)) with 0 by (destruct send; reflexivity).
  replace (shuttingDown (boot env send conn)) with false by (destruct send; reflexivity).
  split; [|split].
  - constructor; [|constructor]. unfold timer_ok, liveness_timer. cbn.
    split; [lia | reflexivity].
  - reflexivity.
  - constructor; [reflexivity | constructor].
Qed.

Lemma reachable_sound send conn evs : sound (run env evs (boot env send conn)).
Proof. apply run_sound, boot_sound. Qed.

(** *** Deadlines *)

Lemma step_dead ev w : status w <> Running -> step env ev w = w.
Proof.
  intros H. unfold step, alive. destruct (status w); [congruence | |]; reflexivity.
Qed.

Lemma iter_dead ev k w :
  status w <> Running -> Nat.iter k (step env ev) w = w.
Proof.
  intros H. induction k as [|k IH]; [reflexivity|].
  rewrite Nat.iter_succ. rewrite IH. apply step_dead. exact H.
Qed.

Lemma iter_sound k w : sound w -> sound (Nat.iter k (step env Millisecond) w).
Proof.
  intros H. induction k as [|k IH]; [exact H|]. rewrite Nat.iter_succ.
  apply step_sound. exact IH.
Qed.

(** A millisecond never crashes the process: it runs on or it exits. *)
Lemma millisecond_status w :
  status w = Running ->
  status (step env Millisecond w) = Running
  \/ exists c, status (step env Millisecond w) = Exited c.
Proof.
  intros Hs. rewrite step_millisecond by assumption. unfold run_timers.
  match goal with
  | |- context [fold_left _ ?l ?u] =>
      destruct (@fire_all_status l u Hs) as [H|[H|(t & n & _ & _ & H)]]
  end; rewrite H; eauto.
Qed.

Lemma iter_status k w :
  status w = Running ->
  status (Nat.iter k (step env Millisecond) w) = Running
  \/ exists c, status (Nat.iter k (step env Millisecond) w) = Exited c.
Proof.
  intros Hs. induction k as [|k IH]; [left; exact Hs|]. rewrite Nat.iter_succ.
  destruct IH as [H|[c H]].
  - apply millisecond_status. exact H.
  - right. exists c. rewrite step_dead by congruence. exact H.
Qed.

(** A timer whose callback would end the process stays pending as long
    as the process runs. *)
Lemma millisecond_keeps_deadly t w :
  status w = Running -> sound w -> In t (timers w) ->
  is_liveness t = false \/ connected w = false ->
  status (step env Millisecond w) = Running ->
  In t (timers (step env Millisecond w))
  /\ connected (step env Millisecond w) = connected w
  /\ now (step env Millisecond w) = now w + 1.
Proof.
  intros Hs [Ht _] Hin Hd Hr. destruct (Ht Hs) as (A & _ & _).
  rewrite step_millisecond in * by assumption. unfold run_timers in *.
  cbn [now timers set_now] in *.
  match type of Hr with
  | context [fold_left _ ?l ?u] =>
      destruct (@fire_all_running l u Hs) as (F & C & E); [|exact Hr|]
  end.
  { apply Forall_forall. intros x Hx Hl. apply filter_In in Hx as [Hx _].
    rewrite Forall_forall in A. destruct (A x Hx) as [_ Hk].
    unfold is_liveness in Hl. destruct (callback x); [discriminate | exact Hk]. }
  rewrite E. cbn [timers connected now set_timers set_now].
  split; [|split; reflexivity].
  apply in_or_app. left. apply filter_In. split; [exact Hin|].
  destruct (expired (now w + 1) t) eqn:He; [|reflexivity]. exfalso.
  assert (Hready : In t (filter (expired (now w + 1)) (timers w))).
  { apply filter_In. split; assumption. }
  rewrite Forall_forall in F. specialize (F t Hready).
  assert (Hc : connected w = true).
  { apply C. intros Hnil. rewrite Hnil in Hready. exact Hready. }
  destruct Hd; congruence.
Qed.

Lemma iter_keeps_deadly t w k :
  status w = Running -> sound w -> In t (timers w) ->
  is_liveness t = false \/ connected w = false ->
  status (Nat.iter k (step env Millisecond) w) = Running ->
  In t (timers (Nat.iter k (step env Millisecond) w))
  /\ connected (Nat.iter k (step env Millisecond) w) = connected w
  /\ now (Nat.iter k (step env Millisecond) w) = now w + Z.of_nat k.
Proof.
  intros Hs Hw Hin Hd. induction k as [|k IH]; intros Hr.
  - cbn. repeat split; [exact Hin | lia].
  - rewrite Nat.iter_succ in *.
    assert (Hk : status (Nat.iter k (step env Millisecond) w) = Running).
    { destruct (status (Nat.iter k (step env Millisecond) w)) eqn:E;
        [reflexivity | |]; rewrite step_dead in Hr by congruence; congruence. }
    destruct (IH Hk) as (I1 & I2 & I3).
    destruct (@millisecond_keeps_deadly t _ Hk (@iter_sound k w Hw) I1) as (J1 & J2 & J3).
    { rewrite I2. exact Hd. }
    { exact Hr. }
    split; [exact J1|]. split; [congruence | lia].
Qed.

Lemma elapse_iter ms w :
  elapse env ms w = Nat.iter (Z.to_nat ms) (step env Millisecond) w.
Proof. reflexivity. Qed.

Lemma deadline_iter t w k :
  Z.of_nat k = 5000 ->
  status w = Running -> sound w -> In t (timers w) ->
  is_liveness t = false \/ connected w = false ->
  status (Nat.iter k (step env Millisecond) w) <> Running.
Proof.
  intros Hk Hs Hw Hin Hd Hr.
  destruct (@iter_keeps_deadly t w k Hs Hw Hin Hd Hr) as (I1 & _ & I3).
  destruct (@iter_sound k w Hw) as [Ht _]. destruct (Ht Hr) as (A & _ & _).
  rewrite Forall_forall in A. destruct (A t I1) as [[H1 _] _].
  destruct Hw as [Ht0 _]. destruct (Ht0 Hs) as (A0 & _ & _).
  rewrite Forall_forall in A0. destruct (A0 t Hin) as [[_ H2] _].
  lia.
Qed.

(* The statements below mention [elapse env 5000 w]: implicit arguments
   are not computed for them, which would unfold the 5000 steps. *)
Unset Implicit Arguments.

(** Such a timer ends the process within 5000 ms. *)
Lemma deadline t w :
  status w = Running -> sound w -> In t (timers w) ->
  is_liveness t = false \/ connected w = false ->
  status (elapse env 5000 w) <> Running.
Proof.
  intros Hs Hw Hin Hd. rewrite elapse_iter.
  assert (Hk : Z.of_nat (Z.to_nat 5000) = 5000) by (apply Z2Nat.id; discriminate).
  revert Hk. generalize (Z.to_nat 5000). intros k Hk.
  apply (@deadline_iter t w k); assumption.
Qed.

Set Implicit Arguments.

Lemma elapse_dead ms w : status w <> Running -> elapse env ms w = w.
Proof. intros H. unfold elapse. apply iter_dead. exact H. Qed.

Lemma elapse_sound ms w : sound w -> sound (elapse env ms w).
Proof. intros H. unfold elapse. apply iter_sound. exact H. Qed.

Lemma elapse_exits ms w :
  status w = Running -> sound w -> status (elapse env ms w) <> Running ->
  exists c, status (elapse env ms w) = Exited c /\ (c = 1 \/ c = 130 \/ c = 143).
Proof.
  intros Hs Hw Hr. destruct (@elapse_sound ms w Hw) as [_ Hc].
  unfold elapse in *. destruct (@iter_status (Z.to_nat ms) w Hs) as [H|[c H]].
  - congruence.
  - exists c. split; [exact H|]. rewrite H in Hc. exact Hc.
Qed.

Lemma liveness_pending w :
  timers_in_order w -> exists t, In t (timers w) /\ is_liveness t = true.
Proof.
  intros (_ & B & _).
  destruct (filter is_liveness (timers w)) as [|t l] eqn:E; [discriminate B|].
  exists t. apply (filter_In is_liveness). rewrite E. left. reflexivity.
Qed.

(** While no shutdown is in progress only the liveness check can end the
    process. *)
Lemma iter_orphan_code k w :
  status w = Running -> sound w -> shuttingDown w = false ->
  status (Nat.iter k (step env Millisecond) w) = Running
  \/ status (Nat.iter k (step env Millisecond) w) = Exited 1.
Proof.
  intros Hs Hw Hf. induction k as [|k IH]; [left; exact Hs|]. rewrite Nat.iter_succ.
  destruct IH as [H|H]; [|right; rewrite step_dead by congruence; exact H].
  pose proof (@iter_sound k w Hw) as [Ht _]. destruct (Ht H) as (_ & _ & C).
  assert (Hfk : shuttingDown (Nat.iter k (step env Millisecond) w) = false).
  { clear - Hf. induction k as [|k IHk]; [exact Hf|]. rewrite Nat.iter_succ.
    unfold step. destruct (alive _); [|exact IHk]. unfold run_timers.
    match goal with
    | |- shuttingDown (fold_left _ ?l ?u) = _ =>
        destruct (fire_all_frame l u) as (-> & _ & _)
    end. exact IHk. }
  rewrite Hfk in C.
  rewrite step_millisecond by assumption. unfold run_timers.
  match goal with
  | |- context [fold_left _ ?l ?u] =>
      destruct (@fire_all_status l u H) as [R|[R|(t & n & Hin & Hcb & _)]]
  end; [left; exact R | right; exact R |].
  exfalso. cbn [timers now set_now] in Hin. apply filter_In in Hin as [Hin _].
  rewrite Forall_forall in C. specialize (C t Hin).
  unfold is_liveness in C. rewrite Hcb in C. discriminate C.
Qed.

(** X1: whatever the process has received since the script started,
    while it runs exactly one liveness check is pending, every pending
    timer is due within the next 5000 ms, and a forced exit is pending
    exactly when a shutdown is in progress. *)
Theorem one_liveness_check_pending send conn evs :
  status (run env evs (boot env send conn)) = Running ->
  timers_in_order (run env evs (boot env send conn)).
Proof.
  intros Hs. destruct (reachable_sound send conn evs) as [H _]. exact (H Hs).
Qed.

(** X2: whatever the process has received, when it has exited its code
    is 1 (the orphan check), 130 (SIGINT) or 143 (SIGTERM). *)
Theorem exit_codes_of_the_script send conn evs c :
  status (run env evs (boot env send conn)) = Exited c ->
  c = 1 \/ c = 130 \/ c = 143.
Proof.
  intros Hs. destruct (reachable_sound send conn evs) as [_ H].
  rewrite Hs in H. exact H.
Qed.

Unset Implicit Arguments.

(** X3: whatever the process has received, once the channel to the
    parent is disconnected the process is no longer running 5000 ms
    later; if it was running with no shutdown in progress, it has exited
    with code 1. *)
Theorem orphan_ends_within_interval send conn evs :
  connected (run env evs (boot env send conn)) = false ->
  status (elapse env 5000 (run env evs (boot env send conn))) <> Running
  /\ (status (run env evs (boot env send conn)) = Running ->
      shuttingDown (run env evs (boot env send conn)) = false ->
      status (elapse env 5000 (run env evs (boot env send conn))) = Exited 1).
Proof.
  intros Hc. set (w := run env evs (boot env send conn)) in *.
  pose proof (reachable_sound send conn evs) as Hw. fold w in Hw.
  assert (Hdead : status (elapse env 5000 w) <> Running).
  { destruct (status w) eqn:Hs.
    - destruct Hw as [Ht Hx]. destruct (@liveness_pending w (Ht Hs)) as (t & Hin & _).
      apply (deadline t w Hs (conj Ht Hx) Hin). right. exact Hc.
    - rewrite elapse_dead by congruence. congruence.
    - rewrite elapse_dead by congruence. congruence. }
  split; [exact Hdead|]. intros Hs Hf.
  rewrite elapse_iter in *.
  destruct (@iter_orphan_code (Z.to_nat 5000) w Hs Hw Hf) as [H|H].
  - congruence.
  - exact H.
Qed.

(** X4: whatever the process has received before, 5000 ms after a
    termination signal it is no longer running, connected or not; if it
    was running when the signal came, it has exited with code 1, 130 or
    143. *)
Theorem signal_ends_process_within_grace send conn evs s :
  status (elapse env 5000 (step env (Signal s) (run env evs (boot env send conn))))
  <> Running
  /\ (status (run env evs (boot env send conn)) = Running ->
      exists c,
        status (elapse env 5000
                  (step env (Signal s) (run env evs (boot env send conn)))) = Exited c
        /\ (c = 1 \/ c = 130 \/ c = 143)).
Proof.
  set (w := run env evs (boot env send conn)).
  pose proof (reachable_sound send conn evs) as Hw. fold w in Hw.
  pose proof (@step_sound (Signal s) w Hw) as Hw1.
  assert (Hflag : status (step env (Signal s) w) = Running ->
                  shuttingDown (step env (Signal s) w) = true).
  { intros Hr. destruct (shuttingDown w) eqn:Hf.
    - rewrite step_signal_again by assumption. exact Hf.
    - destruct (status w) eqn:Hs.
      + rewrite step_signal_first by assumption. reflexivity.
      + rewrite step_dead in Hr by congruence. congruence.
      + rewrite step_dead in Hr by congruence. congruence. }
  assert (Hdead : status (elapse env 5000 (step env (Signal s) w)) <> Running).
  { destruct (status (step env (Signal s) w)) eqn:Hs.
    - destruct Hw1 as [Ht Hx]. destruct (Ht Hs) as (A & B & C).
      rewrite (Hflag eq_refl) in C. apply Exists_exists in C as (t & Hin & Hl).
      apply (deadline t _ Hs (conj Ht Hx) Hin). left. exact Hl.
    - rewrite elapse_dead by congruence. congruence.
    - rewrite elapse_dead by congruence. congruence. }
  split; [exact Hdead|]. intros Hs.
  apply elapse_exits; [|exact Hw1|exact Hdead].
  destruct (shuttingDown w) eqn:Hf.
  - rewrite step_signal_again by assumption. exact Hs.
  - rewrite step_signal_first by assumption. exact Hs.
Qed.

Set Implicit Arguments.

End Timers.

(** ** What the script sends and sets *)

Lemma extends_all (P : Effect -> Prop) w w' :
  extends P w w' -> Forall P (trace w) -> Forall P (trace w').
Proof.
  intros (l & E & F) H. rewrite E. apply Forall_app. split; assumption.
Qed.

Ltac scripted_side :=
  intros;
  first [ apply extends_same; reflexivity
        | eapply extends_one; [| reflexivity]; cbn;
          first [ exact I | reflexivity | right; reflexivity | left; reflexivity ] ].

Section Scripted.

Variable env : Env.

Lemma scripted_refl w : extends (scripted env) w w.
Proof. apply extends_refl. Qed.

Lemma scripted_trans a b c :
  extends (scripted env) a b -> extends (scripted env) b c ->
  extends (scripted env) a c.
Proof. apply extends_trans. Qed.

Ltac scripted_walk := keeps_walk scripted_refl scripted_trans scripted_side.

Lemma loadPlugin_scripted data :
  keeps (extends (scripted env)) (loadPlugin env data).
Proof. unfold_script. scripted_walk. Qed.

Lemma startBridge_begin_scripted :
  keeps (extends (scripted env)) (startBridge_begin env).
Proof. unfold_script. scripted_walk. Qed.

Lemma resume_scripted k : keeps (extends (scripted env)) (resume env k).
Proof. destruct k; unfold resume; unfold_script; scripted_walk. Qed.

Lemma async_scripted segment :
  keeps (extends (scripted env)) segment ->
  keeps (extends (scripted env)) (async segment).
Proof. apply (keeps_async scripted_trans); intros; apply extends_same; reflexivity. Qed.

Lemma onMessage_scripted message :
  keeps (extends (scripted env)) (onMessage env message).
Proof.
  unfold onMessage.
  destruct (negb (JsType_eqb (typeof message) TObject)); [apply (keeps_ret _ scripted_refl)|].
  apply (keeps_bind scripted_trans); [apply (keeps_get_prop _ scripted_refl)|].
  intros id. destruct (negb (truthy id)); [apply (keeps_ret _ scripted_refl)|].
  destruct (strict_equal id (messageId env LOAD)).
  - apply (keeps_bind scripted_trans); [apply (keeps_get_prop _ scripted_refl)|].
    intros data. apply loadPlugin_scripted.
  - destruct (strict_equal id (messageId env START)); [|apply (keeps_ret _ scripted_refl)].
    apply async_scripted, startBridge_begin_scripted.
Qed.

Lemma onSignal_scripted s : keeps (extends (scripted env)) (onSignal env s).
Proof. unfold onSignal, signalHandler. unfold_script. scripted_walk. Qed.

Lemma run_callback_scripted cb : keeps (extends (scripted env)) (run_callback cb).
Proof. destruct cb; unfold run_callback; unfold_script; scripted_walk. Qed.

Lemma handle_scripted m w :
  keeps (extends (scripted env)) m -> extends (scripted env) w (handle m w).
Proof.
  intros H. apply (keeps_handle scripted_trans); [|exact H].
  intros; apply extends_same; reflexivity.
Qed.

Lemma fire_scripted t w : extends (scripted env) w (fire t w).
Proof.
  unfold fire. destruct (alive w); [|apply scripted_refl].
  pose proof (handle_scripted w (run_callback_scripted (callback t))) as H.
  destruct (period t); [|exact H].
  destruct (alive _); [|exact H].
  eapply scripted_trans; [exact H|]. apply extends_same; reflexivity.
Qed.

Lemma fire_all_scripted l w :
  extends (scripted env) w (fold_left (fun w t => fire t w) l w).
Proof.
  revert w. induction l as [|t l IH]; intros w; cbn.
  - apply scripted_refl.
  - eapply scripted_trans; [apply fire_scripted | apply IH].
Qed.

Lemma step_scripted ev w : extends (scripted env) w (step env ev w).
Proof.
  unfold step. destruct (alive w); [|apply scripted_refl].
  destruct ev as [message|s| |i|].
  - apply handle_scripted, onMessage_scripted.
  - apply handle_scripted, onSignal_scripted.
  - unfold run_timers. eapply scripted_trans; [|apply fire_all_scripted].
    apply extends_same; reflexivity.
  - destruct (nth_error (suspended w) i) as [k|]; [|apply scripted_refl].
    eapply scripted_trans; [|apply handle_scripted, async_scripted, resume_scripted].
    apply extends_same; reflexivity.
  - apply extends_same; reflexivity.
Qed.

Lemma run_scripted evs w : extends (scripted env) w (run env evs w).
Proof.
  revert w. induction evs as [|ev evs IH]; intros w; [apply scripted_refl|].
  change (run env (ev :: evs) w) with (run env evs (step env ev w)).
  eapply scripted_trans; [apply step_scripted | apply IH].
Qed.

(** X5: whatever the process receives, READY is sent exactly when the
    process has a channel, as the first thing the script does; all that
    is sent afterwards are LOADED envelopes without payload;
    [Logger.setTimestampEnabled] is only ever called with false and
    [Logger.setDebugEnabled] only with true, so that timestamps are
    never switched back on and debug mode is never switched off. *)
Theorem ready_first_then_only_loaded send conn evs :
  exists l,
    trace (run env evs (boot env send conn)) =
    (if send then [Process_send (envelope env READY)] else []) ++ l
    /\ Forall (scripted env) l.
Proof.
  destruct (run_scripted evs (boot env send conn)) as (l & E & F).
  exists l. split; [|exact F]. rewrite E. destruct send; reflexivity.
Qed.

End Scripted.

(** ** Loading a plugin *)

Lemma lookup_remove_same name props :
  lookup name (remove name props) = JUndefined.
Proof.
  induction props as [|[k v] rest IH]; cbn; [reflexivity|].
  destruct (String.eqb k name) eqn:E; cbn; [exact IH|].
  rewrite E. exact IH.
Qed.

Lemma lookup_remove_other name k props :
  k <> name -> lookup k (remove name props) = lookup k props.
Proof.
  intros Hk. induction props as [|[k0 v] rest IH]; cbn; [reflexivity|].
  destruct (String.eqb k0 name) eqn:E; cbn.
  - apply String.eqb_eq in E. subst k0.
    destruct (String.eqb name k) eqn:E'; [|exact IH].
    apply String.eqb_eq in E'. congruence.
  - destruct (String.eqb k0 k); [reflexivity | exact IH].
Qed.

Lemma delete_prop_strips v name w c u :
  delete_prop v name w = Ok c u ->
  property c name = JUndefined
  /\ forall k, k <> name -> property c k = property v k.
Proof.
  destruct v; cbn; intros H; try discriminate H; injection H as <- _;
    try (split; [reflexivity | intros; reflexivity]).
  split; [apply lookup_remove_same | intros k Hk; apply lookup_remove_other, Hk].
Qed.

Lemma same_payload_refl w : same_payload w w.
Proof. repeat split. Qed.

Lemma same_payload_trans a b c :
  same_payload a b -> same_payload b c -> same_payload a c.
Proof.
  intros (A1 & A2 & A3 & A4 & A5 & A6) (B1 & B2 & B3 & B4 & B5 & B6).
  repeat split; congruence.
Qed.

Lemma get_prop_total v name w :
  nullish v = false -> get_prop v name w = Ok (property v name) w.
Proof. destruct v; cbn; intros H; try discriminate H; reflexivity. Qed.

Lemma get_prop_nullish v name w :
  nullish v = true -> get_prop v name w = Throw (TypeError name) w.
Proof. destruct v; cbn; intros H; try discriminate H; reflexivity. Qed.

Lemma delete_prop_nullish v name w :
  nullish v = true -> delete_prop v name w = Throw (TypeError name) w.
Proof. destruct v; cbn; intros H; try discriminate H; reflexivity. Qed.

Lemma delete_prop_total v name w :
  nullish v = false -> exists c, delete_prop v name w = Ok c w.
Proof.
  destruct v; cbn; intros H; try discriminate H; eexists; reflexivity.
Qed.

Lemma bind_ok_eq A B (m : M A) (k : A -> M B) w a u :
  m w = Ok a u -> bind m k w = k a u.
Proof. intros H. unfold bind. rewrite H. reflexivity. Qed.

Lemma bind_throw_eq A B (m : M A) (k : A -> M B) w e u :
  m w = Throw e u -> bind m k w = Throw e u.
Proof. intros H. unfold bind. rewrite H. reflexivity. Qed.

Lemma unannounced_refl w : unannounced w w.
Proof. split; [reflexivity|]. split; [reflexivity | apply extends_refl]. Qed.

Lemma unannounced_trans a b c :
  unannounced a b -> unannounced b c -> unannounced a c.
Proof.
  intros (A1 & A2 & A3) (B1 & B2 & B3).
  split; [congruence|]. split; [congruence | eapply extends_trans; eassumption].
Qed.

Ltac unannounced_side :=
  intros; split; [reflexivity|]; split; [reflexivity|];
  first [ apply extends_same; reflexivity
        | eapply extends_one; [| reflexivity]; reflexivity ].

Section Post.

Variable R : World -> World -> Prop.
Variables A B : Type.
Variable Q : World -> Outcome B -> Prop.
Hypothesis Q_after : forall w w1 o, R w w1 -> Q w1 o -> Q w o.
Hypothesis Q_throw : forall w w1 e, R w w1 -> Q w (Throw e w1).
Hypothesis Q_halt : forall w w1, R w w1 -> Q w (Halt w1).

Lemma post_bind (m : M A) (k : A -> M B) :
  keeps R m -> (forall a, post Q (k a)) -> post Q (bind m k).
Proof.
  intros Hm Hk w. unfold bind. specialize (Hm w).
  destruct (m w) as [a w1|e w1|w1]; cbn in Hm.
  - eapply Q_after; [exact Hm | apply Hk].
  - apply Q_throw. exact Hm.
  - apply Q_halt. exact Hm.
Qed.

End Post.

Section Loaded.

Variable env : Env.

Lemma acknowledged_after w w1 o :
  unannounced w w1 -> acknowledged env w1 o -> acknowledged env w o.
Proof.
  intros (S1 & T1 & (l1 & E1 & F1)) H. destruct o as [a w'|e w'|w']; cbn in *.
  - destruct H as [(l & E & F) P]. split; [|exact P].
    exists (l1 ++ l). split.
    + rewrite E, E1, S1, <- !app_assoc. reflexivity.
    + apply Forall_app. split; assumption.
  - eapply unannounced_trans; [|exact H].
    split; [exact S1|]. split; [exact T1|]. exists l1. split; assumption.
  - eapply unannounced_trans; [|exact H].
    split; [exact S1|]. split; [exact T1|]. exists l1. split; assumption.
Qed.

(** The end of [loadPlugin], from line 98 on. *)
Lemma loadPlugin_end_acknowledged :
  post (acknowledged env)
    (bind (this plugin) (fun p =>
     bind (deref p "getPluginIdentifier") (fun p =>
     bind (getPluginIdentifier env p) (fun name =>
     bind (modify (set_title (String.append "homebridge: " name))) (fun _ =>
     sendMessage env LOADED JUndefined))))).
Proof.
  intros w. unfold acknowledged.
  cbv [bind this gets deref getPluginIdentifier call modify sendMessage when
       emit ret throw].
  destruct (plugin (childPluginFork w)) as [p|] eqn:Hp; [|apply unannounced_refl].
  destruct (raises env (trace w) (Plugin_getPluginIdentifier p));
    cbn -[String.append].
  - split; [reflexivity|]. split; [reflexivity|].
    eapply extends_one; [|reflexivity]. reflexivity.
  - destruct (send_defined w); cbn -[String.append];
      (split; [|exists p; split; [exact Hp | reflexivity]]).
    + exists [Plugin_getPluginIdentifier p]. split.
      * rewrite <- app_assoc. reflexivity.
      * repeat constructor.
    + exists [Plugin_getPluginIdentifier p]. split.
      * rewrite app_nil_r. reflexivity.
      * repeat constructor.
Qed.

(** X6: a load that returns has sent LOADED, as the last thing it did
    and the only thing it sent (nothing when there is no channel), and
    has named the process after the plugin.  A load that throws has sent
    nothing and has left the process title alone: the parent never sees
    LOADED for a failed load. *)
Theorem loadPlugin_acknowledges_only_success data w :
  match loadPlugin env data w with
  | Ok _ w' =>
      (exists l,
         trace w' =
         trace w ++ l ++
         (if send_defined w then [Process_send (envelope env LOADED)] else [])
         /\ Forall (fun e => is_send e = false) l)
      /\ exists p, plugin (childPluginFork w') = Some p
                   /\ title w' = String.append "homebridge: " (pluginIdentifier env p)
  | Throw _ w' => unannounced w w'
  | Halt w' => unannounced w w'
  end.
Proof.
  change (acknowledged env w (loadPlugin env data w)). revert w.
  change (post (acknowledged env) (loadPlugin env data)).
  unfold loadPlugin, applyBridgeOptions, assign, call_new, persistPath,
    setTimestampEnabled, setDebugEnabled, forceColor, setStoragePath.
  repeat (lazymatch goal with
          | |- post _ (bind (this plugin)
                         (fun p => bind (deref p "getPluginIdentifier") _)) => fail
          | _ => idtac
          end;
          apply (@post_bind unannounced _ _ (acknowledged env)
                   acknowledged_after
                   (fun w w1 e H => H) (fun w w1 H => H));
          [ solve [keeps_walk unannounced_refl unannounced_trans unannounced_side]
          | intro ]).
  apply loadPlugin_end_acknowledged.
Qed.

End Loaded.

Section Payload.

Variable env : Env.

Ltac same_payload_side := intros; repeat split.

Lemma loadPlugin_rest_same_payload data :
  keeps same_payload
    (bind applyBridgeOptions (fun _ =>
     bind persistPath (fun dir =>
     bind (call env (HAPStorage_setCustomStoragePath dir)) (fun _ =>
     bind (call_new env New_HomebridgeAPI) (fun a =>
     bind (assign (set_api (Some a))) (fun _ =>
     bind (this api) (fun a =>
     bind (deref a "api") (fun a =>
     bind (call_new env (New_PluginManager a)) (fun pm =>
     bind (assign (set_pluginManager (Some pm))) (fun _ =>
     bind (this pluginManager) (fun pm =>
     bind (deref pm "loadPlugin") (fun pm =>
     bind (get_prop data "pluginPath") (fun path =>
     bind (call_new env (PluginManager_loadPlugin pm path)) (fun p =>
     bind (assign (set_plugin (Some p))) (fun _ =>
     bind (this plugin) (fun p =>
     bind (deref p "load") (fun p =>
     bind (call env (Plugin_load p)) (fun _ =>
     bind (this pluginManager) (fun pm =>
     bind (deref pm "initializePlugin") (fun pm =>
     bind (this plugin) (fun p =>
     bind (deref p "plugin") (fun p =>
     bind (get_prop data "identifier") (fun id =>
     bind (call env (PluginManager_initializePlugin pm p id)) (fun _ =>
     bind (this plugin) (fun p =>
     bind (deref p "getPluginIdentifier") (fun p =>
     bind (getPluginIdentifier env p) (fun name =>
     bind (modify (set_title (String.append "homebridge: " name))) (fun _ =>
     sendMessage env LOADED JUndefined)))))))))))))))))))))))))))).
Proof.
  unfold applyBridgeOptions, assign, call_new, persistPath, getPluginIdentifier,
    sendMessage, setTimestampEnabled, setDebugEnabled, forceColor, setStoragePath.
  keeps_walk same_payload_refl same_payload_trans same_payload_side.
Qed.

(** X7: after a load that returns, the controller holds the payload's
    type, identifier, bridge configuration, bridge options and
    Homebridge configuration as they were sent, and the plugin's
    configuration as it was sent except for the key [_bridge], which is
    gone.  Every other key of the configuration reads as before. *)
Theorem loadPlugin_keeps_payload_without_bridge_key data w w' :
  loadPlugin env data w = Ok tt w' ->
  type (childPluginFork w') = property data "type"
  /\ identifier (childPluginFork w') = property data "identifier"
  /\ bridgeConfig (childPluginFork w') = property data "bridgeConfig"
  /\ bridgeOptions (childPluginFork w') = property data "bridgeOptions"
  /\ homebridgeConfig (childPluginFork w') = property data "homebridgeConfig"
  /\ property (pluginConfig (childPluginFork w')) "_bridge" = JUndefined
  /\ forall key, key <> "_bridge" ->
       property (pluginConfig (childPluginFork w')) key =
       property (property data "pluginConfig") key.
Proof.
  intros H. unfold loadPlugin in H.
  do 6 (apply bind_ok in H as (? & ? & E1 & H);
        apply get_prop_ok in E1 as [-> ->];
        apply bind_ok in H as (? & ? & E2 & H);
        apply modify_ok in E2 as ->).
  apply bind_ok in H as (? & ? & E1 & H). apply gets_ok in E1 as [-> ->].
  apply bind_ok in H as (c & ? & E1 & H).
  pose proof (delete_prop_strips _ _ _ E1) as [Hgone Hkept].
  apply delete_prop_ok in E1 as ->.
  apply bind_ok in H as (? & ? & E2 & H). apply modify_ok in E2 as ->.
  match type of H with
  | _ ?x = Ok tt w' => pose proof (loadPlugin_rest_same_payload data x) as K
  end.
  rewrite H in K. cbn [final] in K.
  destruct K as (K1 & K2 & K3 & K4 & K5 & K6).
  cbn in K1, K2, K3, K4, K5, K6, Hgone, Hkept.
  rewrite K1, K2, K3, K4, K5, K6.
  repeat split; try reflexivity; assumption.
Qed.

End Payload.

Section IncompletePayload.

Variable env : Env.

Lemma applyBridgeOptions_nullish w :
  nullish (bridgeOptions (childPluginFork w)) = true ->
  applyBridgeOptions w = Throw (TypeError "noLogTimestamps") w.
Proof.
  intros H. unfold applyBridgeOptions, this.
  unfold bind at 1. unfold gets at 1.
  apply bind_throw_eq, get_prop_nullish, H.
Qed.

(** X8: a load whose payload is missing ([undefined] or [null]), or
    whose plugin configuration or bridge options are missing, throws a
    TypeError before it has called anything: no option is applied,
    nothing is constructed and nothing is sent. *)
Theorem loadPlugin_rejects_incomplete_payload data w :
  nullish data
  || nullish (property data "pluginConfig")
  || nullish (property data "bridgeOptions") = true ->
  exists what w',
    loadPlugin env data w = Throw (TypeError what) w'
    /\ trace w' = trace w
    /\ settings w' = settings w
    /\ status w' = status w.
Proof.
  intros H. destruct (nullish data) eqn:Hd.
  - exists "type", w. split; [|repeat split].
    unfold loadPlugin. apply bind_throw_eq, get_prop_nullish, Hd.
  - cbn [orb] in H. unfold loadPlugin, assign.
    do 6 (rewrite (@bind_ok_eq _ _ _ _ _ _ _ (@get_prop_total data _ _ Hd));
          unfold bind at 1, modify at 1).
    unfold bind at 1, this at 1, gets at 1.
    cbn [childPluginFork set_fork pluginConfig set_pluginConfig set_homebridgeConfig
         set_bridgeOptions set_bridgeConfig].
    destruct (nullish (property data "pluginConfig")) eqn:Hc.
    + exists "_bridge". eexists. split; [|split; [|split]].
      * apply bind_throw_eq, delete_prop_nullish, Hc.
      * reflexivity.
      * reflexivity.
      * reflexivity.
    + cbn [orb] in H.
      match goal with
      | |- context [bind (delete_prop ?v ?n) ?k ?x] =>
          destruct (@delete_prop_total v n x Hc) as [c Ec];
            rewrite (@bind_ok_eq _ _ _ _ _ _ _ Ec)
      end.
      unfold bind at 1, modify at 1.
      exists "noLogTimestamps". eexists. split; [|split; [|split]].
      * apply bind_throw_eq, applyBridgeOptions_nullish. exact H.
      * reflexivity.
      * reflexivity.
      * reflexivity.
Qed.

(** What is left of [loadPlugin] once HAP-NodeJS has its persist
    directory (lines 89-100) applies no setting. *)
Lemma loadPlugin_construction_constructing data :
  keeps constructing
    (bind (call_new env New_HomebridgeAPI) (fun a =>
     bind (assign (set_api (Some a))) (fun _ =>
     bind (this api) (fun a =>
     bind (deref a "api") (fun a =>
     bind (call_new env (New_PluginManager a)) (fun pm =>
     bind (assign (set_pluginManager (Some pm))) (fun _ =>
     bind (this pluginManager) (fun pm =>
     bind (deref pm "loadPlugin") (fun pm =>
     bind (get_prop data "pluginPath") (fun path =>
     bind (call_new env (PluginManager_loadPlugin pm path)) (fun p =>
     bind (assign (set_plugin (Some p))) (fun _ =>
     bind (this plugin) (fun p =>
     bind (deref p "load") (fun p =>
     bind (call env (Plugin_load p)) (fun _ =>
     bind (this pluginManager) (fun pm =>
     bind (deref pm "initializePlugin") (fun pm =>
     bind (this plugin) (fun p =>
     bind (deref p "plugin") (fun p =>
     bind (get_prop data "identifier") (fun id =>
     bind (call env (PluginManager_initializePlugin pm p id)) (fun _ =>
     bind (this plugin) (fun p =>
     bind (deref p "getPluginIdentifier") (fun p =>
     bind (getPluginIdentifier env p) (fun name =>
     bind (modify (set_title (String.append "homebridge: " name))) (fun _ =>
     sendMessage env LOADED JUndefined))))))))))))))))))))))))).
Proof.
  unfold assign, call_new, sendMessage, getPluginIdentifier.
  keeps_walk constructing_refl constructing_trans constructing_side.
Qed.

Lemma nullish_is_null v :
  nullish v = false -> is_null v = false /\ v <> JUndefined.
Proof. destruct v; cbn; intros H; try discriminate H; split; congruence. Qed.

(** C8: however a load ends, it has applied the bridge options of its
    payload before it constructed anything.  A load whose payload,
    plugin configuration or bridge options are missing throws at once:
    it applies nothing and constructs nothing.  Every other load first
    makes exactly the calls that the payload's options ask for
    (timestamps off, debug mode on, forced colour, storage path, each
    when its option is truthy, in this order), which leaves the
    process-wide settings as the options ask; only then does it hand
    HAP-NodeJS the persist directory, the one under the storage path
    just set, and after that it constructs the API and the plugin
    manager and loads the plugin without applying any setting. *)
Theorem loadPlugin_applies_options_first data w :
  if nullish data
     || nullish (property data "pluginConfig")
     || nullish (property data "bridgeOptions")
  then trace (final (loadPlugin env data w)) = trace w
       /\ settings (final (loadPlugin env data w)) = settings w
  else settings (final (loadPlugin env data w)) =
       configured (property data "bridgeOptions") (settings w)
       /\ exists constructed,
            trace (final (loadPlugin env data w)) =
            trace w ++ option_calls (property data "bridgeOptions") ++
            HAPStorage_setCustomStoragePath
              (PersistUnder
                 (storagePath
                    (configured (property data "bridgeOptions") (settings w))))
            :: constructed
            /\ Forall (fun e => is_setting e = false) constructed.
Proof.
  remember (loadPlugin env data w) as o eqn:Ho.
  destruct (nullish data) eqn:Hd; cbn [orb].
  { unfold loadPlugin in Ho.
    rewrite (@bind_throw_eq _ _ _ _ _ _ _ (@get_prop_nullish data "type" w Hd)) in Ho.
    subst o. split; reflexivity. }
  unfold loadPlugin in Ho.
  do 6 (rewrite (@bind_ok_eq _ _ _ _ _ _ _ (@get_prop_total data _ _ Hd)) in Ho;
        unfold bind at 1, assign at 1, modify at 1 in Ho).
  unfold bind at 1, this at 1, gets at 1 in Ho.
  cbn [childPluginFork set_fork pluginConfig set_pluginConfig set_homebridgeConfig
       set_bridgeOptions set_bridgeConfig] in Ho.
  destruct (nullish (property data "pluginConfig")) eqn:Hc; cbn [orb].
  { lazymatch type of Ho with
    | _ = bind (delete_prop ?v ?n) ?k ?x =>
        rewrite (@bind_throw_eq _ _ _ k x _ _ (@delete_prop_nullish v n x Hc)) in Ho
    end.
    subst o. split; reflexivity. }
  lazymatch type of Ho with
  | _ = bind (delete_prop ?v ?n) ?k ?x =>
      destruct (@delete_prop_total v n x Hc) as [c Ec];
        rewrite (@bind_ok_eq _ _ _ _ _ _ _ Ec) in Ho
  end.
  unfold bind at 1, assign at 1, modify at 1 in Ho.
  destruct (nullish (property data "bridgeOptions")) eqn:Hb.
  { lazymatch type of Ho with
    | _ = bind applyBridgeOptions ?k ?x =>
        rewrite (@bind_throw_eq _ _ _ k x _ _ (@applyBridgeOptions_nullish x Hb)) in Ho
    end.
    subst o. split; reflexivity. }
  destruct (nullish_is_null _ Hb) as [Hn Hu].
  lazymatch type of Ho with
  | _ = bind applyBridgeOptions ?k ?x =>
      rewrite (@bind_ok_eq _ _ _ k x _ _ (@applyBridgeOptions_spec x Hn Hu)) in Ho
  end.
  unfold bind at 1, persistPath at 1, gets at 1 in Ho.
  rewrite call_then in Ho.
  cbn [childPluginFork set_fork bridgeOptions set_pluginConfig set_homebridgeConfig
       set_bridgeOptions set_bridgeConfig set_identifier set_type
       trace settings set_settings set_trace] in Ho.
  destruct (raises env _ _).
  { subst o. cbn [final settings trace set_trace set_settings set_fork].
    split; [reflexivity|]. exists []. split; [|constructor].
    rewrite <- app_assoc. reflexivity. }
  cbn beta in Ho.
  lazymatch type of Ho with
  | _ = bind _ _ ?x =>
      assert (K : constructing x (final o))
        by (rewrite Ho; exact (loadPlugin_construction_constructing data x))
  end.
  destruct K as [S (l & T & F)].
  cbn [settings set_settings set_trace set_fork trace] in S, T.
  split; [exact S|].
  exists l. split.
  - rewrite T, <- !app_assoc. reflexivity.
  - eapply Forall_impl; [|exact F]. intros e [He _]. exact He.
Qed.

End IncompletePayload.

(** ** The branches of startBridge *)

Lemma ret_ok A (a b : A) w u : ret a w = Ok b u -> b = a /\ u = w.
Proof. unfold ret. intros H. injection H as <- <-. split; reflexivity. Qed.

Lemma deref_ok o what w h u : deref o what w = Ok h u -> o = Some h /\ u = w.
Proof.
  destruct o; cbn; intros H; [|discriminate H].
  injection H as <- <-. split; reflexivity.
Qed.

Lemma fresh_ok w h u :
  fresh w = Ok h u -> h = next_handle w /\ u = set_next_handle (S (next_handle w)) w.
Proof. unfold fresh. intros H. injection H as <- <-. split; reflexivity. Qed.

Lemma get_prop_opt_ok v name w a u :
  get_prop_opt v name w = Ok a u -> a = property v name /\ u = w.
Proof.
  destruct v; cbn; intros H; injection H as <- <-; split; reflexivity.
Qed.

Lemma sendMessage_ok env t data w a u :
  sendMessage env t data w = Ok a u ->
  u = if send_defined w
      then set_trace
             (trace w ++
              [Process_send (JObject [("id", messageId env t); ("data", data)])]) w
      else w.
Proof.
  unfold sendMessage, bind, gets, when, emit, modify, ret.
  destruct (send_defined w); intros H; injection H as _ <-; reflexivity.
Qed.

(** Reads the fields of an updated world. *)
Ltac tidy H :=
  cbn beta iota in H;
  cbn [childPluginFork shuttingDown title send_defined connected status now
       timers suspended rejections settings next_handle trace
       set_fork set_shuttingDown set_title set_connected set_status set_now
       set_timers set_suspended set_rejections set_settings set_next_handle
       set_trace
       bridgeService api pluginManager type plugin identifier pluginConfig
       bridgeConfig bridgeOptions homebridgeConfig
       set_bridgeService set_api set_pluginManager set_type set_plugin
       set_identifier set_pluginConfig set_bridgeConfig set_bridgeOptions
       set_homebridgeConfig] in H.

Ltac tidy_goal :=
  cbn [childPluginFork shuttingDown title send_defined connected status now
       timers suspended rejections settings next_handle trace
       set_fork set_shuttingDown set_title set_connected set_status set_now
       set_timers set_suspended set_rejections set_settings set_next_handle
       set_trace
       bridgeService api pluginManager type plugin identifier pluginConfig
       bridgeConfig bridgeOptions homebridgeConfig
       set_bridgeService set_api set_pluginManager set_type set_plugin
       set_identifier set_pluginConfig set_bridgeConfig set_bridgeOptions
       set_homebridgeConfig].

Section Branches.

Variable env : Env.

Lemma call_ok e w a u :
  call env e w = Ok a u -> u = set_trace (trace w ++ [e]) w.
Proof.
  unfold call. destruct (raises env (trace w) e); intros H; [discriminate H|].
  injection H as _ <-. reflexivity.
Qed.

(** Reads a returning computation step by step. *)
Ltac invert H :=
  tidy H;
  lazymatch type of H with
  | bind _ _ _ = Ok _ _ =>
      let E := fresh "E" in
      apply bind_ok in H as (? & ? & E & H); invert E; invert H
  | this _ _ = Ok _ _ => apply gets_ok in H as [? ?]; subst
  | gets _ _ = Ok _ _ => apply gets_ok in H as [? ?]; subst
  | ret _ _ = Ok _ _ => apply ret_ok in H as [? ?]; subst
  | deref _ _ _ = Ok _ _ =>
      apply deref_ok in H as [H ?]; subst; try (injection H as H; subst)
  | fresh _ = Ok _ _ => apply fresh_ok in H as [? ?]; subst
  | call _ _ _ = Ok _ _ => apply call_ok in H; subst
  | emit _ _ = Ok _ _ => apply modify_ok in H; subst
  | modify _ _ = Ok _ _ => apply modify_ok in H; subst
  | assign _ _ = Ok _ _ => apply modify_ok in H; subst
  | get_prop _ _ _ = Ok _ _ => apply get_prop_ok in H as [? ?]; subst
  | get_prop_opt _ _ _ = Ok _ _ => apply get_prop_opt_ok in H as [? ?]; subst
  | call_new _ _ _ = Ok _ _ => unfold call_new in H; invert H
  | call_ask _ _ _ = Ok _ _ => unfold call_ask in H; invert H
  | call_opt _ _ _ = Ok _ _ => unfold call_opt in H; invert H
  | withPrefix _ _ = Ok _ _ => unfold withPrefix in H; invert H
  | getPluginIdentifier _ _ _ = Ok _ _ => unfold getPluginIdentifier in H; invert H
  | delete_prop _ _ _ = Ok _ _ =>
      let D := fresh "D" in
      pose proof (delete_prop_strips _ _ _ H) as D;
      apply delete_prop_ok in H; subst
  | applyBridgeOptions _ = Ok _ _ => apply applyBridgeOptions_ok in H; subst
  | persistPath _ = Ok _ _ => unfold persistPath in H; invert H
  | sendMessage _ _ _ _ = Ok _ _ => apply sendMessage_ok in H; subst
  | when _ _ _ = Ok _ _ => unfold when in H; invert H
  | (if ?b then _ else _) _ = Ok _ _ =>
      let B := fresh "B" in destruct b eqn:B; invert H
  | match ?o with Some _ => _ | None => _ end _ = Ok _ _ =>
      let B := fresh "B" in destruct o eqn:B; invert H
  | _ => idtac
  end.

(** X9: a PLATFORM branch that returns has made exactly the calls of
    [platform_calls]: the platform is constructed once, with the logger,
    the plugin configuration and the API; its logger is named after the
    configured name or, when there is none, after the plugin's
    identifier.  What follows is decided by what the two tests answer
    for that platform: when [isDynamicPlatformPlugin] answers yes, the
    platform is assigned to the plugin and [isStaticPlatformPlugin] is
    not asked; when it answers no, [isStaticPlatformPlugin] is asked,
    and the accessories are loaded, which the function awaits, exactly
    when that answers yes.  The controller's fields are left as they
    were. *)
Theorem startBridge_platform_calls w b w' :
  startBridge_platform env w = Ok b w' ->
  exists pm,
    pluginManager (childPluginFork w) = Some pm
    /\ trace w' =
       trace w ++ platform_calls env pm (childPluginFork w) (next_handle w)
                    (platform_is_dynamic env pm w) (platform_is_static env pm w)
    /\ b = (if platform_is_dynamic env pm w then FallThrough
            else if platform_is_static env pm w then AwaitPlatformAccessories
                 else FallThrough)
    /\ childPluginFork w' = childPluginFork w.
Proof.
  intros H. unfold startBridge_platform in H. invert H.
  all: match goal with
       | P : pluginManager _ = Some ?pm |- _ => exists pm
       end.
  all: unfold platform_is_dynamic, platform_is_static, platform_calls,
         platform_setup.
  all: tidy_goal.
  all: repeat match goal with
              | H : truthy _ = _ |- _ => rewrite H
              | H : bridgeService _ = _ |- _ => rewrite H
              end.
  all: rewrite <- ?app_assoc in *; cbn [app] in *.
  all: repeat match goal with
              | H : answers _ _ _ = _ |- _ => rewrite H
              end.
  all: split; [assumption|]; split; [reflexivity|]; split; reflexivity.
Qed.

(** X10: an ACCESSORY branch that returns has looked the plugin up, and
    then, for a configuration without a truthy name, has only logged the
    warning and left the function; for one with a name it has
    constructed the accessory once, with the logger named after it, the
    configuration and the API, and has asked the bridge service for the
    HAP accessory.  What follows is decided by what [createHAPAccessory]
    returned: the accessory is added to the bridge exactly when one
    came back, and the remark is logged exactly when none did.  The
    controller's fields are left as they were. *)
Theorem startBridge_accessory_calls w b w' :
  startBridge_accessory env w = Ok b w' ->
  exists pm,
    pluginManager (childPluginFork w) = Some pm
    /\ childPluginFork w' = childPluginFork w
    /\ if truthy (property (pluginConfig (childPluginFork w)) "name")
       then b = FallThrough
            /\ exists bs,
                 bridgeService (childPluginFork w) = Some bs
                 /\ trace w' =
                    trace w ++ accessory_calls pm bs (childPluginFork w)
                                 (next_handle w)
                                 (accessory_has_services env pm bs w)
       else b = Returned
            /\ trace w' =
               trace w ++
               [PluginManager_getPluginForAccessory pm
                  (identifier (childPluginFork w));
                Logger_internal_warn
                  "Could not load accessory %s as it is missing the required 'name' property!"
                  (identifier (childPluginFork w))].
Proof.
  intros H. unfold startBridge_accessory in H. invert H.
  all: match goal with
       | P : pluginManager _ = Some ?pm |- _ => exists pm
       end.
  all: tidy_goal.
  all: repeat match goal with
              | H : negb _ = true |- _ => apply negb_true_iff in H
              | H : negb _ = false |- _ => apply negb_false_iff in H
              end.
  all: repeat match goal with
              | H1 : ?a = Some ?x, H2 : ?a = Some ?y |- _ =>
                  tryif constr_eq x y then fail
                  else (assert (y = x) by congruence; subst y; clear H2)
              end.
  all: split; [assumption|]; split; [reflexivity|].
  all: match goal with
       | H : truthy _ = _ |- _ => rewrite H
       end.
  - split; [reflexivity|]. rewrite <- ?app_assoc. reflexivity.
  - split; [reflexivity|].
    match goal with
    | P : bridgeService _ = Some ?bs |- _ => exists bs
    end.
    split; [assumption|].
    unfold accessory_has_services, accessory_calls, accessory_setup,
      createHAPAccessory_call.
    rewrite <- ?app_assoc in *; cbn [app] in *.
    match goal with
    | H : answers _ _ _ = _ |- _ => rewrite H
    end.
    reflexivity.
  - split; [reflexivity|].
    match goal with
    | P : bridgeService _ = Some ?bs |- _ => exists bs
    end.
    split; [assumption|].
    unfold accessory_has_services, accessory_calls, accessory_setup,
      createHAPAccessory_call.
    rewrite <- ?app_assoc in *; cbn [app] in *.
    match goal with
    | H : answers _ _ _ = _ |- _ => rewrite H
    end.
    reflexivity.
Qed.

(** X11: [startBridge] run from its call to its return with nothing
    else happening in between (the promises it awaits resolve at once,
    and no LOAD is handled while it waits), on a controller whose plugin
    manager and API are undefined at the call, never reaches its end,
    whatever the collaborators answer or throw. *)
Theorem start_before_load_never_completes w :
  pluginManager (childPluginFork w) = None ->
  api (childPluginFork w) = None ->
  forall w', startBridge_run env w <> Ok tt w'.
Proof.
  intros Hpm Hapi w' H. unfold startBridge_run in H.
  apply bind_ok in H as (f & w1 & Hb & H).
  apply bind_ok in H as (b & w2 & Hbr & H).
  unfold startBridge_begin in Hb. invert Hb.
  unfold startBridge_branch, startBridge_platform, startBridge_accessory in Hbr.
  invert Hbr.
  all: cbn -[String.append] in *; try congruence.
  unfold startBridge_finish in H. invert H.
  cbn -[String.append] in *. congruence.
Qed.

(** X12: a load that returns has made, after the calls that apply the
    bridge options, exactly the calls of [construction_calls] and then
    the send of LOADED: the plugin manager is constructed on the API
    constructed just before, the plugin that is loaded and initialised
    is the one the plugin manager returned for the payload's path, and
    the three new objects are the ones the controller holds
    afterwards. *)
Theorem loadPlugin_wires_new_objects data w w' :
  loadPlugin env data w = Ok tt w' ->
  api (childPluginFork w') = Some (next_handle w)
  /\ pluginManager (childPluginFork w') = Some (S (next_handle w))
  /\ plugin (childPluginFork w') = Some (S (S (next_handle w)))
  /\ trace w' =
     trace w ++ option_calls (property data "bridgeOptions")
     ++ construction_calls (settings w') data (next_handle w)
     ++ (if send_defined w then [Process_send (envelope env LOADED)] else []).
Proof.
  intros H. unfold loadPlugin in H. invert H.
  unfold construction_calls, envelope.
  tidy_goal. destruct (send_defined w); tidy_goal.
  all: split; [reflexivity|]; split; [reflexivity|]; split; [reflexivity|].
  all: rewrite <- ?app_assoc, ?app_nil_r; reflexivity.
Qed.

End Branches.

(** ** What message handling does not depend on *)

Section Independence.

Variable env : Env.
Variables (flag conn : bool) (time : Z) (pending : list Timer).

Lemma commutes_bind A B (m : M A) (k : A -> M B) :
  commutes (elsewhere flag conn time pending) m ->
  (forall a, commutes (elsewhere flag conn time pending) (k a)) ->
  commutes (elsewhere flag conn time pending) (bind m k).
Proof.
  intros Hm Hk w. unfold bind. rewrite Hm.
  destruct (m w) as [a w1|e w1|w1]; cbn [lift]; [apply Hk | reflexivity | reflexivity].
Qed.

Lemma commutes_ret A (a : A) : commutes (elsewhere flag conn time pending) (ret a).
Proof. intros w. reflexivity. Qed.

Lemma commutes_throw A e :
  commutes (elsewhere flag conn time pending) (@throw A e).
Proof. intros w. reflexivity. Qed.

Lemma commutes_gets A (g : World -> A) :
  (forall w, g (elsewhere flag conn time pending w) = g w) ->
  commutes (elsewhere flag conn time pending) (gets g).
Proof. intros H w. unfold gets. rewrite H. reflexivity. Qed.

Lemma commutes_modify h :
  (forall w, h (elsewhere flag conn time pending w) =
             elsewhere flag conn time pending (h w)) ->
  commutes (elsewhere flag conn time pending) (modify h).
Proof. intros H w. unfold modify. rewrite H. reflexivity. Qed.

Lemma commutes_call e : commutes (elsewhere flag conn time pending) (call env e).
Proof.
  intros w. unfold call. cbn [elsewhere trace set_shuttingDown set_connected
                              set_now set_timers].
  destruct (raises env (trace w) e); reflexivity.
Qed.

Lemma commutes_fresh : commutes (elsewhere flag conn time pending) fresh.
Proof. intros w. reflexivity. Qed.

Lemma commutes_get_prop v name :
  commutes (elsewhere flag conn time pending) (get_prop v name).
Proof. intros w. destruct v; reflexivity. Qed.

Lemma commutes_get_prop_opt v name :
  commutes (elsewhere flag conn time pending) (get_prop_opt v name).
Proof. intros w. destruct v; reflexivity. Qed.

Lemma commutes_delete_prop v name :
  commutes (elsewhere flag conn time pending) (delete_prop v name).
Proof. intros w. destruct v; reflexivity. Qed.

Lemma commutes_deref o what :
  commutes (elsewhere flag conn time pending) (deref o what).
Proof. intros w. destruct o; reflexivity. Qed.

Lemma commutes_async segment :
  commutes (elsewhere flag conn time pending) segment ->
  commutes (elsewhere flag conn time pending) (async segment).
Proof.
  intros H w. unfold async. rewrite H.
  destruct (segment w) as [[|k] w1|e w1|w1]; reflexivity.
Qed.

Lemma commutes_handle m w :
  commutes (elsewhere flag conn time pending) m ->
  handle m (elsewhere flag conn time pending w) =
  elsewhere flag conn time pending (handle m w).
Proof.
  intros H. unfold handle. rewrite H.
  destruct (m w) as [a w1|e w1|w1]; reflexivity.
Qed.

Ltac commutes_walk :=
  repeat first
    [ apply commutes_bind; [| intro]
    | apply commutes_ret
    | apply commutes_throw
    | apply commutes_call
    | apply commutes_fresh
    | apply commutes_get_prop
    | apply commutes_get_prop_opt
    | apply commutes_delete_prop
    | apply commutes_deref
    | apply commutes_gets; intro; reflexivity
    | apply commutes_modify; intro; reflexivity
    | match goal with
      | |- commutes _ (when ?b _) => destruct b; unfold when
      | |- commutes _ (if ?b then _ else _) => destruct b
      | |- commutes _ (match ?o with Some _ => _ | None => _ end) => destruct o
      | |- commutes _ (match ?b with
                       | FallThrough => _ | Returned => _
                       | AwaitPlatformAccessories => _
                       end) => destruct b
      end ].

Lemma loadPlugin_commutes data :
  commutes (elsewhere flag conn time pending) (loadPlugin env data).
Proof. unfold_script. unfold this, emit. commutes_walk. Qed.

Lemma startBridge_begin_commutes :
  commutes (elsewhere flag conn time pending) (startBridge_begin env).
Proof. unfold_script. unfold this, emit. commutes_walk. Qed.

Lemma resume_commutes k :
  commutes (elsewhere flag conn time pending) (resume env k).
Proof. destruct k; unfold resume; unfold_script; unfold this, emit; commutes_walk. Qed.

Lemma onMessage_commutes message :
  commutes (elsewhere flag conn time pending) (onMessage env message).
Proof.
  unfold onMessage.
  destruct (negb (JsType_eqb (typeof message) TObject)); [apply commutes_ret|].
  apply commutes_bind; [apply commutes_get_prop|].
  intros id. destruct (negb (truthy id)); [apply commutes_ret|].
  destruct (strict_equal id (messageId env LOAD)).
  - apply commutes_bind; [apply commutes_get_prop|].
    intros data. apply loadPlugin_commutes.
  - destruct (strict_equal id (messageId env START)); [|apply commutes_ret].
    apply commutes_async, startBridge_begin_commutes.
Qed.

(** X17: how the script treats a message, or a [startBridge] that
    resumes after an await, neither depends on nor changes the shutdown
    flag, the connection state, the clock and the pending timers: the
    event has the same effect whatever these are, and leaves them as
    they are.  In particular a LOAD or START that arrives after a
    termination signal is carried out as at any other time. *)
Theorem messages_ignore_shutdown_state message i w :
  step env (Message message) (elsewhere flag conn time pending w) =
  elsewhere flag conn time pending (step env (Message message) w)
  /\ step env (Settled i) (elsewhere flag conn time pending w) =
     elsewhere flag conn time pending (step env (Settled i) w).
Proof.
  unfold step, alive.
  cbn [elsewhere status suspended set_shuttingDown set_connected set_now set_timers].
  destruct (status w) eqn:Hs; try (split; reflexivity). split.
  - apply (commutes_handle w (onMessage_commutes message)).
  - destruct (nth_error (suspended w) i) as [k|]; [|reflexivity].
    apply (commutes_handle
             (set_suspended (remove_nth i (suspended w)) w)
             (commutes_async (resume_commutes k))).
Qed.

End Independence.

(** ** Instances of the further properties *)

Lemma one_liveness_check_pending_witness :
  status (run sample_env [Signal SIGINT] (boot sample_env true true)) = Running
  /\ timers_in_order (run sample_env [Signal SIGINT] (boot sample_env true true)).
Proof.
  split; [reflexivity|].
  apply (@one_liveness_check_pending sample_env true true [Signal SIGINT]).
  reflexivity.
Defined.

Lemma exit_codes_of_the_script_witness :
  status (run sample_env orphan_events (boot sample_env true true)) = Exited 1
  /\ (1 = 1 \/ 1 = 130 \/ 1 = 143).
Proof.
  assert (H : status (run sample_env orphan_events (boot sample_env true true)) =
              Exited 1) by (vm_compute; reflexivity).
  split; [exact H|].
  exact (@exit_codes_of_the_script sample_env true true orphan_events 1 H).
Defined.

Lemma orphan_ends_within_interval_witness :
  connected (run sample_env [Disconnected] (boot sample_env true true)) = false
  /\ status (elapse sample_env 5000
               (run sample_env [Disconnected] (boot sample_env true true))) = Exited 1.
Proof.
  split; [reflexivity|].
  pose proof (@orphan_ends_within_interval sample_env true true [Disconnected]
                eq_refl) as [_ H].
  exact (H eq_refl eq_refl).
Defined.

Lemma loadPlugin_keeps_payload_without_bridge_key_witness :
  loadPlugin sample_env (load_payload "accessory" named_config)
    (boot sample_env true true) =
  Ok tt (loaded_world "accessory" named_config)
  /\ property (pluginConfig (childPluginFork (loaded_world "accessory" named_config)))
       "_bridge" = JUndefined
  /\ property (pluginConfig (childPluginFork (loaded_world "accessory" named_config)))
       "name" = JString "Lamp".
Proof.
  assert (H : loadPlugin sample_env (load_payload "accessory" named_config)
                (boot sample_env true true) =
              Ok tt (loaded_world "accessory" named_config))
    by (vm_compute; reflexivity).
  split; [exact H|].
  pose proof (@loadPlugin_keeps_payload_without_bridge_key sample_env _ _ _ H)
    as (_ & _ & _ & _ & _ & Hgone & Hkept).
  split; [exact Hgone|].
  rewrite (Hkept "name"); [reflexivity | discriminate].
Defined.

Lemma loadPlugin_rejects_incomplete_payload_witness :
  nullish bare_payload
  || nullish (property bare_payload "pluginConfig")
  || nullish (property bare_payload "bridgeOptions") = true
  /\ exists what w',
       loadPlugin sample_env bare_payload (boot sample_env true true) =
       Throw (TypeError what) w'
       /\ trace w' = trace (boot sample_env true true)
       /\ settings w' = settings (boot sample_env true true)
       /\ status w' = status (boot sample_env true true).
Proof.
  split; [reflexivity|].
  apply (@loadPlugin_rejects_incomplete_payload sample_env bare_payload
           (boot sample_env true true)).
  reflexivity.
Defined.

Lemma loadPlugin_ok_applies_options_witness :
  loadPlugin sample_env (load_payload "accessory" named_config)
    (boot sample_env true true) =
  Ok tt (loaded_world "accessory" named_config)
  /\ settings (loaded_world "accessory" named_config) =
     configured (property (load_payload "accessory" named_config) "bridgeOptions")
       (settings (boot sample_env true true)).
Proof.
  assert (H : loadPlugin sample_env (load_payload "accessory" named_config)
                (boot sample_env true true) =
              Ok tt (loaded_world "accessory" named_config))
    by (vm_compute; reflexivity).
  split; [exact H|].
  exact (proj1 (@loadPlugin_ok_applies_options sample_env _ _ _ H)).
Defined.

Lemma startBridge_platform_calls_witness :
  startBridge_platform sample_env (started_world "platform" platform_config) =
  Ok FallThrough
    (final (startBridge_platform sample_env (started_world "platform" platform_config)))
  /\ exists pm,
       pluginManager (childPluginFork (started_world "platform" platform_config)) =
       Some pm
       /\ trace (final (startBridge_platform sample_env
                          (started_world "platform" platform_config))) =
          trace (started_world "platform" platform_config)
          ++ platform_calls sample_env pm
               (childPluginFork (started_world "platform" platform_config))
               (next_handle (started_world "platform" platform_config))
               (platform_is_dynamic sample_env pm
                  (started_world "platform" platform_config))
               (platform_is_static sample_env pm
                  (started_world "platform" platform_config)).
Proof.
  assert (H : startBridge_platform sample_env
                (started_world "platform" platform_config) =
              Ok FallThrough
                (final (startBridge_platform sample_env
                          (started_world "platform" platform_config))))
    by (vm_compute; reflexivity).
  split; [exact H|].
  destruct (@startBridge_platform_calls sample_env _ _ _ H)
    as (pm & Hpm & Ht & _).
  exists pm. split; [exact Hpm | exact Ht].
Defined.

Lemma startBridge_accessory_calls_witness :
  startBridge_accessory sample_env (started_world "accessory" named_config) =
  Ok FallThrough
    (final (startBridge_accessory sample_env
              (started_world "accessory" named_config)))
  /\ exists pm bs,
       pluginManager (childPluginFork (started_world "accessory" named_config)) =
       Some pm
       /\ bridgeService (childPluginFork (started_world "accessory" named_config)) =
          Some bs
       /\ trace (final (startBridge_accessory sample_env
                          (started_world "accessory" named_config))) =
          trace (started_world "accessory" named_config)
          ++ accessory_calls pm bs
               (childPluginFork (started_world "accessory" named_config))
               (next_handle (started_world "accessory" named_config))
               (accessory_has_services sample_env pm bs
                  (started_world "accessory" named_config)).
Proof.
  assert (H : startBridge_accessory sample_env
                (started_world "accessory" named_config) =
              Ok FallThrough
                (final (startBridge_accessory sample_env
                          (started_world "accessory" named_config))))
    by (vm_compute; reflexivity).
  assert (E : truthy (property
                        (pluginConfig
                           (childPluginFork (started_world "accessory" named_config)))
                        "name") = true)
    by (vm_compute; reflexivity).
  split; [exact H|].
  destruct (@startBridge_accessory_calls sample_env _ _ _ H) as (pm & Hpm & _ & Hb).
  rewrite E in Hb. destruct Hb as (_ & bs & Hbs & Ht).
  exists pm, bs. split; [exact Hpm|]. split; [exact Hbs | exact Ht].
Defined.

Lemma start_before_load_never_completes_witness :
  pluginManager (childPluginFork (boot sample_env true true)) = None
  /\ api (childPluginFork (boot sample_env true true)) = None
  /\ forall w', startBridge_run sample_env (boot sample_env true true) <> Ok tt w'.
Proof.
  split; [reflexivity|]. split; [reflexivity|].
  apply (@start_before_load_never_completes sample_env (boot sample_env true true));
    reflexivity.
Defined.

Lemma startBridge_run_completes_witness :
  startBridge_run sample_env (loaded_world "accessory" named_config) =
  Ok tt (final (startBridge_run sample_env (loaded_world "accessory" named_config)))
  /\ returns_early sample_env (loaded_world "accessory" named_config) = false
  /\ exists l bs a,
       trace (final (startBridge_run sample_env
                       (loaded_world "accessory" named_config))) =
       trace (loaded_world "accessory" named_config) ++ l ++
       [BridgeService_restoreCachedPlatformAccessories bs;
        BridgeService_publishBridge bs;
        HomebridgeAPI_signalFinished a].
Proof.
  assert (H : startBridge_run sample_env (loaded_world "accessory" named_config) =
              Ok tt (final (startBridge_run sample_env
                              (loaded_world "accessory" named_config))))
    by (vm_compute; reflexivity).
  assert (E : returns_early sample_env (loaded_world "accessory" named_config) = false)
    by (vm_compute; reflexivity).
  split; [exact H|]. split; [exact E|].
  pose proof (@startBridge_run_completes sample_env _ _ H) as C.
  rewrite E in C. exact C.
Defined.

Lemma startBridge_run_settled_witness :
  status (loaded_world "accessory" named_config) = Running
  /\ suspended (loaded_world "accessory" named_config) = []
  /\ startBridge_run sample_env (loaded_world "accessory" named_config) =
     Ok tt (final (startBridge_run sample_env (loaded_world "accessory" named_config)))
  /\ run sample_env [Settled 0%nat; Settled 0%nat]
       (handle (startBridge sample_env) (loaded_world "accessory" named_config)) =
     final (startBridge_run sample_env (loaded_world "accessory" named_config)).
Proof.
  assert (H : startBridge_run sample_env (loaded_world "accessory" named_config) =
              Ok tt (final (startBridge_run sample_env
                              (loaded_world "accessory" named_config))))
    by (vm_compute; reflexivity).
  split; [reflexivity|]. split; [reflexivity|]. split; [exact H|].
  exact (@startBridge_run_settled sample_env
           (loaded_world "accessory" named_config) _ eq_refl eq_refl H).
Defined.

Lemma loadPlugin_wires_new_objects_witness :
  loadPlugin sample_env (load_payload "platform" platform_config)
    (boot sample_env true true) =
  Ok tt (loaded_world "platform" platform_config)
  /\ api (childPluginFork (loaded_world "platform" platform_config)) = Some 0%nat
  /\ pluginManager (childPluginFork (loaded_world "platform" platform_config)) =
     Some 1%nat
  /\ plugin (childPluginFork (loaded_world "platform" platform_config)) = Some 2%nat.
Proof.
  assert (H : loadPlugin sample_env (load_payload "platform" platform_config)
                (boot sample_env true true) =
              Ok tt (loaded_world "platform" platform_config))
    by (vm_compute; reflexivity).
  split; [exact H|].
  destruct (@loadPlugin_wires_new_objects sample_env _ _ _ H) as (A & B & C & _).
  split; [exact A|]. split; [exact B | exact C].
Defined.
